(** * moneyman: transaction normalisation and multi-backend storage fan-out

    A shallow embedding of the storage orchestrator of moneyman
    ([src/bot/storage/index.ts] in its two revisions, [InvoiceCreator.ts] and
    the Google Sheets backend) together with the properties its design
    document states about it.

    JavaScript objects are finite maps from property names to values, the
    rows built by the normaliser live in an explicit heap so that aliasing
    between the array handed to the invoice step and the array handed to the
    backends is visible, and asynchronous code is a state-and-exception
    monad whose suspension points are made explicit where tasks interleave. *)

From stdpp Require Import base strings list gmap sets pretty.
From Stdlib Require Import ZArith NArith Lia.

Open Scope Z_scope.
Open Scope string_scope.
Open Scope list_scope.

(** ** JavaScript values and objects *)

(** The values the orchestrator observes: strings, numbers (only their sign
    and equality are ever inspected, so integers stand for them) and the
    absent value. *)
Inductive Value :=
| VUndef
| VStr (s : string)
| VNum (z : Z).

#[global] Instance Value_eq_dec : EqDecision Value.
Proof. solve_decision. Defined.

(** An object: its own enumerable properties. *)
Abbreviation Obj := (gmap string Value).

(** [o.k]: a missing property reads as [undefined]. *)
Definition prop (o : Obj) (k : string) : Value := default VUndef (o !! k).

(** JavaScript truthiness, as used by [if (res.pdf_link)]. *)
Definition truthy (v : Value) : bool :=
  match v with
  | VUndef => false
  | VStr s => negb (String.eqb s "")
  | VNum z => negb (Z.eqb z 0)
  end.

(** ** Errors and completions *)

Definition Error := string.

(** How a JavaScript computation ends: normally or by throwing. *)
Inductive Completion (A : Type) :=
| Normal (a : A)
| Throw (e : Error).
Arguments Normal {A} a.
Arguments Throw {A} e.

(** ** Scraper results (types.ts, israeli-bank-scrapers) *)

Record TransactionsAccount := {
  accountNumber : string;
  txns : list Obj
}.

Record ScraperScrapingResult := {
  success : bool;
  accounts : option (list TransactionsAccount)
}.

Record AccountScrapeResult := {
  companyId : string;
  result : ScraperScrapingResult
}.

(** ** Timers (utils/Timer.ts) and save statistics (bot/saveStats.ts) *)

(** Modelled from the spec: [Timer] (utils/Timer.ts is not among the
    sources): a named step with a start timestamp taken when it is created
    and an end timestamp that is absent until the step is closed. *)
Record Timer := {
  name : string;
  startTime : N;
  endTime : option N
}.

(** Modelled from the spec: [SaveStats] (bot/saveStats.ts is not among the
    sources): the backend's name, the per-outcome counts and the highlighted
    subset of added transactions. *)
Record SaveStats := {
  statsName : string;
  table : string;
  added : Z;
  existing : Z;
  otherSkipped : Z;
  highlightedAdded : list Obj
}.

(** ** The world: heap, clock, notification and error channels *)

Definition loc := nat.
Definition MessageId := nat.

(** Texts sent through the notifier: a literal, or a rendering by [saving]
    or [statsString]; these two live in modules that are not among the
    sources, so their texts are kept as the calls that produce them. *)
Inductive Text :=
| Plain (s : string)
| SavingText (backend : string) (steps : list Timer)
| StatsText (stats : SaveStats) (duration : N) (steps : list Timer).

Definition NoStoragesFound : Text :=
  Plain "No storages found, skipping save".
Definition NoTransactionsFound : Text :=
  Plain "No transactions found, skipping save".
Definition NoPositiveTransactionsFound : Text :=
  Plain "No positive transactions found, skipping save".

Inductive ChatEvent :=
| Sent (id : MessageId) (text : Text)
| Edited (id : MessageId) (text : Text).

(** The context label given to [sendError]: a literal, or the template of
    the normaliser, `Failed to process transaction for ${companyId} account
    ${accountNumber}:` followed by [JSON.stringify(tx, null, 2)], kept as the
    values it is built from. *)
Inductive Label :=
| Literal (s : string)
| FailedToProcess (companyId account : string) (payload : Obj).

(** [`saveTransactions::${name}`]. *)
Definition SaveTransactionsOf (backend : string) : Label :=
  Literal ("saveTransactions::" +:+ backend).

Definition InvoiceCreatorLabel : Label := Literal "InvoiceCreator".

Record ErrorReport := {
  reported : Error;
  context : Label
}.

Record World := {
  heap : list Obj;
  clock : N;
  ticks : list N;
  chat : list ChatEvent;
  reports : list ErrorReport;
  invocations : list (nat * list loc)
}.

(** ** The state-and-exception monad *)

(** Effectful code over a state [S]: it ends normally or by throwing, and
    leaves a new state behind either way. *)
Definition Eff (S A : Type) : Type := S -> Completion A * S.

(** The orchestrator runs over the [World]. *)
Abbreviation Js := (Eff World).

Definition ret {S A} (a : A) : Eff S A := fun w => (Normal a, w).

Definition bind {S A B} (m : Eff S A) (k : A -> Eff S B) : Eff S B :=
  fun w =>
    match m w with
    | (Normal a, w') => k a w'
    | (Throw e, w') => (Throw e, w')
    end.

Definition throw {S A} (e : Error) : Eff S A := fun w => (Throw e, w).

Definition tryCatch {S A} (body : Eff S A) (handler : Error -> Eff S A)
    : Eff S A :=
  fun w =>
    match body w with
    | (Normal a, w') => (Normal a, w')
    | (Throw e, w') => handler e w'
    end.

Definition lift {S A} (c : Completion A) : Eff S A := fun w => (c, w).

Notation "x <~ c1 ;; c2" := (bind c1 (fun x => c2))
  (at level 100, c1 at next level, right associativity).
Notation "c1 ;;; c2" := (bind c1 (fun _ => c2))
  (at level 100, right associativity).

(** [for (const x of xs) acc = body(x, acc)]: a throwing body ends the loop. *)
Fixpoint forOf {W A S} (xs : list A) (body : A -> S -> Eff W S) (acc : S)
    : Eff W S :=
  match xs with
  | [] => ret acc
  | x :: rest => acc' <~ body x acc ;; forOf rest body acc'
  end.

(** *** Heap primitives *)

(** Allocation of a fresh object (an object literal). *)
Definition alloc (o : Obj) : Js loc :=
  fun w => (Normal (length (heap w)),
            {| heap := heap w ++ [o]; clock := clock w; ticks := ticks w;
               chat := chat w; reports := reports w;
               invocations := invocations w |}).

(** [obj.k = v] on the object a reference points to. *)
Definition setProp (l : loc) (k : string) (v : Value) : Js unit :=
  fun w => (Normal tt,
            {| heap := match heap w !! l with
                       | Some o => <[l := <[k := v]> o]> (heap w)
                       | None => heap w
                       end;
               clock := clock w; ticks := ticks w;
               chat := chat w; reports := reports w;
               invocations := invocations w |}).

(** The objects an array of references currently denotes. *)
Definition deref (h : list Obj) (ls : list loc) : list Obj :=
  omap (fun l => h !! l) ls.

(** *** Clock *)

(** The clock is monotone.  The time that passes before each reading is
    taken from the tape [ticks]; nothing is assumed about it. *)
Definition tick (w : World) : World :=
  {| heap := heap w; clock := (clock w + hd 0%N (ticks w))%N;
     ticks := tl (ticks w); chat := chat w; reports := reports w;
     invocations := invocations w |}.

(** [performance.now()]. *)
Definition now : Js N := fun w => (Normal (clock (tick w)), tick w).

(** *** Notifier (bot/notifier.ts) *)

(** Modelled from the spec: the notification collaborator (bot/notifier.ts
    is not among the sources): [send(text)] posts a message and returns its
    handle, [editMessage(handle, text)] replaces it, [sendError(error,
    label)] reports on the error channel; none of them fails. *)
Definition send (t : Text) : Js MessageId :=
  fun w =>
    let id := length (chat w) in
    (Normal id,
     {| heap := heap w; clock := clock w; ticks := ticks w;
        chat := chat w ++ [Sent id t]; reports := reports w;
        invocations := invocations w |}).

Definition editMessage (id : MessageId) (t : Text) : Js unit :=
  fun w =>
    (Normal tt,
     {| heap := heap w; clock := clock w; ticks := ticks w;
        chat := chat w ++ [Edited id t]; reports := reports w;
        invocations := invocations w |}).

Definition sendError (e : Error) (l : Label) : Js unit :=
  fun w =>
    (Normal tt,
     {| heap := heap w; clock := clock w; ticks := ticks w;
        chat := chat w;
        reports := reports w ++ [{| reported := e; context := l |}];
        invocations := invocations w |}).

(** Record of one [saveTransactions] invocation: which backend (its index in
    [storages]) received which array. *)
Definition logInvocation (i : nat) (arg : list loc) : Js unit :=
  fun w =>
    (Normal tt,
     {| heap := heap w; clock := clock w; ticks := ticks w;
        chat := chat w; reports := reports w;
        invocations := invocations w ++ [(i, arg)] |}).

(** ** Hash and unique-id derivation (bot/storage/utils.ts) *)

(** Modelled from the spec: [transactionHash] and [transactionUniqueId]
    (they are imported from [./utils.js], which is not among the sources):
    pure functions of the raw transaction, the institution and the account
    that return a key or fail.  The orchestrator is parametric in them. *)
Class Deriver := {
  transactionHash : Obj -> string -> string -> Completion string;
  transactionUniqueId : Obj -> string -> string -> Completion string
}.

(** ** The normaliser: [resultsToTransactions] *)

Section Normalizer.
Context `{Deriver}.

(** The object literal
    [{...tx, account, companyId, hash, uniqueId}]. *)
Definition makeRow (tx : Obj) (account companyId h u : string) : Obj :=
  <["uniqueId" := VStr u]>
    (<["hash" := VStr h]>
       (<["companyId" := VStr companyId]>
          (<["account" := VStr account]> tx))).

(** The argument of [txns.push]: both keys are derived, hash first, and
    either derivation may throw before anything is allocated. *)
Definition buildRow (tx : Obj) (companyId account : string) : Js loc :=
  h <~ lift (transactionHash tx companyId account) ;;
  u <~ lift (transactionUniqueId tx companyId account) ;;
  alloc (makeRow tx account companyId h u).

(** Body of the innermost loop of [resultsToTransactions]
    (the current revision): [try { txns.push({...}) } catch (error)
    { sendError(error, ...) }]. *)
Definition pushTx (companyId account : string) (tx : Obj)
    (rows : list loc) : Js (list loc) :=
  tryCatch
    (l <~ buildRow tx companyId account ;; ret (rows ++ [l]))
    (fun error =>
       sendError error (FailedToProcess companyId account tx) ;;;
       ret rows).

Definition pushAccount (companyId : string) (account : TransactionsAccount)
    (rows : list loc) : Js (list loc) :=
  forOf (txns account) (pushTx companyId (accountNumber account)) rows.

Definition pushResult (r : AccountScrapeResult) (rows : list loc)
    : Js (list loc) :=
  if success (result r) then
    forOf (default [] (accounts (result r))) (pushAccount (companyId r)) rows
  else ret rows.

(** [rows] is the local array [txns] of the source. *)
Definition resultsToTransactions (results : list AccountScrapeResult)
    : Js (list loc) :=
  forOf results pushResult [].

End Normalizer.

(** ** Insurance-vendor filter: [filterInsuranceVendorTransactions] *)

Definition vendors : list string :=
  [ "ילין"; "אלטשולר"; "מור"; "אנליסט"; "מגדל"; "כלל"; "הראל"; "פניקס";
    "מנורה" ].

(** [pat] occurs somewhere in [s]. *)
Fixpoint includes (pat s : string) : bool :=
  String.prefix pat s
  || match s with
     | EmptyString => false
     | String _ rest => includes pat rest
     end.

(** [vendorRegex.test(s)] for [new RegExp(vendors.join("|"))]: the vendor
    names hold no regular-expression operator, so the alternation matches
    exactly when one of them occurs in [s]. *)
Definition vendorRegexTest (s : string) : bool :=
  existsb (fun v => includes v s) vendors.

(** [txn.originalAmount > 0] for a numeric amount ([TransactionRow] types
    the field as a number). *)
Definition positive (v : Value) : bool :=
  match v with VNum z => Z.ltb 0 z | _ => false end.

Definition isInsuranceVendorTransaction (txn : Obj) : bool :=
  positive (prop txn "originalAmount")
  && match prop txn "description" with
     | VStr d => vendorRegexTest d
     | _ => false
     end.

(** The filter returns a new array holding the same references. *)
Definition filterInsuranceVendorTransactions (transactions : list loc)
    : Js (list loc) :=
  fun w =>
    (Normal
       (List.filter
          (fun l => match heap w !! l with
                    | Some txn => isInsuranceVendorTransaction txn
                    | None => false
                    end)
          transactions),
     w).

(** ** [InvoiceCreator] *)

(** What [response.json()] of the invoicing service holds of interest. *)
Record InvoiceResponse := {
  pdf_link : Value;
  doc_number : Value
}.

(** The invoicing service behind [fetch(baseUrl + "/api/createDoc")]: its
    answer to the request built from a row, or the error thrown when the
    request fails or the response is not ok. *)
Class InvoiceService := {
  createDoc : Obj -> Completion InvoiceResponse
}.

Section InvoiceCreator.
Context `{InvoiceService}.

Definition createInvoiceForTransaction (txn : loc) : Js InvoiceResponse :=
  fun w =>
    match heap w !! txn with
    | Some o => (createDoc o, w)
    | None => (Throw "TypeError", w)
    end.

(** Body of the loop of [createInvoicesForTransactions]: the row is updated
    in place; whatever is thrown is swallowed. *)
Definition attachInvoice (txn : loc) (_ : unit) : Js unit :=
  tryCatch
    (res <~ createInvoiceForTransaction txn ;;
     (if truthy (pdf_link res)
      then setProp txn "pdf_link" (pdf_link res) else ret tt) ;;;
     (if truthy (doc_number res)
      then setProp txn "doc_number" (doc_number res) else ret tt))
    (fun _ => ret tt).

Definition createInvoicesForTransactions (txns : list loc)
    : Js (list loc) :=
  forOf txns attachInvoice tt ;;; ret txns.

End InvoiceCreator.

(** ** Storage backends: the [TransactionStorage] interface *)

(** How a [saveTransactions] promise settles. *)
Inductive Settled :=
| Resolved (stats : SaveStats)
| Rejected (e : Error).

(** What a backend does during one [saveTransactions] call, as far as the
    orchestrator can see: the step names it passes to [onProgress], in
    order, and how the call settles. *)
Record Run := {
  progress : list string;
  settled : Settled
}.

Record TransactionStorage := {
  constructorName : string;
  canSave : bool;
  saveTransactions : list Obj -> Run
}.

(** [export const storages = [...].filter((s) => s.canSave())]. *)
Definition activeStorages (all : list TransactionStorage)
    : list TransactionStorage :=
  List.filter canSave all.

(** ** One backend's task *)

(** Where a task stands between two suspension points. *)
Inductive Phase :=
| Created
| Announced (message : MessageId)
| Saving (message : MessageId) (start : N) (todo : list string)
         (outcome : Settled)
| Finished.

Record Task := {
  index : nat;
  storage : TransactionStorage;
  phase : Phase;
  steps : list Timer
}.

Definition close (e : N) (t : Timer) : Timer :=
  {| name := name t; startTime := startTime t; endTime := Some e |}.

(** [steps.at(-1)?.end()]. *)
Definition endLast (steps : list Timer) : Js (list Timer) :=
  match steps with
  | [] => ret steps
  | _ :: _ => e <~ now ;; ret (alter (close e) (length steps - 1)%nat steps)
  end.

(** [new Timer(step)]. *)
Definition newTimer (step : string) : Js Timer :=
  t <~ now ;; ret {| name := step; startTime := t; endTime := None |}.

(** The callback handed to [saveTransactions]. *)
Definition onProgress (backend : string) (message : MessageId)
    (step : string) (steps : list Timer) : Js (list Timer) :=
  steps1 <~ endLast steps ;;
  t <~ newTimer step ;;
  let steps2 := steps1 ++ [t] in
  editMessage message (SavingText backend steps2) ;;;
  ret steps2.

(** [await] of the promise [saveTransactions] returned, once it has
    settled. *)
Definition awaitSettled (s : Settled) : Js SaveStats :=
  match s with
  | Resolved stats => ret stats
  | Rejected e => throw e
  end.

Section Task.
(** [allTransactions], the array every task closes over. *)
Variable allTransactions : list loc.

(** The code a task runs from one suspension point to the next, without
    the enclosing [try]. *)
Definition segment (t : Task) : Js (Phase * list Timer) :=
  let backend := constructorName (storage t) in
  match phase t with
  | Created =>
      message <~ send (SavingText backend []) ;;
      ret (Announced message, steps t)
  | Announced message =>
      start <~ now ;;
      logInvocation (index t) allTransactions ;;;
      (fun w =>
         let run := saveTransactions (storage t)
                      (deref (heap w) allTransactions) in
         (Normal (Saving message start (progress run) (settled run),
                  steps t), w))
  | Saving message start (step :: todo) outcome =>
      steps' <~ onProgress backend message step (steps t) ;;
      ret (Saving message start todo outcome, steps')
  | Saving message start [] outcome =>
      stats <~ awaitSettled outcome ;;
      finish <~ now ;;
      let duration := (finish - start)%N in
      steps' <~ endLast (steps t) ;;
      editMessage message (StatsText stats duration steps') ;;;
      ret (Finished, steps')
  | Finished => ret (Finished, steps t)
  end.

(** The same under [try { ... } catch (e) { sendError(e,
    `saveTransactions::${name}`) }]. *)
Definition taskStep (t : Task) : Js Task :=
  r <~ tryCatch (segment t)
         (fun e =>
            sendError e (SaveTransactionsOf (constructorName (storage t))) ;;;
            ret (Finished, steps t)) ;;
  ret {| index := index t; storage := storage t;
         phase := fst r; steps := snd r |}.

(** Resuming task [i] of the pool. *)
Definition resume (i : nat) (pool : list Task) : Js (list Task) :=
  match pool !! i with
  | Some t => t' <~ taskStep t ;; ret (<[i := t']> pool)
  | None => ret pool
  end.

(** [storages.map((storage) => async () => {...})]. *)
Definition tasks (storages : list TransactionStorage) : list Task :=
  imap (fun i s => {| index := i; storage := s; phase := Created;
                      steps := [] |}) storages.

(** The tasks under a schedule: the sequence in which the event loop
    resumes them. *)
Definition fanOut (storages : list TransactionStorage) (schedule : list nat)
    : Js (list Task) :=
  forOf schedule resume (tasks storages).

Definition finished (t : Task) : bool :=
  match phase t with Finished => true | _ => false end.

(** [await parallel(tasks)] of the [async] library: the join resolves once
    every task has completed; [None] stands for a join that is still
    pending when the schedule ends. *)
Definition parallel (storages : list TransactionStorage)
    (schedule : list nat) : Js (option unit) :=
  pool <~ fanOut storages schedule ;;
  ret (if forallb finished pool then Some tt else None).

End Task.

(** ** The orchestrator: [saveResults] *)

(** The part of [config.storage.googleSheets] the backend reads. *)
Record GoogleSheetsConfig := {
  configuredWorksheetName : option string
}.

Record Config := {
  invoice : bool;                          (* config.storage.invoice is set *)
  googleSheets : option GoogleSheetsConfig;  (* config.storage.googleSheets *)
  transactionHashType : string   (* config.options.scraping.transactionHashType *)
}.

Section Orchestrator.
Context `{Deriver} `{InvoiceService}.
Variable config : Config.
Variable storages : list TransactionStorage.

(** The block guarded by [if (config.storage.invoice)]. *)
Definition createInvoices (allTransactions : list loc) : Js unit :=
  if invoice config then
    txns <~ filterInsuranceVendorTransactions allTransactions ;;
    if (0 <? length txns)%nat then
      tryCatch
        (createInvoicesForTransactions txns ;;; ret tt)
        (fun e => sendError e InvoiceCreatorLabel)
    else ret tt
  else ret tt.

(** [saveResults] of the current revision. *)
Definition saveResults (results : list AccountScrapeResult)
    (schedule : list nat) : Js (option unit) :=
  if (length storages =? 0)%nat then
    send NoStoragesFound ;;; ret (Some tt)
  else
    allTransactions <~ resultsToTransactions results ;;
    if (length allTransactions =? 0)%nat then
      send NoTransactionsFound ;;; ret (Some tt)
    else
      createInvoices allTransactions ;;;
      parallel allTransactions storages schedule.

End Orchestrator.

(** ** The earlier revision of the orchestrator *)

Module Earlier.
Section Earlier.
Context `{Deriver} `{InvoiceService}.
Variable storages : list TransactionStorage.

(** Body of the innermost loop: no [try] around the derivation. *)
Definition pushTx (companyId account : string) (tx : Obj)
    (rows : list loc) : Js (list loc) :=
  l <~ buildRow tx companyId account ;; ret (rows ++ [l]).

Definition pushAccount (companyId : string) (account : TransactionsAccount)
    (rows : list loc) : Js (list loc) :=
  forOf (txns account) (pushTx companyId (accountNumber account)) rows.

Definition pushResult (r : AccountScrapeResult) (rows : list loc)
    : Js (list loc) :=
  if success (result r) then
    forOf (default [] (accounts (result r))) (pushAccount (companyId r)) rows
  else ret rows.

Definition resultsToTransactions (results : list AccountScrapeResult)
    : Js (list loc) :=
  forOf results pushResult [].

(** [new InvoiceCreator()]: the constructor (InvoiceCreator.ts, lines 9-17)
    reads [config.storage.invoice] of its argument, and this revision passes
    none: reading [storage] of [undefined] is a [TypeError]. *)
Definition newInvoiceCreator : Js unit := throw "TypeError".

(** [saveResults] of the earlier revision: only the insurance-vendor rows
    go on, and the invoice creator is constructed, outside the [try],
    whenever there is such a row. *)
Definition saveResults (results : list AccountScrapeResult)
    (schedule : list nat) : Js (option unit) :=
  if (length storages =? 0)%nat then
    send NoStoragesFound ;;; ret (Some tt)
  else
    allTransactions <~ resultsToTransactions results ;;
    txns <~ filterInsuranceVendorTransactions allTransactions ;;
    if (length txns =? 0)%nat then
      send NoPositiveTransactionsFound ;;; ret (Some tt)
    else
      newInvoiceCreator ;;;
      invoiceResults <~
        tryCatch
          (createInvoicesForTransactions txns)
          (fun e => sendError e InvoiceCreatorLabel ;;; ret txns) ;;
      parallel invoiceResults storages schedule.

End Earlier.
End Earlier.

(** ** A deriver to compute with *)

(** Modelled from the spec: [transactionHash] and [transactionUniqueId]
    (bot/storage/utils.ts is not among the sources).  Both are pure
    functions of the raw transaction, the institution and the account; both
    fail with a [MalformedTransactionError] when a required field (date,
    amount, description) is absent or of the wrong shape, and never return
    an empty key.  The formula is left to the implementation by the spec;
    the one below only serves to evaluate the orchestrator on concrete
    inputs. *)
Definition MalformedTransactionError : Error := "MalformedTransactionError".

Definition wellFormed (tx : Obj) : bool :=
  match prop tx "date", prop tx "amount", prop tx "description" with
  | VStr _, VNum _, VStr _ => true
  | _, _, _ => false
  end.

Definition render (v : Value) : string :=
  match v with
  | VUndef => ""
  | VStr s => s
  | VNum z => pretty z
  end.

Definition sampleHash (tx : Obj) (companyId account : string)
    : Completion string :=
  if wellFormed tx then
    Normal (render (prop tx "date") +:+ "_" +:+ render (prop tx "amount")
            +:+ "_" +:+ render (prop tx "description")
            +:+ "_" +:+ companyId +:+ "_" +:+ account)
  else Throw MalformedTransactionError.

Definition sampleUniqueId (tx : Obj) (companyId account : string)
    : Completion string :=
  if wellFormed tx then
    Normal (render (prop tx "date") +:+ "_" +:+ companyId +:+ "_" +:+ account
            +:+ "_" +:+ render (prop tx "amount")
            +:+ "_" +:+ render (prop tx "description")
            +:+ "_" +:+ render (prop tx "memo"))
  else Throw MalformedTransactionError.

Definition sampleDeriver : Deriver :=
  {| transactionHash := sampleHash; transactionUniqueId := sampleUniqueId |}.

(** The world before a run. *)
Definition emptyWorld : World :=
  {| heap := []; clock := 0%N; ticks := []; chat := []; reports := [];
     invocations := [] |}.

(** ** The Google Sheets backend: [GoogleSheetsStorage] *)

Module GoogleSheetsStorage.

(** [tableRow(tx, hasRawColumn)] (bot/transactionTableRow.ts is not among
    the sources): the row is kept as the call that builds it. *)
Record TableRow := {
  source : Obj;
  withRaw : bool
}.

(** The spreadsheet service as one call of [saveTransactions] meets it. *)
Record Spreadsheet := {
  getDoc : Completion unit;
  sheetsByTitle : string -> bool;
  loadHeaderRow : Completion unit;
  headerValues : list string;
  (** the answer to the n-th [getCellsInRange] request; [None] stands for
      a value that is not an array *)
  getCellsInRange : nat -> string -> Completion (option (list (list string)));
  addRows : list TableRow -> Completion unit
}.

(** What the call leaves behind. *)
Record Trace := {
  statuses : list string;            (* onProgress(status) *)
  sentErrors : list ErrorReport;     (* sendError *)
  deprecations : list string;        (* sendDeprecationMessage *)
  reads : nat;                       (* getCellsInRange requests so far *)
  appended : list (list TableRow)    (* sheet.addRows(rows) requests *)
}.

Definition emptyTrace : Trace :=
  {| statuses := []; sentErrors := []; deprecations := []; reads := 0%nat;
     appended := [] |}.

Definition onProgress (status : string) : Eff Trace unit :=
  fun t => (Normal tt,
            {| statuses := statuses t ++ [status];
               sentErrors := sentErrors t; deprecations := deprecations t;
               reads := reads t; appended := appended t |}).

Definition sendError (e : Error) (label : string) : Eff Trace unit :=
  fun t => (Normal tt,
            {| statuses := statuses t;
               sentErrors := sentErrors t
                             ++ [{| reported := e;
                                    context := Literal label |}];
               deprecations := deprecations t;
               reads := reads t; appended := appended t |}).

Definition sendDeprecationMessage (m : string) : Eff Trace unit :=
  fun t => (Normal tt,
            {| statuses := statuses t; sentErrors := sentErrors t;
               deprecations := deprecations t ++ [m];
               reads := reads t; appended := appended t |}).

Definition assert (b : bool) (message : string) : Eff Trace unit :=
  if b then ret tt else throw message.

(** [xs.indexOf(x)], [None] for -1. *)
Fixpoint indexOf (x : string) (xs : list string) : option nat :=
  match xs with
  | [] => None
  | y :: rest =>
      if String.eqb x y then Some 0%nat
      else option_map S (indexOf x rest)
  end.

(** [set.has(v)] for a set of strings. *)
Definition has (s : gset string) (v : Value) : bool :=
  match v with
  | VStr k => bool_decide (k ∈ s)
  | _ => false
  end.

(** [TransactionStatuses.Pending]. *)
Definition Pending : Value := VStr "pending".

(** [xs.filter(f)] for a callback that also updates the statistics. *)
Fixpoint filterCounting (f : Obj -> SaveStats -> bool * SaveStats)
    (xs : list Obj) (stats : SaveStats) : list Obj * SaveStats :=
  match xs with
  | [] => ([], stats)
  | x :: rest =>
      let '(keep, stats1) := f x stats in
      let '(kept, stats2) := filterCounting f rest stats1 in
      (if keep then x :: kept else kept, stats2)
  end.

(** [stats.existing++]. *)
Definition countExisting (stats : SaveStats) : SaveStats :=
  {| statsName := statsName stats; table := table stats;
     added := added stats; existing := existing stats + 1;
     otherSkipped := otherSkipped stats;
     highlightedAdded := highlightedAdded stats |}.

Section Backend.
Variable config : Config.
Variable sheet : Spreadsheet.

(** [this.worksheetName], as the constructor sets it:
    [config.storage.googleSheets?.worksheetName || "_moneyman"]. *)
Definition worksheetName : string :=
  match googleSheets config with
  | Some {| configuredWorksheetName := Some n |} =>
      if String.eqb n "" then "_moneyman" else n
  | _ => "_moneyman"
  end.

(** [canSave()]: [Boolean(this.config.storage.googleSheets)]. *)
Definition canSave : bool :=
  match googleSheets config with Some _ => true | None => false end.

Definition moneyman : bool :=
  String.eqb (transactionHashType config) "moneyman".

(** [sheet.getCellsInRange(range, ...)] settled: the request is counted
    and its outcome becomes a value, as under [Promise.allSettled]. *)
Definition requestCells (range : string)
    : Eff Trace (Completion (option (list (list string)))) :=
  fun t =>
    (Normal (getCellsInRange sheet (reads t) range),
     {| statuses := statuses t; sentErrors := sentErrors t;
        deprecations := deprecations t; reads := S (reads t);
        appended := appended t |}).

(** [sheet.addRows(rows)] settled. *)
Definition requestAddRows (rows : list TableRow)
    : Eff Trace (Completion unit) :=
  fun t =>
    (Normal (addRows sheet rows),
     {| statuses := statuses t; sentErrors := sentErrors t;
        deprecations := deprecations t; reads := reads t;
        appended := appended t ++ [rows] |}).

(** [loadHashes]. *)
Definition loadHashes : Eff Trace (gset string) :=
  match indexOf "hash" (headerValues sheet) with
  | None => throw "Hash column not found"
  | Some column =>
      assert (column <? 26)%nat
             "Currently only supports single letter columns" ;;;
      let columnLetter :=
        String (Ascii.ascii_of_nat (65 + column)) EmptyString in
      let range := columnLetter +:+ "2:" +:+ columnLetter in
      columns <~ requestCells range ;;
      onProgress ("Loading hashes (" +:+ range +:+ ")") ;;;
      match columns with
      | Throw reason =>
          onProgress ("Loading hashes failed: " +:+ reason) ;;;
          throw ("Loading hashes failed: " +:+ reason)
      | Normal (Some value) =>
          ret (list_to_set (default [] (head value)))
      | Normal None => ret ∅
      end
  end.

(** The callback of [txns.filter] that selects the new transactions. *)
Definition isNew (existingHashes : gset string) (tx : Obj)
    (stats : SaveStats) : bool * SaveStats :=
  if moneyman && has existingHashes (prop tx "uniqueId") then
    (false, countExisting stats)
  else if has existingHashes (prop tx "hash") then
    (false,
     if negb (has existingHashes (prop tx "uniqueId"))
     then countExisting stats else stats)
  else
    (negb (bool_decide (prop tx "status" = Pending)), stats).

(** One of the keys the backend looks for is in the sheet: the unique
    id when the hash type is "moneyman", or the hash. *)
Definition keyPresent (existingHashes : gset string) (tx : Obj) : bool :=
  (moneyman && has existingHashes (prop tx "uniqueId"))
  || has existingHashes (prop tx "hash").

(** The transaction adds one to [stats.existing]. *)
Definition counted (existingHashes : gset string) (tx : Obj) : bool :=
  (moneyman && has existingHashes (prop tx "uniqueId"))
  || (has existingHashes (prop tx "hash")
      && negb (has existingHashes (prop tx "uniqueId"))).

(** The transaction is kept by the filter. *)
Definition selected (existingHashes : gset string) (tx : Obj) : bool :=
  negb (keyPresent existingHashes tx)
  && negb (bool_decide (prop tx "status" = Pending)).

Definition tableRow (hasRawColumn : bool) (tx : Obj) : TableRow :=
  {| source := tx; withRaw := hasRawColumn |}.

(** Modelled from the spec: [createSaveStats] (bot/saveStats.ts is not
    among the sources): named statistics whose counts start at zero. *)
Definition createSaveStats (name table : string) : SaveStats :=
  {| statsName := name; table := table; added := 0; existing := 0;
     otherSkipped := 0; highlightedAdded := [] |}.

(** The recovery after a failed [addRows]: the rows missing from the
    reloaded sheet are moved from [added] to [otherSkipped]. *)
Definition recover (newTxns : list Obj) (stats : SaveStats)
    : Eff Trace SaveStats :=
  tryCatch
    (hashes <~ loadHashes ;;
     let notSaved :=
       List.filter
         (fun tx => negb (has hashes (prop tx "hash"))
                    && negb (has hashes (prop tx "uniqueId")))
         newTxns in
     ret {| statsName := statsName stats; table := table stats;
            added := added stats - Z.of_nat (length notSaved);
            existing := existing stats;
            otherSkipped := Z.of_nat (length notSaved);
            highlightedAdded := highlightedAdded stats |})
    (fun e =>
       sendError e "GoogleSheetsStorage::saveTransactions" ;;;
       ret stats).

(** The part of [saveTransactions] that follows the loading of the
    existing hashes. *)
Definition saveNew (existingHashes : gset string) (txns : list Obj)
    : Eff Trace SaveStats :=
  let stats := createSaveStats "Google Sheets" worksheetName in
  let '(newTxns, stats) :=
    filterCounting (isNew existingHashes) txns stats in
  let hasRawColumn :=
    bool_decide ("raw" ∈ headerValues sheet) in
  let rows := map (tableRow hasRawColumn) newTxns in
  if (0 <? length rows)%nat then
    let stats :=
      {| statsName := statsName stats; table := table stats;
         added := Z.of_nat (length rows); existing := existing stats;
         otherSkipped := otherSkipped stats;
         highlightedAdded := highlightedAdded stats ++ newTxns |} in
    addRowsResult <~ requestAddRows rows ;;
    onProgress ("Saving " +:+ pretty (length rows) +:+ " rows") ;;;
    (if negb moneyman
     then sendDeprecationMessage "hashFiledChange" else ret tt) ;;;
    match addRowsResult with
    | Throw reason =>
        sendError reason "GoogleSheetsStorage::saveTransactions" ;;;
        onProgress
          ("recovering stats after saving failed: " +:+ reason) ;;;
        recover newTxns stats
    | Normal _ => ret stats
    end
  else ret stats.

Definition saveTransactions (txns : list Obj) : Eff Trace SaveStats :=
  onProgress "Getting doc" ;;;
  lift (getDoc sheet) ;;;
  onProgress ("Getting sheet " +:+ worksheetName) ;;;
  assert (sheetsByTitle sheet worksheetName)
         ("Sheet " +:+ worksheetName +:+ " not found") ;;;
  onProgress "Loading header row" ;;;
  match loadHeaderRow sheet with
  | Throw reason =>
      sendError reason "GoogleSheetsStorage::loadHeaderRow" ;;;
      onProgress ("Loading header row failed: " +:+ reason) ;;;
      throw ("Failed to load header row: " +:+ reason)
  | Normal _ =>
      existingHashes <~ loadHashes ;;
      saveNew existingHashes txns
  end.

End Backend.

End GoogleSheetsStorage.

(** ** Reference descriptions used in the statements *)

(** A raw transaction together with the institution and the account it was
    scraped from. *)
Definition Item : Type := string * string * Obj.

Definition itemsOfAccount (companyId : string) (account : TransactionsAccount)
    : list Item :=
  map (fun tx => (companyId, accountNumber account, tx)) (txns account).

Definition itemsOfResult (r : AccountScrapeResult) : list Item :=
  if success (result r) then
    flat_map (itemsOfAccount (companyId r)) (default [] (accounts (result r)))
  else [].

(** The raw transactions of the successful results, in input order. *)
Definition rawItems (results : list AccountScrapeResult) : list Item :=
  flat_map itemsOfResult results.

Section Reference.
Context `{Deriver}.

(** Both keys of a raw transaction, or the error of the first derivation
    that fails. *)
Definition keysOf (it : Item) : Completion (string * string) :=
  let '(companyId, account, tx) := it in
  match transactionHash tx companyId account with
  | Throw e => Throw e
  | Normal h =>
      match transactionUniqueId tx companyId account with
      | Throw e => Throw e
      | Normal u => Normal (h, u)
      end
  end.

(** The canonical row of a raw transaction whose keys can be derived. *)
Definition rowOf (it : Item) : option Obj :=
  let '(companyId, account, tx) := it in
  match keysOf it with
  | Normal (h, u) => Some (makeRow tx account companyId h u)
  | Throw _ => None
  end.

(** The diagnostic of a raw transaction whose keys cannot be derived. *)
Definition failureOf (it : Item) : option ErrorReport :=
  let '(companyId, account, tx) := it in
  match keysOf it with
  | Normal _ => None
  | Throw e =>
      Some {| reported := e;
              context := FailedToProcess companyId account tx |}
  end.

(** The world after the normaliser went through [items]. *)
Definition normalized (items : list Item) (w : World) : World :=
  {| heap := heap w ++ omap rowOf items;
     clock := clock w; ticks := ticks w; chat := chat w;
     reports := reports w ++ omap failureOf items;
     invocations := invocations w |}.

(** The references pushed while going through [items]. *)
Definition pushed (items : list Item) (w : World) : list loc :=
  seq (length (heap w)) (length (omap rowOf items)).

(** [row] is [tx] augmented with exactly the four fields. *)
Definition augments (it : Item) (row : Obj) : Prop :=
  let '(companyId, account, tx) := it in
  exists h u,
    transactionHash tx companyId account = Normal h
    /\ transactionUniqueId tx companyId account = Normal u
    /\ row !! "account" = Some (VStr account)
    /\ row !! "companyId" = Some (VStr companyId)
    /\ row !! "hash" = Some (VStr h)
    /\ row !! "uniqueId" = Some (VStr u)
    /\ forall k : string,
         k <> "account" -> k <> "companyId" -> k <> "hash" ->
         k <> "uniqueId" -> row !! k = tx !! k.

(** One turn of the innermost loop of [resultsToTransactions]. *)
Definition pushItem (it : Item) (rows : list loc) : Js (list loc) :=
  let '(companyId, account, tx) := it in pushTx companyId account tx rows.

(** The items whose keys can be derived. *)
Definition derivable (it : Item) : bool :=
  match keysOf it with Normal _ => true | Throw _ => false end.

End Reference.

Section Canonical.
Context `{Deriver}.

(** The canonical sequence: the rows the normaliser's output denotes when
    it returns. *)
Definition canonicalRows (results : list AccountScrapeResult) (w : World)
    : list Obj :=
  match resultsToTransactions results w with
  | (Normal allTransactions, w') => deref (heap w') allTransactions
  | (Throw _, _) => []
  end.

(** The diagnostics the normaliser adds to the error channel. *)
Definition diagnostics (results : list AccountScrapeResult) (w : World)
    : list ErrorReport :=
  drop (length (reports w))
       (reports (snd (resultsToTransactions results w))).

End Canonical.
(** ** Sample inputs *)

Module Samples.

(** A raw transaction with every required field. *)
Definition purchase (date : string) (amount : Z) (description : string)
    : Obj :=
  <["date" := VStr date]>
    (<["amount" := VNum amount]>
       (<["originalAmount" := VNum amount]>
          (<["description" := VStr description]>
             (<["status" := VStr "completed"]> ∅)))).

(** The same without its date. *)
Definition undated (amount : Z) (description : string) : Obj :=
  <["amount" := VNum amount]>
    (<["originalAmount" := VNum amount]>
       (<["description" := VStr description]>
          (<["status" := VStr "completed"]> ∅))).

Definition scraped (companyId account : string) (batch : list Obj)
    : AccountScrapeResult :=
  {| companyId := companyId;
     result := {| success := true;
                  accounts := Some [ {| accountNumber := account;
                                        txns := batch |} ] |} |}.

Definition failedScrape (companyId : string) : AccountScrapeResult :=
  {| companyId := companyId;
     result := {| success := false; accounts := None |} |}.

(** Five raw transactions, the third of which has no date. *)
Definition fiveWithOneUndated : list AccountScrapeResult :=
  [ scraped "hapoalim" "123"
      [ purchase "2024-01-01" 10 "coffee";
        purchase "2024-01-02" 20 "bread";
        undated 30 "fuel";
        purchase "2024-01-04" 40 "books";
        purchase "2024-01-05" 50 "rent" ] ].

(** One result holding one undated transaction. *)
Definition oneUndated : list AccountScrapeResult :=
  [ scraped "hapoalim" "123" [ undated 30 "fuel" ] ].

(** A backend that opens one step and then rejects. *)
Definition failing : TransactionStorage :=
  {| constructorName := "WebPostStorage"; canSave := true;
     saveTransactions := fun _ =>
       {| progress := ["fetch"]; settled := Rejected "connection refused" |}
  |}.

(** A backend that goes through two steps and reports what it was
    given. *)
Definition echoing : TransactionStorage :=
  {| constructorName := "LocalJsonStorage"; canSave := true;
     saveTransactions := fun rows =>
       {| progress := ["fetch"; "write"];
          settled :=
            Resolved {| statsName := "LocalJsonStorage"; table := "";
                        added := Z.of_nat (length rows); existing := 0;
                        otherSkipped := 0; highlightedAdded := rows |} |}
  |}.

(** An invoicing service that is never reached. *)
Definition noService : InvoiceService :=
  {| createDoc := fun _ => Throw "unreachable" |}.

(** An invoicing service that answers every request with a document. *)
Definition issuing : InvoiceService :=
  {| createDoc := fun _ =>
       Normal {| pdf_link := VStr "https://invoices.example/1.pdf";
                 doc_number := VNum 1 |} |}.

Definition withInvoices : Config :=
  {| invoice := true; googleSheets := None;
     transactionHashType := "moneyman" |}.

Definition withoutInvoices : Config :=
  {| invoice := false; googleSheets := None;
     transactionHashType := "moneyman" |}.

(** One commission paid by an insurance vendor. *)
Definition commission : list AccountScrapeResult :=
  [ scraped "hapoalim" "123" [ purchase "2024-01-01" 100 "מגדל" ] ].

(** A clock that advances by one time unit before each reading. *)
Definition ticking : World :=
  {| heap := []; clock := 0%N; ticks := [1; 1; 1; 1; 1; 1; 1; 1; 1; 1]%N;
     chat := []; reports := []; invocations := [] |}.

(** A canonical row as the sheets backend reads it. *)
Definition keyed (hash uniqueId status : string) : Obj :=
  <["hash" := VStr hash]>
    (<["uniqueId" := VStr uniqueId]> (<["status" := VStr status]> ∅)).

(** A sheet whose hash column holds one cell, the unique id "u2". *)
Definition sheetWithU2 : GoogleSheetsStorage.Spreadsheet :=
  {| GoogleSheetsStorage.getDoc := Normal tt;
     GoogleSheetsStorage.sheetsByTitle := fun _ => true;
     GoogleSheetsStorage.loadHeaderRow := Normal tt;
     GoogleSheetsStorage.headerValues := ["date"; "hash"];
     GoogleSheetsStorage.getCellsInRange := fun _ _ => Normal (Some [["u2"]]);
     GoogleSheetsStorage.addRows := fun _ => Normal tt |}.

(** The configuration with the older hash type. *)
Definition olderHashType : Config :=
  {| invoice := false;
     googleSheets := Some {| configuredWorksheetName := None |};
     transactionHashType := "" |}.

(** A commission of an insurance vendor next to an ordinary purchase. *)
Definition commissionAndCoffee : list AccountScrapeResult :=
  [ scraped "hapoalim" "123"
      [ purchase "2024-01-01" 5 "coffee";
        purchase "2024-01-02" 100 "מגדל" ] ].

End Samples.

(** ** Step timelines *)

(** A timeline whose steps are all closed, each within its own start and
    end, each ended before the next one started, and nothing later than
    [bound]. *)
Inductive ClosedTimeline : N -> list Timer -> Prop :=
| closed_nil bound : ClosedTimeline bound []
| closed_snoc bound earlier steps t e :
    ClosedTimeline earlier steps ->
    (earlier <= startTime t)%N ->
    endTime t = Some e ->
    (startTime t <= e)%N ->
    (e <= bound)%N ->
    ClosedTimeline bound (steps ++ [t]).

(** A timeline whose last step is open and whose earlier steps are closed. *)
Inductive OpenTimeline : N -> list Timer -> Prop :=
| open_snoc bound earlier steps t :
    ClosedTimeline earlier steps ->
    (earlier <= startTime t)%N ->
    endTime t = None ->
    (startTime t <= bound)%N ->
    OpenTimeline bound (steps ++ [t]).

(** Only the most recent step may be open. *)
Definition onlyLastOpen (steps : list Timer) : Prop :=
  forall i t,
    steps !! i = Some t -> endTime t = None -> S i = length steps.

(** Every step that has a successor was closed, and not later than the
    successor started. *)
Definition closedBeforeSuccessor (steps : list Timer) : Prop :=
  forall i t t',
    steps !! i = Some t -> steps !! S i = Some t' ->
    exists e, endTime t = Some e
              /\ (startTime t <= e)%N /\ (e <= startTime t')%N.

(** The world after an event was posted on the chat. *)
Definition posted (ev : ChatEvent) (w : World) : World :=
  {| heap := heap w; clock := clock w; ticks := ticks w;
     chat := chat w ++ [ev]; reports := reports w;
     invocations := invocations w |}.

(** The world after an error was reported. *)
Definition complained (r : ErrorReport) (w : World) : World :=
  {| heap := heap w; clock := clock w; ticks := ticks w;
     chat := chat w; reports := reports w ++ [r];
     invocations := invocations w |}.

(** The world after backend [i] was invoked with [arg]. *)
Definition invoked (i : nat) (arg : list loc) (w : World) : World :=
  {| heap := heap w; clock := clock w; ticks := ticks w;
     chat := chat w; reports := reports w;
     invocations := invocations w ++ [(i, arg)] |}.

(** ** What a task owes its backend *)

Section TaskSpecs.
Variable allTransactions : list loc.
(** the heap while the tasks run *)
Variable h : list Obj.
(** the number of invocations recorded before the tasks start *)
Variable base : nat.

(** What the backend does when it is handed the canonical rows. *)
Definition runOf (s : TransactionStorage) : Run :=
  saveTransactions s (deref h allTransactions).

(** The number of times a task has to be resumed to complete: once to
    announce, once to invoke the backend, once for each progress call and
    once for the settlement. *)
Definition turnsNeeded (s : TransactionStorage) : nat :=
  3 + length (progress (runOf s)).

Definition remaining (t : Task) : nat :=
  match phase t with
  | Created => 3 + length (progress (runOf (storage t)))
  | Announced _ => 2 + length (progress (runOf (storage t)))
  | Saving _ _ todo _ => 1 + length todo
  | Finished => 0
  end.

(** The progress calls the backend of a task has made so far: all those
    of its run but the ones still to come. *)
Definition callsMade (t : Task) : list string :=
  match phase t with
  | Created | Announced _ => []
  | Saving _ _ todo _ =>
      take (length (progress (runOf (storage t))) - length todo)
           (progress (runOf (storage t)))
  | Finished => progress (runOf (storage t))
  end.

(** Turns left to each task of [pool'], given those of [pool] and the
    turns [spent]. *)
Definition advanced (spent : nat -> nat) (pool pool' : list Task) : Prop :=
  forall j t,
    pool !! j = Some t ->
    exists t',
      pool' !! j = Some t' /\ remaining t' = (remaining t - spent j)%nat.

(** A schedule that resumes every task as often as it needs. *)
Definition fair (storages : list TransactionStorage) (schedule : list nat)
    : bool :=
  forallb
    (fun p => turnsNeeded (snd p) <=? count_occ Nat.eq_dec schedule (fst p))%nat
    (imap (fun i s => (i, s)) storages).

(** The terminal report of a backend in the world [w]: its statistics
    replaced the status message that was sent for it, with the steps it went
    through, or its error reached the error channel under its name. *)
Definition reportedIn (w : World) (s : TransactionStorage) : Prop :=
  match settled (runOf s) with
  | Resolved stats =>
      exists message duration timeline,
        In (Sent message (SavingText (constructorName s) [])) (chat w)
        /\ In (Edited message (StatsText stats duration timeline)) (chat w)
        /\ map name timeline = progress (runOf s)
  | Rejected e =>
      In {| reported := e;
            context := SaveTransactionsOf (constructorName s) |}
         (reports w)
  end.

(** The invocations of backend [i] recorded in [w]. *)
Definition invocationsOf (i : nat) (w : World) : list (nat * list loc) :=
  List.filter (fun p => Nat.eqb (fst p) i) (drop base (invocations w)).

(** The status message of a task was sent under the handle [message]. *)
Definition announced (message : MessageId) (t : Task) (w : World) : Prop :=
  In (Sent message (SavingText (constructorName (storage t)) [])) (chat w).

(** What holds of a task between two of its turns. *)
Definition taskInv (w : World) (t : Task) : Prop :=
  match phase t with
  | Created =>
      steps t = [] /\ invocationsOf (index t) w = []
  | Announced message =>
      steps t = [] /\ invocationsOf (index t) w = []
      /\ announced message t w
  | Saving message start todo outcome =>
      announced message t w
      /\ outcome = settled (runOf (storage t))
      /\ map name (steps t) ++ todo = progress (runOf (storage t))
      /\ (steps t = [] \/ OpenTimeline (clock w) (steps t))
      /\ invocationsOf (index t) w = [(index t, allTransactions)]
  | Finished =>
      map name (steps t) = progress (runOf (storage t))
      /\ invocationsOf (index t) w = [(index t, allTransactions)]
      /\ match settled (runOf (storage t)) with
         | Resolved stats =>
             ClosedTimeline (clock w) (steps t)
             /\ exists message duration,
                  announced message t w
                  /\ In (Edited message (StatsText stats duration (steps t)))
                       (chat w)
         | Rejected e =>
             (steps t = [] \/ OpenTimeline (clock w) (steps t))
             /\ In {| reported := e;
                      context :=
                        SaveTransactionsOf (constructorName (storage t)) |}
                   (reports w)
         end
  end.

(** What holds of the pool: task [i] works for backend [i]. *)
Definition poolInv (storages : list TransactionStorage) (w : World)
    (pool : list Task) : Prop :=
  heap w = h
  /\ (base <= length (invocations w))%nat
  /\ length pool = length storages
  /\ forall i t,
       pool !! i = Some t ->
       index t = i /\ storages !! i = Some (storage t) /\ taskInv w t.

(** The world grew by a turn of task [i]: the heap is untouched, the
    channels only got longer, the clock did not go back, and the new
    invocations are task [i]'s. *)
Definition grewBy (i : nat) (w w' : World) : Prop :=
  heap w' = heap w
  /\ (clock w <= clock w')%N
  /\ (exists more, chat w' = chat w ++ more)
  /\ (exists more, reports w' = reports w ++ more)
  /\ (exists more, invocations w' = invocations w ++ more
                   /\ Forall (fun p => fst p = i) more).

End TaskSpecs.

(** ** What the invoice step may change *)

(** The world with another heap. *)
Definition withHeap (h : list Obj) (w : World) : World :=
  {| heap := h; clock := clock w; ticks := ticks w; chat := chat w;
     reports := reports w; invocations := invocations w |}.

(** [h'] holds the objects of [h], of which those in [touched] may have
    got new values for [pdf_link] and [doc_number] and nothing else. *)
Definition invoiceFrame (touched : list loc) (h h' : list Obj) : Prop :=
  length h' = length h
  /\ forall l o,
       h !! l = Some o ->
       exists o',
         h' !! l = Some o'
         /\ (~ In l touched -> o' = o)
         /\ forall k : string,
              k <> "pdf_link" -> k <> "doc_number" -> o' !! k = o !! k.

(** The rows the invoice step is given: those of an insurance vendor with a
    positive original amount. *)
Definition insuranceRows (h : list Obj) (transactions : list loc) : list loc :=
  List.filter
    (fun l => match h !! l with
              | Some txn => isInsuranceVendorTransaction txn
              | None => false
              end)
    transactions.

Section RunSpecs.
Context `{Deriver} `{InvoiceService}.
Variable config : Config.

(** The array the normaliser returns when it starts in [w]. *)
Definition canonical (results : list AccountScrapeResult) (w : World)
    : list loc :=
  pushed (rawItems results) w.

(** The world in which the fan-out starts: after the normaliser and the
    invoice step. *)
Definition fanOutStart (results : list AccountScrapeResult) (w : World)
    : World :=
  snd (createInvoices config (canonical results w)
         (normalized (rawItems results) w)).

End RunSpecs.

(** One turn of the innermost loop of the earlier [resultsToTransactions]. *)
Definition earlierPushItem `{Deriver} (it : Item) (rows : list loc)
    : Js (list loc) :=
  let '(companyId, account, tx) := it in
  Earlier.pushTx companyId account tx rows.
(** ** Further reference descriptions *)

(** The row after the answer of the invoicing service was written back:
    [pdf_link] and [doc_number] are set when the answer holds a truthy value
    for them; a failed request leaves the row as it is. *)
Definition attached (answer : Completion InvoiceResponse) (o : Obj) : Obj :=
  match answer with
  | Normal res =>
      let o1 := if truthy (pdf_link res)
                then <["pdf_link" := pdf_link res]> o else o in
      if truthy (doc_number res)
      then <["doc_number" := doc_number res]> o1 else o1
  | Throw _ => o
  end.

(** The row after its own invoice request. *)
Definition invoiced `{InvoiceService} (o : Obj) : Obj :=
  attached (createDoc o) o.

(** ** What the fan-out leaves on the channels, backend by backend *)

(** The handle of the message a chat event is about. *)
Definition handleOf (ev : ChatEvent) : MessageId :=
  match ev with Sent m _ => m | Edited m _ => m end.

(** The events of a chat that are about one message, in their order. *)
Definition about (m : MessageId) (events : list ChatEvent) : list ChatEvent :=
  List.filter (fun ev => Nat.eqb (handleOf ev) m) events.

Section ThreadSpecs.
Variable allTransactions : list loc.
Variable h : list Obj.

(** Whether the call of a backend resolves. *)
Definition resolves (s : TransactionStorage) : bool :=
  match settled (runOf allTransactions h s) with
  | Resolved _ => true
  | Rejected _ => false
  end.

(** What is posted about the status message [m] of backend [s] once [made]
    of its progress calls were served and, when [closed], its statistics
    were shown: the message itself, then one edit for each progress call,
    the k-th showing the steps up to the k-th, then the edit with the
    statistics and the whole timeline. *)
Definition threadAfter (s : TransactionStorage) (m : MessageId) (made : nat)
    (closed : bool) (events : list ChatEvent) : Prop :=
  exists timelines final,
    events
    = Sent m (SavingText (constructorName s) [])
      :: map (fun steps => Edited m (SavingText (constructorName s) steps))
           timelines
      ++ final
    /\ map (map name) timelines
       = map (fun k => take (S k) (progress (runOf allTransactions h s)))
           (seq 0 made)
    /\ if closed then
         exists stats duration steps,
           settled (runOf allTransactions h s) = Resolved stats
           /\ final = [Edited m (StatsText stats duration steps)]
           /\ map name steps = progress (runOf allTransactions h s)
       else final = [].

(** The error report the task of a backend makes when its call rejects. *)
Definition rejectionOf (s : TransactionStorage) : option ErrorReport :=
  match settled (runOf allTransactions h s) with
  | Rejected e =>
      Some {| reported := e;
              context := SaveTransactionsOf (constructorName s) |}
  | Resolved _ => None
  end.

(** The progress calls a task has served so far. *)
Definition served (t : Task) : nat :=
  match phase t with
  | Created | Announced _ => 0
  | Saving _ _ _ _ | Finished => length (steps t)
  end.

(** Whether a task has shown the statistics of its backend. *)
Definition closedOf (t : Task) : bool :=
  match phase t with
  | Finished => resolves (storage t)
  | _ => false
  end.

(** The error report a task has made so far. *)
Definition reportOf (t : Task) : option ErrorReport :=
  match phase t with
  | Finished => rejectionOf (storage t)
  | _ => None
  end.

(** The invocation of its backend a task has made so far. *)
Definition callOf (t : Task) : option (nat * list loc) :=
  match phase t with
  | Created | Announced _ => None
  | Saving _ _ _ _ | Finished => Some (index t, allTransactions)
  end.

(** The status message of a task, as far as its phase remembers it. *)
Definition handleIn (t : Task) : option MessageId :=
  match phase t with
  | Announced m | Saving m _ _ _ => Some m
  | Created | Finished => None
  end.

(** What the chat holds about a task whose status message, if any, has the
    handle [om]; [n0] is the length of the chat when the tasks started. *)
Definition threadInv (n0 : nat) (w : World) (t : Task)
    (om : option MessageId) : Prop :=
  match om with
  | None => phase t = Created
  | Some m =>
      (n0 <= m < length (chat w))%nat
      /\ phase t <> Created
      /\ (forall m', handleIn t = Some m' -> m' = m)
      /\ threadAfter (storage t) m (served t) (closedOf t)
           (about m (drop n0 (chat w)))
  end.

(** The ledger of a pool that started in the world [w0]: the chat, the
    error channel and the record of invocations hold what they held then
    and, beyond that, what the tasks have caused and nothing else. *)
Definition ledger (w0 w : World) (pool : list Task)
    (handles : list (option MessageId)) : Prop :=
  chat w0 `prefix_of` chat w
  /\ reports w0 `prefix_of` reports w
  /\ invocations w0 `prefix_of` invocations w
  /\ length handles = length pool
  /\ (forall i t om,
        pool !! i = Some t -> handles !! i = Some om ->
        threadInv (length (chat w0)) w t om)
  /\ (forall i j m,
        handles !! i = Some (Some m) -> handles !! j = Some (Some m) -> i = j)
  /\ Forall (fun ev => Some (handleOf ev) ∈ handles)
       (drop (length (chat w0)) (chat w))
  /\ drop (length (reports w0)) (reports w) ≡ₚ omap reportOf pool
  /\ drop (length (invocations w0)) (invocations w) ≡ₚ omap callOf pool.

End ThreadSpecs.

(** ** Reading a number back from its decimal digits *)

(** The value of a decimal digit. *)
Definition digitValue (c : Ascii.ascii) : option nat :=
  let n := Ascii.nat_of_ascii c in
  if ((48 <=? n) && (n <=? 57))%nat then Some (n - 48)%nat else None.

Fixpoint readDigits (s : string) (acc : nat) : option nat :=
  match s with
  | EmptyString => Some acc
  | String c rest =>
      match digitValue c with
      | Some d => readDigits rest (10 * acc + d)%nat
      | None => None
      end
  end.

(** The number a non-empty string of decimal digits denotes. *)
Definition readDecimal (s : string) : option nat :=
  match s with
  | EmptyString => None
  | String _ _ => readDigits s 0
  end.

(** ** The requests of [InvoiceCreator] *)

Module InvoiceCreator.

(** [config.storage.invoice]. *)
Record InvoiceConfig := {
  baseUrl : string;
  developerEmail : string;
  apiKey : string
}.

(** The constructor: it throws when the invoice configuration is absent. *)
Definition new (invoiceConfig : option InvoiceConfig)
    : Completion InvoiceConfig :=
  match invoiceConfig with
  | None => Throw "Invoice configuration not found in config.storage.invoice"
  | Some c => Normal c
  end.

(** The UTC fields of a valid [Date]: [getUTCFullYear()], [getUTCMonth()]
    (from 0) and [getUTCDate()]. *)
Record UTCDate := {
  utcFullYear : Z;
  utcMonth : nat;
  utcDate : nat
}.

(** [s.padStart(targetLength, c)] for a filler of one character. *)
Definition padStart (targetLength : nat) (c : Ascii.ascii) (s : string)
    : string :=
  String.string_of_list_ascii (replicate (targetLength - String.length s) c) +:+ s.

(** The character '0'. *)
Definition zeroDigit : Ascii.ascii := Ascii.ascii_of_nat 48.

(** [Math.abs(v)] for a number; [None] stands for [NaN]. *)
Definition mathAbs (v : Value) : option Z :=
  match v with VNum z => Some (Z.abs z) | _ => None end.

(** [`${v}`]. *)
Definition toString (v : Value) : string :=
  match v with
  | VUndef => "undefined"
  | VStr s => s
  | VNum z => pretty z
  end.

Record InvoiceItem := {
  details : string;
  price : option Z;
  amount : Z;
  vat_type : string
}.

Record InvoicePayment := {
  payment_type : Z;
  payment_sum : option Z;
  payment_date : string
}.

(** The body of the request. *)
Record InvoiceBody := {
  developer_email : string;
  api_key : string;
  date : string;
  type : Z;
  transaction_id : Value;
  customer_name : Value;
  forceItemsIntoNonItemsDocument : Z;
  show_items_including_vat : Z;
  item : list InvoiceItem;
  payment : list InvoicePayment;
  price_total : option Z
}.

(** What [fetch] resolves with: [response.ok] and [response.json()]. *)
Record Response := {
  ok : bool;
  json : Completion InvoiceResponse
}.

Section Requests.
(** [new Date(v)] of the engine: the UTC fields of the date, [None] for an
    invalid date. *)
Variable dateOf : Value -> option UTCDate.
(** [fetch(url, { method: "POST", ..., body: JSON.stringify(body) })]: what
    it resolves with, or the error it rejects with. *)
Variable fetch : string -> InvoiceBody -> Completion Response.
Variable creator : InvoiceConfig.

(** [formatDate]: the date as DD/MM/YYYY. *)
Definition formatDate (dateStr : Value) : string :=
  match dateOf dateStr with
  | Some d =>
      let day := padStart 2 zeroDigit (pretty (utcDate d)) in
      let month := padStart 2 zeroDigit (pretty (utcMonth d + 1)%nat) in
      let year := pretty (utcFullYear d) in
      day +:+ "/" +:+ month +:+ "/" +:+ year
  | None => "NaN/NaN/NaN"
  end.

Definition requestBody (txn : Obj) : InvoiceBody :=
  let price := mathAbs (prop txn "originalAmount") in
  let date := formatDate (prop txn "processedDate") in
  {| developer_email := developerEmail creator;
     api_key := apiKey creator;
     date := date;
     type := 320;
     transaction_id := prop txn "uniqueId";
     customer_name := prop txn "description";
     forceItemsIntoNonItemsDocument := 1;
     show_items_including_vat := 1;
     item := [ {| details := "עמלת סוכן"; price := price; amount := 1;
                  vat_type := "INC" |} ];
     payment := [ {| payment_type := 4; payment_sum := price;
                     payment_date := date |} ];
     price_total := price |}.

Definition createInvoiceForTransaction (txn : Obj)
    : Completion InvoiceResponse :=
  match fetch (baseUrl creator +:+ "/api/createDoc") (requestBody txn) with
  | Throw e => Throw e
  | Normal response =>
      if negb (ok response) then
        Throw ("Failed to create invoice for txn "
               +:+ toString (if truthy (prop txn "uniqueId")
                             then prop txn "uniqueId" else prop txn "hash"))
      else json response
  end.

(** The invoicing service the orchestrator talks to. *)
Definition service : InvoiceService :=
  {| createDoc := createInvoiceForTransaction |}.

End Requests.

End InvoiceCreator.

(** ** Reading the sheet back: [getTransactionsForMonth] *)

Module SheetTransactions.

Section Reading.
(** The engine's [Date] and [number], and what the code asks of them. *)
Variable Date : Type.
Variable Number : Type.
(** [parse(s, "dd/MM/yyyy", new Date())] of date-fns. *)
Variable parse : string -> Date.
(** [isNaN(date.getTime())]. *)
Variable invalid : Date -> bool.
Variable getFullYear : Date -> Z.
Variable getMonth : Date -> Z.
Variable parseFloat : string -> Number.
Variable isNaN : Number -> bool.

Record SheetTransaction := {
  date : Date;
  amount : Number;
  description : string;
  category : string;
  account : string;
  memo : string
}.

(** A row of the sheet: [row.get(header)] is the cell under the header. *)
Definition Row := gmap string string.

(** [row.get(header) || fallback]. *)
Definition getOr (row : Row) (header fallback : string) : string :=
  match row !! header with
  | Some cell => if String.eqb cell "" then fallback else cell
  | None => fallback
  end.

(** Body of the loop over the rows. *)
Definition readRow (year month : Z) (row : Row)
    (transactions : list SheetTransaction)
    : Eff unit (list SheetTransaction) :=
  match row !! "date" with
  | None => ret transactions
  | Some dateStr =>
      if String.eqb dateStr "" then ret transactions
      else
        let date := parse dateStr in
        if invalid date then ret transactions
        else if negb (Z.eqb (getFullYear date) year)
                || negb (Z.eqb (getMonth date + 1) month)
        then ret transactions
        else
          let amount := parseFloat (getOr row "amount" "0") in
          if isNaN amount then ret transactions
          else
            ret (transactions
                 ++ [ {| date := date; amount := amount;
                         description := getOr row "description" "";
                         category := getOr row "category" "";
                         account := getOr row "account" "";
                         memo := getOr row "memo" "" |} ])
  end.

Variable config : Config.
Variable sheet : GoogleSheetsStorage.Spreadsheet.
(** [sheet.getRows()] settled. *)
Variable getRows : Completion (list Row).

Definition getTransactionsForMonth (year month : Z)
    : Eff unit (list SheetTransaction) :=
  lift (GoogleSheetsStorage.getDoc sheet) ;;;
  (if GoogleSheetsStorage.sheetsByTitle sheet
        (GoogleSheetsStorage.worksheetName config)
   then ret tt
   else throw ("Sheet " +:+ GoogleSheetsStorage.worksheetName config
               +:+ " not found")) ;;;
  lift (GoogleSheetsStorage.loadHeaderRow sheet) ;;;
  rows <~ lift getRows ;;
  forOf rows (readRow year month) [].

(** The transaction a row stands for, when it is dated in the month asked
    for and its amount is a number. *)
Definition transactionOf (year month : Z) (row : Row)
    : option SheetTransaction :=
  match row !! "date" with
  | None => None
  | Some dateStr =>
      let date := parse dateStr in
      let amount := parseFloat (getOr row "amount" "0") in
      if negb (String.eqb dateStr "") && negb (invalid date)
         && Z.eqb (getFullYear date) year && Z.eqb (getMonth date + 1) month
         && negb (isNaN amount)
      then Some {| date := date; amount := amount;
                   description := getOr row "description" "";
                   category := getOr row "category" "";
                   account := getOr row "account" "";
                   memo := getOr row "memo" "" |}
      else None
  end.

End Reading.

End SheetTransactions.

(** ** The Google Sheets backend as the orchestrator sees it *)

(** One [saveTransactions] call of the backend on a sheet: the statuses it
    passes to [onProgress], in order, and how the call settles. *)
Definition GoogleSheetsBackend (config : Config)
    (sheet : GoogleSheetsStorage.Spreadsheet) : TransactionStorage :=
  {| constructorName := "GoogleSheetsStorage";
     canSave := GoogleSheetsStorage.canSave config;
     saveTransactions := fun txns =>
       let call :=
         GoogleSheetsStorage.saveTransactions config sheet txns
           GoogleSheetsStorage.emptyTrace in
       {| progress := GoogleSheetsStorage.statuses (snd call);
          settled := match fst call with
                     | Normal stats => Resolved stats
                     | Throw e => Rejected e
                     end |} |}.

(** ** Further sample inputs *)

Module Examples.

(** A world whose heap holds one row: a commission of an insurance
    vendor. *)
Definition oneCommission : World :=
  withHeap [Samples.purchase "2024-01-02" 100 "מגדל"] emptyWorld.

(** A backend that is not configured. *)
Definition unconfigured : TransactionStorage :=
  {| constructorName := "YNABStorage"; canSave := false;
     saveTransactions := fun _ =>
       {| progress := []; settled := Rejected "not configured" |} |}.

(** A sheet without a column of hashes. *)
Definition sheetWithoutHash : GoogleSheetsStorage.Spreadsheet :=
  {| GoogleSheetsStorage.getDoc := Normal tt;
     GoogleSheetsStorage.sheetsByTitle := fun _ => true;
     GoogleSheetsStorage.loadHeaderRow := Normal tt;
     GoogleSheetsStorage.headerValues := ["date"; "amount"];
     GoogleSheetsStorage.getCellsInRange := fun _ _ => Normal (Some []);
     GoogleSheetsStorage.addRows := fun _ => Normal tt |}.

(** A document without the worksheet. *)
Definition withoutWorksheet : GoogleSheetsStorage.Spreadsheet :=
  {| GoogleSheetsStorage.getDoc := Normal tt;
     GoogleSheetsStorage.sheetsByTitle := fun _ => false;
     GoogleSheetsStorage.loadHeaderRow := Normal tt;
     GoogleSheetsStorage.headerValues := ["date"; "hash"];
     GoogleSheetsStorage.getCellsInRange := fun _ _ => Normal (Some []);
     GoogleSheetsStorage.addRows := fun _ => Normal tt |}.

(** A worksheet whose header row cannot be loaded. *)
Definition withoutHeaderRow : GoogleSheetsStorage.Spreadsheet :=
  {| GoogleSheetsStorage.getDoc := Normal tt;
     GoogleSheetsStorage.sheetsByTitle := fun _ => true;
     GoogleSheetsStorage.loadHeaderRow := Throw "quota exceeded";
     GoogleSheetsStorage.headerValues := [];
     GoogleSheetsStorage.getCellsInRange := fun _ _ => Normal (Some []);
     GoogleSheetsStorage.addRows := fun _ => Normal tt |}.

(** The fifth of January 2024, whatever is asked. *)
Definition fifthOfJanuary (_ : Value) : option InvoiceCreator.UTCDate :=
  Some {| InvoiceCreator.utcFullYear := 2024; InvoiceCreator.utcMonth := 0;
          InvoiceCreator.utcDate := 5 |}.

Definition invoiceConfig : InvoiceCreator.InvoiceConfig :=
  {| InvoiceCreator.baseUrl := "https://invoices.example";
     InvoiceCreator.developerEmail := "dev@example.com";
     InvoiceCreator.apiKey := "key" |}.

(** Two rows of a sheet, dated in January and in February 2024. *)
Definition twoMonths : list SheetTransactions.Row :=
  [ <["date" := "05/01/2024"]> (<["amount" := "-12.5"]> ∅);
    <["date" := "07/02/2024"]> (<["amount" := "30"]> ∅) ].

(** Dates and numbers kept as the strings they were read from, for the two
    rows above. *)
Definition monthOf (date : string) : Z :=
  if String.eqb date "05/01/2024" then 0 else 1.

End Examples.

(** ** Monthly insights: bot/insights.ts *)

Module Insights.

(** The engine's numbers as far as the code uses them.  Nothing is assumed
    of the operations; what a statement needs of them is among its
    hypotheses. *)
Class JsNumber := {
  num : Type;
  numZero : num;                      (* 0 *)
  numHundred : num;                   (* 100 *)
  numAdd : num -> num -> num;         (* a + b *)
  numSub : num -> num -> num;         (* a - b *)
  numMul : num -> num -> num;         (* a * b *)
  numDiv : num -> num -> num;         (* a / b *)
  numAbs : num -> num;                (* Math.abs(a) *)
  numLt : num -> num -> bool;         (* a < b *)
  numLe : num -> num -> bool;         (* a <= b *)
  numTruthy : num -> bool;            (* a as a condition *)
  ofInteger : Z -> num;               (* an integer as a number *)
  (** [a.toLocaleString("en-IL", { minimumFractionDigits: 2,
      maximumFractionDigits: 2 })] *)
  toLocaleString : num -> string;
  toFixed1 : num -> string            (* a.toFixed(1) *)
}.

(** The line feed. *)
Definition newline : string := String (Ascii.ascii_of_nat 10) "".

(** [new Date()]: the local fields the code reads. *)
Record Today := {
  nowFullYear : Z;    (* getFullYear() *)
  nowMonth : Z;       (* getMonth(), from 0 *)
  nowDate : Z         (* getDate() *)
}.

Section Insights.
Context `{JsNumber} {Date : Type}.

Local Abbreviation SheetTransaction :=
  (SheetTransactions.SheetTransaction Date num).

Record CategoryBreakdown := {
  category : string;
  amount : num;
  percentage : num
}.

Record MonthlyInsights := {
  year : Z;
  month : Z;
  monthName : string;
  totalExpenses : num;
  totalIncome : num;
  balance : num;
  transactionCount : nat;
  daysInMonth : Z;
  daysSoFar : Z;
  dailyAverage : num;
  categoryBreakdown : list CategoryBreakdown
}.

(** [categoryTotals]: the own properties of the object, in the order of
    their creation.  An object literal also inherits the properties of
    [Object.prototype] ("constructor", "toString", "__proto__", ...): for a
    category of such a name the engine reads the inherited value, which is
    not modelled; the statements below exclude these names. *)
Definition Totals : Type := list (string * num).

Definition objectPrototypeNames : list string :=
  [ "constructor"; "__defineGetter__"; "__defineSetter__"; "hasOwnProperty";
    "__lookupGetter__"; "__lookupSetter__"; "isPrototypeOf";
    "propertyIsEnumerable"; "toString"; "valueOf"; "__proto__";
    "toLocaleString" ].

(** [totals[key]]. *)
Fixpoint getTotal (totals : Totals) (key : string) : option num :=
  match totals with
  | [] => None
  | (k, v) :: rest => if String.eqb k key then Some v else getTotal rest key
  end.

(** [totals[key] = v]: an existing property keeps its place, a new one
    comes last. *)
Fixpoint setTotal (totals : Totals) (key : string) (v : num) : Totals :=
  match totals with
  | [] => [(key, v)]
  | (k, x) :: rest =>
      if String.eqb k key then (k, v) :: rest
      else (k, x) :: setTotal rest key v
  end.

(** [v || 0]. *)
Definition orZero (v : option num) : num :=
  match v with
  | Some x => if numTruthy x then x else numZero
  | None => numZero
  end.

(** [tx.category || "Uncategorized"]. *)
Definition categoryOf (tx : SheetTransaction) : string :=
  if String.eqb (SheetTransactions.category _ _ tx) ""
  then "Uncategorized"
  else SheetTransactions.category _ _ tx.

(** [tx.amount < 0]. *)
Definition isExpense (tx : SheetTransaction) : bool :=
  numLt (SheetTransactions.amount _ _ tx) numZero.

(** The variables of the loop: [totalExpenses], [totalIncome] and
    [categoryTotals]. *)
Record Sums := {
  expenses : num;
  income : num;
  categoryTotals : Totals
}.

(** Body of the loop over the transactions. *)
Definition addTransaction (sums : Sums) (tx : SheetTransaction) : Sums :=
  if isExpense tx then
    let spent := numAbs (SheetTransactions.amount _ _ tx) in
    let category := categoryOf tx in
    {| expenses := numAdd (expenses sums) spent;
       income := income sums;
       categoryTotals :=
         setTotal (categoryTotals sums) category
           (numAdd (orZero (getTotal (categoryTotals sums) category))
                   spent) |}
  else
    {| expenses := expenses sums;
       income := numAdd (income sums) (SheetTransactions.amount _ _ tx);
       categoryTotals := categoryTotals sums |}.

(** The value of a decimal digit. *)
Definition digit (c : Ascii.ascii) : option N :=
  let n := Ascii.N_of_ascii c in
  if (48 <=? n)%N && (n <=? 57)%N then Some (n - 48)%N else None.

Fixpoint decimal (s : string) (value : N) : option N :=
  match s with
  | EmptyString => Some value
  | String c rest =>
      match digit c with
      | Some d => decimal rest (10 * value + d)%N
      | None => None
      end
  end.

(** The array index a property key denotes, if any: a decimal numeral
    without a leading zero below 2^32 - 1. *)
Definition arrayIndex (key : string) : option N :=
  match key with
  | EmptyString => None
  | String c rest =>
      if (Ascii.N_of_ascii c =? 48)%N && negb (String.eqb rest "") then None
      else
        match decimal key 0 with
        | Some n => if (n <? 4294967295)%N then Some n else None
        | None => None
        end
  end.

Fixpoint insertByIndex (e : N * (string * num))
    (sorted : list (N * (string * num))) : list (N * (string * num)) :=
  match sorted with
  | [] => [e]
  | e' :: rest =>
      if (fst e <? fst e')%N then e :: e' :: rest
      else e' :: insertByIndex e rest
  end.

(** [Object.entries(totals)]: the keys that are array indices come first,
    in ascending order, the others follow in the order of their
    creation. *)
Definition entries (totals : Totals) : Totals :=
  map snd
    (foldr insertByIndex []
       (omap (fun e => match arrayIndex (fst e) with
                       | Some n => Some (n, e)
                       | None => None
                       end) totals))
  ++ List.filter (fun e => match arrayIndex (fst e) with
                           | Some _ => false
                           | None => true
                           end) totals.

(** The comparison function handed to [sort]: [b.amount - a.amount]. *)
Definition compareFn (a b : CategoryBreakdown) : num :=
  numSub (amount b) (amount a).

(** [x] put into a sorted array: before the first element the comparison
    function places after it. *)
Fixpoint insertSorted (x : CategoryBreakdown)
    (sorted : list CategoryBreakdown) : list CategoryBreakdown :=
  match sorted with
  | [] => [x]
  | y :: rest =>
      if numLt numZero (compareFn y x) then x :: y :: rest
      else y :: insertSorted x rest
  end.

(** [xs.sort(compareFn)].  The engine's sort is stable; for a comparison
    function that is consistent on the elements every stable sort yields
    this result.  (For an inconsistent one the order is the engine's
    own.) *)
Definition sort (xs : list CategoryBreakdown) : list CategoryBreakdown :=
  fold_left (fun sorted x => insertSorted x sorted) xs [].

(** [new Date()] as [calculateMonthlyInsights] reads it. *)
Variable now : Today.
(** [getDaysInMonth(new Date(year, monthIndex))] of date-fns. *)
Variable getDaysInMonth : Z -> Z -> Z.
(** [format(new Date(year, monthIndex), "MMMM yyyy")] of date-fns. *)
Variable format : Z -> Z -> string.

Definition calculateMonthlyInsights (transactions : list SheetTransaction)
    (year month : Z) : MonthlyInsights :=
  let isCurrentMonth :=
    Z.eqb (nowFullYear now) year && Z.eqb (nowMonth now + 1) month in
  let daysSoFar :=
    if isCurrentMonth then nowDate now
    else getDaysInMonth year (month - 1) in
  let daysInMonth := getDaysInMonth year (month - 1) in
  let sums :=
    fold_left addTransaction transactions
      {| expenses := numZero; income := numZero; categoryTotals := [] |} in
  let totalExpenses := expenses sums in
  let totalIncome := income sums in
  let categoryBreakdown :=
    sort
      (map (fun e =>
              {| category := fst e;
                 amount := snd e;
                 percentage :=
                   if numLt numZero totalExpenses
                   then numMul (numDiv (snd e) totalExpenses) numHundred
                   else numZero |})
           (entries (categoryTotals sums))) in
  let dailyAverage :=
    if Z.ltb 0 daysSoFar then numDiv totalExpenses (ofInteger daysSoFar)
    else numZero in
  {| year := year;
     month := month;
     monthName := format year (month - 1);
     totalExpenses := totalExpenses;
     totalIncome := totalIncome;
     balance := numSub totalIncome totalExpenses;
     transactionCount := length transactions;
     daysInMonth := daysInMonth;
     daysSoFar := daysSoFar;
     dailyAverage := dailyAverage;
     categoryBreakdown := categoryBreakdown |}.

(** [formatCurrency]. *)
Definition formatCurrency (amount : num) : string := toLocaleString amount.

(** The options of [formatInsightsMessage]; [None] for a property that is
    [undefined]. *)
Record Options := {
  showCategories : option bool;
  maxCategories : option Z;
  showDailyAverage : option bool
}.

(** [xs.slice(0, end)] for an integer [end]. *)
Definition slice0 {A} (xs : list A) (stop : Z) : list A :=
  if Z.ltb stop 0
  then take (Z.to_nat (Z.of_nat (length xs) + stop)) xs
  else take (Z.to_nat stop) xs.

(** The array [lines] of [formatInsightsMessage] before it is joined. *)
Definition insightLines (insights : MonthlyInsights)
    (options : option Options) : list string :=
  let showCategories :=
    default true (options ≫= showCategories) in
  let maxCategories :=
    default 5 (options ≫= maxCategories) in
  let showDailyAverage :=
    default true (options ≫= showDailyAverage) in
  let balanceSign :=
    if numLe numZero (balance insights) then "+" else "" in
  [ "<b>Monthly Insights - " +:+ monthName insights +:+ "</b>";
    "";
    "Expenses: <b>" +:+ formatCurrency (totalExpenses insights)
    +:+ "</b> ILS";
    "Income: <b>" +:+ formatCurrency (totalIncome insights) +:+ "</b> ILS";
    "Balance: <b>" +:+ balanceSign +:+ formatCurrency (balance insights)
    +:+ "</b> ILS" ]
  ++ (if showDailyAverage then
        [ "";
          "Daily avg: <b>" +:+ formatCurrency (dailyAverage insights)
          +:+ "</b> ILS/day (" +:+ pretty (daysSoFar insights) +:+ " days)" ]
      else [])
  ++ (if showCategories
         && (0 <? length (categoryBreakdown insights))%nat then
        [ ""; "<b>Top Categories</b>" ]
        ++ map (fun cat =>
                  "  " +:+ category cat +:+ ": "
                  +:+ formatCurrency (amount cat) +:+ " ILS ("
                  +:+ toFixed1 (percentage cat) +:+ "%)")
               (slice0 (categoryBreakdown insights) maxCategories)
      else []).

Definition formatInsightsMessage (insights : MonthlyInsights)
    (options : option Options) : string :=
  String.concat newline (insightLines insights options).

End Insights.

(** [config.options.notifications.insights]. *)
Record InsightsConfig := {
  enabled : bool;
  configShowCategories : option bool;
  configMaxCategories : option Z;
  configShowDailyAverage : option bool
}.

Section Sending.
Context `{JsNumber} {Date : Type}.
(** What [getTransactionsForMonth] asks of its collaborators. *)
Variable parse : string -> Date.
Variable invalid : Date -> bool.
Variable getFullYear : Date -> Z.
Variable getMonth : Date -> Z.
Variable parseFloat : string -> num.
Variable isNaN : num -> bool.
Variable config : Config.
Variable sheet : GoogleSheetsStorage.Spreadsheet.
Variable getRows : Completion (list SheetTransactions.Row).
(** [config.options.notifications?.insights]. *)
Variable insightsConfig : option InsightsConfig.
(** [new Date()] as [sendMonthlyInsights] reads it, and as
    [calculateMonthlyInsights] reads it afterwards. *)
Variable now : Today.
Variable later : Today.
Variable getDaysInMonth : Z -> Z -> Z.
Variable format : Z -> Z -> string.

Definition sendMonthlyInsights : Js unit :=
  match insightsConfig with
  | None => ret tt
  | Some insightsConfig =>
      if negb (enabled insightsConfig) then ret tt
      else
        match googleSheets config with
        | None =>
            sendError
              "Monthly insights require Google Sheets storage to be configured"
              (Literal "sendMonthlyInsights")
        | Some _ =>
            tryCatch
              (let year := nowFullYear now in
               let month := nowMonth now + 1 in
               transactions <~
                 lift
                   (fst (SheetTransactions.getTransactionsForMonth Date num
                           parse invalid getFullYear getMonth parseFloat
                           isNaN config sheet getRows year month tt)) ;;
               if (length transactions =? 0)%nat then ret tt
               else
                 let insights :=
                   calculateMonthlyInsights later getDaysInMonth format
                     transactions year month in
                 let message :=
                   formatInsightsMessage insights
                     (Some
                        {| showCategories :=
                             configShowCategories insightsConfig;
                           maxCategories :=
                             configMaxCategories insightsConfig;
                           showDailyAverage :=
                             configShowDailyAverage insightsConfig |}) in
                 send (Plain message) ;;; ret tt)
              (fun e => sendError e (Literal "sendMonthlyInsights"))
        end
  end.

End Sending.

End Insights.

(** ** Sample inputs for the insights *)

Module InsightExamples.

(** Exact fractions, kept reduced, as a sample of the numbers the engine
    computes with. *)
Definition fractions : Insights.JsNumber :=
  {| Insights.num := QArith_base.Q;
     Insights.numZero := QArith_base.inject_Z 0;
     Insights.numHundred := QArith_base.inject_Z 100;
     Insights.numAdd := fun a b => Qreduction.Qred (QArith_base.Qplus a b);
     Insights.numSub := fun a b => Qreduction.Qred (QArith_base.Qminus a b);
     Insights.numMul := fun a b => Qreduction.Qred (QArith_base.Qmult a b);
     Insights.numDiv := fun a b => Qreduction.Qred (QArith_base.Qdiv a b);
     Insights.numAbs := fun a =>
       if QArith_base.Qle_bool (QArith_base.inject_Z 0) a then a
       else Qreduction.Qred (QArith_base.Qopp a);
     Insights.numLt := fun a b => negb (QArith_base.Qle_bool b a);
     Insights.numLe := QArith_base.Qle_bool;
     Insights.numTruthy := fun a =>
       negb (QArith_base.Qeq_bool a (QArith_base.inject_Z 0));
     Insights.ofInteger := QArith_base.inject_Z;
     Insights.toLocaleString := fun a =>
       pretty (QArith_base.Qnum a) +:+ "/"
       +:+ pretty (Zpos (QArith_base.Qden a));
     Insights.toFixed1 := fun a =>
       pretty (QArith_base.Qnum a) +:+ "/"
       +:+ pretty (Zpos (QArith_base.Qden a)) |}.

(** A transaction of the sheet, its date kept as the string read. *)
Definition transaction (amount : Z) (category : string)
    : SheetTransactions.SheetTransaction string QArith_base.Q :=
  {| SheetTransactions.date := "05/01/2024";
     SheetTransactions.amount := QArith_base.inject_Z amount;
     SheetTransactions.description := "";
     SheetTransactions.category := category;
     SheetTransactions.account := "main";
     SheetTransactions.memo := "" |}.

(** The transactions of two tests of insights.test.ts, with a salary and
    an expense without category added to the first. *)
Definition groceriesAndGas
    : list (SheetTransactions.SheetTransaction string QArith_base.Q) :=
  [ transaction (-100) "Food"; transaction (-50) "Food";
    transaction (-50) "Transportation"; transaction 5000 "Income";
    transaction (-20) "" ].

Definition smallLargeMedium
    : list (SheetTransactions.SheetTransaction string QArith_base.Q) :=
  [ transaction (-50) "Small"; transaction (-200) "Large";
    transaction (-100) "Medium" ].

(** The first of March 2024, and a calendar for the first months of
    2024. *)
Definition firstOfMarch : Insights.Today :=
  {| Insights.nowFullYear := 2024; Insights.nowMonth := 2;
     Insights.nowDate := 1 |}.

Definition daysOf (year monthIndex : Z) : Z :=
  if Z.eqb monthIndex 1 then 29 else 31.

Definition nameOf (year monthIndex : Z) : string :=
  (if Z.eqb monthIndex 0 then "January " else "Later ") +:+ pretty year.

End InsightExamples.
(** * Properties *)

(** ** The monad *)

Lemma forOf_app {W A S} (xs ys : list A) (body : A -> S -> Eff W S) acc w :
  forOf (xs ++ ys) body acc w
  = match forOf xs body acc w with
    | (Normal acc', w') => forOf ys body acc' w'
    | (Throw e, w') => (Throw e, w')
    end.
Proof.
  revert acc w. induction xs as [|x xs IH]; intros acc w; simpl.
  - reflexivity.
  - unfold bind. destruct (body x acc w) as [[acc'|e] w']; auto.
Qed.

Lemma forOf_map {W A B S} (f : A -> B) (xs : list A)
    (body : B -> S -> Eff W S) acc w :
  forOf (map f xs) body acc w = forOf xs (fun x => body (f x)) acc w.
Proof.
  revert acc w. induction xs as [|x xs IH]; intros acc w; simpl; auto.
  unfold bind. destruct (body (f x) acc w) as [[acc'|e] w']; auto.
Qed.

Lemma forOf_ext {W A S} (xs : list A) (f g : A -> S -> Eff W S) acc w :
  (forall x a v, f x a v = g x a v) ->
  forOf xs f acc w = forOf xs g acc w.
Proof.
  intros E. revert acc w. induction xs as [|x xs IH]; intros acc w; simpl; auto.
  unfold bind. rewrite E. destruct (g x acc w) as [[acc'|e] w']; auto.
Qed.

Lemma forOf_flat_map {W A B S} (f : A -> list B) (xs : list A)
    (body : B -> S -> Eff W S) acc w :
  forOf (flat_map f xs) body acc w
  = forOf xs (fun x => forOf (f x) body) acc w.
Proof.
  revert acc w. induction xs as [|x xs IH]; intros acc w; simpl; auto.
  rewrite forOf_app. unfold bind.
  destruct (forOf (f x) body acc w) as [[acc'|e] w']; auto.
Qed.

(** ** The normaliser *)

Section NormalizerFacts.
Context `{Deriver}.

Lemma normalized_nil w : normalized [] w = w.
Proof.
  destruct w. unfold normalized. simpl. by rewrite !app_nil_r.
Qed.

Lemma pushItem_spec it rows w :
  pushItem it rows w
  = (Normal (rows ++ pushed [it] w), normalized [it] w).
Proof.
  destruct it as [[c a] tx].
  unfold pushItem, pushTx, tryCatch, buildRow, bind, lift, pushed,
    normalized, rowOf, failureOf, keysOf. simpl.
  destruct (transactionHash tx c a) as [h|e]; simpl.
  - destruct (transactionUniqueId tx c a) as [u|e]; simpl.
    + unfold alloc, ret. simpl. by rewrite !app_nil_r.
    + unfold sendError, ret. simpl. by rewrite !app_nil_r.
  - unfold sendError, ret. simpl. by rewrite !app_nil_r.
Qed.

Lemma normalized_cons it items w :
  normalized (it :: items) w = normalized items (normalized [it] w).
Proof.
  unfold normalized. simpl.
  destruct (rowOf it), (failureOf it); simpl;
    rewrite <- ?app_assoc, ?app_nil_r; reflexivity.
Qed.

Lemma pushed_cons it items w :
  pushed (it :: items) w = pushed [it] w ++ pushed items (normalized [it] w).
Proof.
  unfold pushed, normalized. simpl.
  destruct (rowOf it); simpl.
  - rewrite length_app. simpl.
    by replace (length (heap w) + 1)%nat with (S (length (heap w))) by lia.
  - by rewrite app_nil_r.
Qed.

Lemma pushItems_spec items rows w :
  forOf items pushItem rows w
  = (Normal (rows ++ pushed items w), normalized items w).
Proof.
  revert rows w. induction items as [|it items IH]; intros rows w.
  - simpl. unfold ret, pushed. simpl.
    by rewrite app_nil_r, normalized_nil.
  - simpl. unfold bind. rewrite pushItem_spec, IH.
    rewrite (normalized_cons it items), (pushed_cons it items).
    by rewrite app_assoc.
Qed.

Lemma pushResult_items r rows w :
  pushResult r rows w = forOf (itemsOfResult r) pushItem rows w.
Proof.
  unfold pushResult, itemsOfResult.
  destruct (success (result r)); [|reflexivity].
  rewrite forOf_flat_map. apply forOf_ext. intros acct a v.
  unfold pushAccount, itemsOfAccount. by rewrite forOf_map.
Qed.

(** The normaliser goes through the raw transactions of the successful
    results one by one. *)
Lemma resultsToTransactions_spec results w :
  resultsToTransactions results w
  = (Normal (pushed (rawItems results) w), normalized (rawItems results) w).
Proof.
  unfold resultsToTransactions, rawItems.
  rewrite <- (app_nil_l (pushed _ w)), <- pushItems_spec, forOf_flat_map.
  apply forOf_ext. intros. apply pushResult_items.
Qed.

Lemma deref_app_seq (h extra : list Obj) :
  deref (h ++ extra) (seq (length h) (length extra)) = extra.
Proof.
  unfold deref. revert h. induction extra as [|o extra IH]; intros h; simpl.
  - reflexivity.
  - rewrite lookup_app_r by lia. rewrite Nat.sub_diag. simpl. f_equal.
    specialize (IH (h ++ [o])).
    rewrite length_app in IH. simpl in IH.
    replace (length h + 1)%nat with (S (length h)) in IH by lia.
    by rewrite <- app_assoc in IH.
Qed.

(** The rows the returned references denote. *)
Lemma deref_pushed items w :
  deref (heap (normalized items w)) (pushed items w) = omap rowOf items.
Proof. unfold normalized, pushed. simpl. apply deref_app_seq. Qed.

End NormalizerFacts.

Section NormalizerClaims.
Context `{Deriver}.

Lemma makeRow_augments c a tx h u :
  transactionHash tx c a = Normal h ->
  transactionUniqueId tx c a = Normal u ->
  augments (c, a, tx) (makeRow tx a c h u).
Proof.
  intros Hh Hu. exists h, u. unfold makeRow.
  repeat split; auto; try (by simplify_map_eq).
  intros k ? ? ? ?. by rewrite !lookup_insert_ne.
Qed.

Lemma rowOf_augments it row : rowOf it = Some row -> augments it row.
Proof.
  destruct it as [[c a] tx]. unfold rowOf, keysOf.
  destruct (transactionHash tx c a) as [h|] eqn:Hh; [|discriminate].
  destruct (transactionUniqueId tx c a) as [u|] eqn:Hu; [|discriminate].
  intros [= <-]. by apply makeRow_augments.
Qed.

Lemma rowOf_derivable it : is_Some (rowOf it) <-> derivable it = true.
Proof.
  destruct it as [[c a] tx]. unfold rowOf, derivable.
  destruct (keysOf (c, a, tx)) as [[h u]|e]; split; intros Hx;
    try done; by inversion Hx.
Qed.

Lemma rows_of_derivable items :
  Forall2 augments (List.filter derivable items) (omap rowOf items).
Proof.
  induction items as [|it items IH]; simpl; [constructor|].
  destruct (rowOf it) as [row|] eqn:Hrow.
  - assert (derivable it = true) as -> by (apply rowOf_derivable; eauto).
    constructor; [by apply rowOf_augments | exact IH].
  - destruct (derivable it) eqn:Hd; [|exact IH].
    apply rowOf_derivable in Hd. rewrite Hrow in Hd. by inversion Hd.
Qed.

Lemma canonicalRows_spec results w :
  canonicalRows results w = omap rowOf (rawItems results).
Proof.
  unfold canonicalRows. rewrite resultsToTransactions_spec.
  apply deref_pushed.
Qed.

Lemma diagnostics_spec results w :
  diagnostics results w = omap failureOf (rawItems results).
Proof.
  unfold diagnostics. rewrite resultsToTransactions_spec. simpl.
  by rewrite drop_app_length.
Qed.

Lemma failureOf_throw c a tx e :
  keysOf (c, a, tx) = Throw e ->
  failureOf (c, a, tx)
  = Some {| reported := e; context := FailedToProcess c a tx |}
  /\ rowOf (c, a, tx) = None.
Proof. intros E. unfold failureOf, rowOf. by rewrite E. Qed.

Lemma rawItems_successful results :
  rawItems (List.filter (fun r => success (result r)) results)
  = rawItems results.
Proof.
  induction results as [|r results IH]; simpl; [reflexivity|].
  destruct (success (result r)) eqn:Hs; simpl.
  - by rewrite IH.
  - rewrite IH. unfold itemsOfResult. by rewrite Hs.
Qed.

End NormalizerClaims.

(** ** Timelines *)

Lemma ClosedTimeline_mono bound bound' steps :
  ClosedTimeline bound steps -> (bound <= bound')%N ->
  ClosedTimeline bound' steps.
Proof.
  intros Hc Hle. destruct Hc; [constructor|].
  eapply closed_snoc; eauto. lia.
Qed.

Lemma OpenTimeline_mono bound bound' steps :
  OpenTimeline bound steps -> (bound <= bound')%N ->
  OpenTimeline bound' steps.
Proof.
  intros Ho Hle. destruct Ho. eapply open_snoc; eauto. lia.
Qed.

Lemma ClosedTimeline_closed bound steps :
  ClosedTimeline bound steps ->
  Forall (fun t => exists e, endTime t = Some e) steps.
Proof.
  induction 1; [constructor|].
  apply Forall_app. split; [assumption|]. repeat constructor. eauto.
Qed.

Lemma ClosedTimeline_successor bound steps :
  ClosedTimeline bound steps -> closedBeforeSuccessor steps.
Proof.
  induction 1 as [|bound earlier steps t e Hc IH Hs He Hse Heb].
  - intros i t t' Hi. by rewrite lookup_nil in Hi.
  - intros i u u' Hi Hsi.
    destruct (decide (S i < length steps)%nat) as [Hlt|Hge].
    + rewrite lookup_app_l in Hi by lia. rewrite lookup_app_l in Hsi by lia.
      eauto.
    + assert (S i = length steps) as Hlast.
      { apply lookup_lt_Some in Hsi. rewrite length_app in Hsi.
        simpl in Hsi. lia. }
      rewrite lookup_app_l in Hi by lia.
      rewrite lookup_app_r in Hsi by lia.
      rewrite Hlast, Nat.sub_diag in Hsi. simpl in Hsi.
      injection Hsi as <-.
      destruct Hc as [|b' earlier' steps' t0 e0 Hc' Hs0 He0 Hse0 Heb0].
      * by rewrite lookup_nil in Hi.
      * rewrite length_app in Hlast. simpl in Hlast.
        rewrite lookup_app_r in Hi by lia.
        replace (i - length steps')%nat with 0%nat in Hi by lia.
        simpl in Hi. injection Hi as <-.
        exists e0. repeat split; auto. lia.
Qed.

Lemma OpenTimeline_successor bound steps :
  OpenTimeline bound steps -> closedBeforeSuccessor steps.
Proof.
  intros Ho. destruct Ho as [bound earlier steps t Hc Hs He Hb].
  intros i u u' Hi Hsi.
  destruct (decide (S i < length steps)%nat) as [Hlt|Hge].
  - rewrite lookup_app_l in Hi by lia. rewrite lookup_app_l in Hsi by lia.
    eapply ClosedTimeline_successor; eauto.
  - assert (S i = length steps) as Hlast.
    { apply lookup_lt_Some in Hsi. rewrite length_app in Hsi.
      simpl in Hsi. lia. }
    rewrite lookup_app_l in Hi by lia.
    rewrite lookup_app_r in Hsi by lia.
    rewrite Hlast, Nat.sub_diag in Hsi. simpl in Hsi.
    injection Hsi as <-.
    destruct Hc as [|b' earlier' steps' t0 e0 Hc' Hs0 He0 Hse0 Heb0].
    + by rewrite lookup_nil in Hi.
    + rewrite length_app in Hlast. simpl in Hlast.
      rewrite lookup_app_r in Hi by lia.
      replace (i - length steps')%nat with 0%nat in Hi by lia.
      simpl in Hi. injection Hi as <-.
      exists e0. repeat split; auto. lia.
Qed.

Lemma OpenTimeline_onlyLastOpen bound steps :
  OpenTimeline bound steps -> onlyLastOpen steps.
Proof.
  intros Ho. destruct Ho as [bound earlier steps t Hc Hs He Hb].
  intros i u Hi Hopen. rewrite length_app. simpl.
  destruct (decide (i < length steps)%nat) as [Hlt|Hge].
  - rewrite lookup_app_l in Hi by lia.
    apply ClosedTimeline_closed in Hc.
    rewrite Forall_lookup in Hc. destruct (Hc _ _ Hi) as [e He'].
    congruence.
  - apply lookup_lt_Some in Hi. rewrite length_app in Hi. simpl in Hi. lia.
Qed.

Lemma ClosedTimeline_onlyLastOpen bound steps :
  ClosedTimeline bound steps -> onlyLastOpen steps.
Proof.
  intros Hc i u Hi Hopen. apply ClosedTimeline_closed in Hc.
  rewrite Forall_lookup in Hc. destruct (Hc _ _ Hi) as [e He']. congruence.
Qed.

(** ** The progress callback *)

Lemma alter_last {A} (f : A -> A) (init : list A) (x : A) :
  alter f (length (init ++ [x]) - 1)%nat (init ++ [x]) = init ++ [f x].
Proof.
  rewrite length_app. simpl.
  replace (length init + 1 - 1)%nat with (length init) by lia.
  induction init as [|y init IH]; simpl; [reflexivity|].
  f_equal. exact IH.
Qed.

Lemma endLast_nil w : endLast [] w = (Normal [], w).
Proof. reflexivity. Qed.

Lemma endLast_snoc init t w :
  endLast (init ++ [t]) w
  = (Normal (init ++ [close (clock (tick w)) t]), tick w).
Proof.
  unfold endLast.
  destruct (init ++ [t]) as [|x rest] eqn:E.
  - by destruct init.
  - rewrite <- E. unfold bind, now, ret. by rewrite alter_last.
Qed.

Lemma clock_tick w : (clock w <= clock (tick w))%N.
Proof. unfold tick. simpl. lia. Qed.

(** Closing the open step of a timeline. *)
Lemma endLast_open steps w :
  OpenTimeline (clock w) steps ->
  exists steps',
    endLast steps w = (Normal steps', tick w)
    /\ ClosedTimeline (clock (tick w)) steps'
    /\ map name steps' = map name steps.
Proof.
  intros Ho. inversion Ho as [bound earlier init t Hc Hs He Hb Eb Es].
  subst. eexists. split; [apply endLast_snoc|]. split.
  - pose proof (clock_tick w) as Hle.
    apply (closed_snoc _ earlier init (close (clock (tick w)) t)
             (clock (tick w))); simpl in *; auto; lia.
  - by rewrite !map_app.
Qed.

(** What [endLast] does in either case. *)
Lemma endLast_spec steps w :
  steps = [] \/ OpenTimeline (clock w) steps ->
  exists steps' w',
    endLast steps w = (Normal steps', w')
    /\ ClosedTimeline (clock w') steps'
    /\ map name steps' = map name steps
    /\ (w' = w \/ w' = tick w).
Proof.
  intros [->|Ho].
  - exists [], w. repeat split; auto. constructor.
  - destruct (endLast_open _ _ Ho) as (steps' & E & Hc & Hn).
    exists steps', (tick w). repeat split; auto.
Qed.

Lemma onProgress_spec backend message step steps w :
  steps = [] \/ OpenTimeline (clock w) steps ->
  exists steps' w1,
    onProgress backend message step steps w
    = (Normal steps',
       posted (Edited message (SavingText backend steps')) (tick w1))
    /\ (w1 = w \/ w1 = tick w)
    /\ OpenTimeline (clock (tick w1)) steps'
    /\ map name steps' = map name steps ++ [step].
Proof.
  intros Hs.
  destruct (endLast_spec _ _ Hs) as (steps1 & w1 & E & Hc & Hn & Hw).
  exists (steps1 ++ [{| name := step; startTime := clock (tick w1);
                        endTime := None |}]), w1.
  split; [|split; [exact Hw|split]].
  - unfold onProgress, bind. rewrite E.
    unfold newTimer, bind, now, ret, editMessage, posted. reflexivity.
  - apply (open_snoc _ (clock w1)); simpl; auto; lia.
  - rewrite map_app, Hn. reflexivity.
Qed.

(** ** How the world grows *)

Lemma grewBy_refl i w : grewBy i w w.
Proof.
  repeat split; try reflexivity; exists []; rewrite ?app_nil_r; auto.
Qed.

Lemma grewBy_trans i w1 w2 w3 :
  grewBy i w1 w2 -> grewBy i w2 w3 -> grewBy i w1 w3.
Proof.
  intros (Hh1 & Hc1 & [c1 Hch1] & [r1 Hr1] & [v1 [Hv1 Hf1]])
         (Hh2 & Hc2 & [c2 Hch2] & [r2 Hr2] & [v2 [Hv2 Hf2]]).
  repeat split.
  - congruence.
  - lia.
  - exists (c1 ++ c2). by rewrite Hch2, Hch1, app_assoc.
  - exists (r1 ++ r2). by rewrite Hr2, Hr1, app_assoc.
  - exists (v1 ++ v2). split; [by rewrite Hv2, Hv1, app_assoc|].
    by apply Forall_app.
Qed.

Lemma grewBy_tick i w : grewBy i w (tick w).
Proof.
  repeat split; simpl; try lia; exists []; rewrite ?app_nil_r; auto.
Qed.

Lemma grewBy_posted i ev w : grewBy i w (posted ev w).
Proof.
  repeat split; simpl; try lia; eauto; exists []; rewrite ?app_nil_r; auto.
Qed.

Lemma grewBy_complained i r w : grewBy i w (complained r w).
Proof.
  repeat split; simpl; try lia; eauto; exists []; rewrite ?app_nil_r; auto.
Qed.

Lemma grewBy_invoked i arg w : grewBy i w (invoked i arg w).
Proof.
  repeat split; simpl; try lia; try (exists []; by rewrite ?app_nil_r).
  exists [(i, arg)]. split; [reflexivity|]. by repeat constructor.
Qed.

Lemma grewBy_maybe_tick i w w1 : w1 = w \/ w1 = tick w -> grewBy i w w1.
Proof. intros [->| ->]; [apply grewBy_refl | apply grewBy_tick]. Qed.

Section TaskFacts.
Variable allTransactions : list loc.
Variable h : list Obj.
Variable base : nat.

Local Abbreviation tInv := (taskInv allTransactions h base).
Local Abbreviation invsOf := (invocationsOf base).
Local Abbreviation left := (remaining allTransactions h).
Local Abbreviation run := (runOf allTransactions h).

Lemma invocationsOf_grew i j w w' :
  grewBy j w w' -> j <> i -> (base <= length (invocations w))%nat ->
  invsOf i w' = invsOf i w.
Proof.
  intros (_ & _ & _ & _ & [more [Hv Hf]]) Hne Hb.
  unfold invocationsOf.
  rewrite Hv, drop_app_le by lia. rewrite List.filter_app.
  assert (List.filter (fun p => fst p =? i)%nat more = []) as ->.
  { clear Hv. induction more as [|p more IH]; simpl; [reflexivity|].
    inversion Hf as [|? ? Hp Hf']; subst.
    destruct (Nat.eqb_spec (fst p) i) as [E|_]; [congruence|]. auto. }
  by rewrite app_nil_r.
Qed.

Lemma invocationsOf_same i w w' :
  invocations w' = invocations w -> invsOf i w' = invsOf i w.
Proof. unfold invocationsOf. by intros ->. Qed.

Lemma open_or_nil_grew j w w' (steps : list Timer) :
  grewBy j w w' ->
  steps = [] \/ OpenTimeline (clock w) steps ->
  steps = [] \/ OpenTimeline (clock w') steps.
Proof.
  intros (_ & Hc & _) [->|Ho]; [by left|right].
  eapply OpenTimeline_mono; eauto.
Qed.

(** A task's invariant survives the turns of the other tasks. *)
Lemma taskInv_grew j w w' t :
  grewBy j w w' -> j <> index t -> (base <= length (invocations w))%nat ->
  tInv w t -> tInv w' t.
Proof.
  intros Hg Hne Hb Hinv.
  pose proof (invocationsOf_grew (index t) j w w' Hg Hne Hb) as Hinvs.
  pose proof Hg as (_ & Hc & [cm Hch] & [rm Hr] & _).
  assert (forall m, announced m t w -> announced m t w') as Hann.
  { intros m Hm. unfold announced in *. rewrite Hch.
    apply in_or_app. by left. }
  unfold taskInv in *.
  destruct (phase t) as [|m|m s todo o|].
  - by rewrite Hinvs.
  - destruct Hinv as (Hs & Hi & Ha). rewrite Hinvs. auto.
  - destruct Hinv as (Ha & Ho & Hn & Hs & Hi). rewrite Hinvs.
    repeat split; auto. eapply open_or_nil_grew; eauto.
  - destruct Hinv as (Hn & Hi & Hrep). rewrite Hinvs.
    repeat split; auto.
    destruct (settled (run (storage t))) as [stats|e].
    + destruct Hrep as (Hc' & m & d & Ha & Hin). split.
      * eapply ClosedTimeline_mono; eauto.
      * exists m, d. split; [auto|]. rewrite Hch. apply in_or_app. by left.
    + destruct Hrep as (Hs & Hin). split.
      * eapply open_or_nil_grew; eauto.
      * rewrite Hr. apply in_or_app. by left.
Qed.

Lemma invocationsOf_invoked i w :
  (base <= length (invocations w))%nat ->
  invsOf i (invoked i allTransactions w)
  = invsOf i w ++ [(i, allTransactions)].
Proof.
  intros Hb. unfold invocationsOf. simpl.
  rewrite drop_app_le by lia. rewrite List.filter_app. simpl.
  by rewrite Nat.eqb_refl.
Qed.

(** One turn of a task: it never throws, it keeps the invariant, it
    leaves the other tasks' part of the world alone and it brings the task
    one turn closer to completion. *)
Lemma taskStep_spec t w :
  heap w = h -> (base <= length (invocations w))%nat -> tInv w t ->
  exists t' w',
    taskStep allTransactions t w = (Normal t', w')
    /\ index t' = index t /\ storage t' = storage t
    /\ grewBy (index t) w w'
    /\ tInv w' t'
    /\ left t' = pred (left t).
Proof.
  intros Hh Hb Hinv. destruct t as [i s ph st].
  unfold taskInv, remaining, announced in *. simpl in *.
  destruct ph as [|m|m start todo o|].
  - (* Created *)
    destruct Hinv as [-> Hi].
    exists {| index := i; storage := s;
              phase := Announced (length (chat w)); steps := [] |},
           (posted (Sent (length (chat w))
                      (SavingText (constructorName s) [])) w).
    split; [reflexivity|]. simpl.
    repeat split; auto; try apply (grewBy_posted i).
    apply in_or_app. right. by left.
  - (* Announced *)
    destruct Hinv as (-> & Hi & Ha). subst h.
    exists {| index := i; storage := s;
              phase :=
                Saving m (clock (tick w))
                  (progress (runOf allTransactions (heap w) s))
                  (settled (runOf allTransactions (heap w) s));
              steps := [] |},
           (invoked i allTransactions (tick w)).
    split; [reflexivity|].
    assert (grewBy i w (invoked i allTransactions (tick w))) as Hg.
    { eapply grewBy_trans; [apply grewBy_tick|apply grewBy_invoked]. }
    simpl. repeat split; auto; try apply Hg.
    rewrite invocationsOf_invoked by exact Hb.
    unfold invocationsOf in *. simpl. by rewrite Hi.
  - destruct Hinv as (Ha & -> & Hn & Hs & Hi).
    destruct todo as [|step todo].
    + (* the call settles *)
      rewrite app_nil_r in Hn.
      destruct (settled (run s)) as [stats|e] eqn:Hset.
      * destruct (endLast_spec st (tick w)) as (st' & w1 & E & Hc & Hn' & Hw).
        { eapply open_or_nil_grew; [apply (grewBy_tick i)|exact Hs]. }
        exists {| index := i; storage := s; phase := Finished;
                  steps := st' |},
          (posted (Edited m (StatsText stats (clock (tick w) - start)%N st'))
                  w1).
        split.
        { unfold taskStep, segment, tryCatch, bind. simpl.
          unfold ret, now. rewrite E. reflexivity. }
        assert (grewBy i w w1) as Hg.
        { eapply grewBy_trans; [apply grewBy_tick|].
          by apply grewBy_maybe_tick. }
        assert (grewBy i w (posted (Edited m (StatsText stats
                  (clock (tick w) - start)%N st')) w1)) as Hg'.
        { eapply grewBy_trans; [exact Hg|apply grewBy_posted]. }
        simpl. repeat split; auto; try apply Hg'.
        { congruence. }
        { unfold invocationsOf in *. simpl.
          destruct Hw as [->| ->]; exact Hi. }
        { rewrite Hset. split; [exact Hc|].
          exists m, (clock (tick w) - start)%N. simpl. split.
          - apply in_or_app. left. destruct Hw as [->| ->]; exact Ha.
          - apply in_or_app. right. by left. }
      * exists {| index := i; storage := s; phase := Finished;
                  steps := st |},
          (complained {| reported := e;
                         context := SaveTransactionsOf (constructorName s) |}
                      w).
        split.
        { unfold taskStep, segment, tryCatch, bind. simpl. reflexivity. }
        simpl. repeat split; auto; try apply (grewBy_complained i).
        rewrite Hset. split; [exact Hs|].
        apply in_or_app. right. by left.
    + (* a progress call *)
      destruct (onProgress_spec (constructorName s) m step st w Hs)
        as (st' & w1 & E & Hw & Ho & Hn').
      eexists _, _. split.
      { unfold taskStep, segment, tryCatch, bind. simpl.
        rewrite E. reflexivity. }
      assert (grewBy i w
                (posted (Edited m (SavingText (constructorName s) st'))
                        (tick w1))) as Hg.
      { eapply grewBy_trans; [apply (grewBy_maybe_tick i _ _ Hw)|].
        eapply grewBy_trans; [apply grewBy_tick|apply grewBy_posted]. }
      simpl. repeat split; auto; try apply Hg.
      { apply in_or_app. left. destruct Hw as [->| ->]; exact Ha. }
      { rewrite Hn', <- app_assoc. exact Hn. }
      { unfold invocationsOf in *. simpl.
        destruct Hw as [->| ->]; exact Hi. }
  - (* Finished *)
    exists {| index := i; storage := s; phase := Finished; steps := st |}, w.
    split; [reflexivity|]. simpl.
    repeat split; try apply Hinv; try apply (grewBy_refl i).
Qed.

End TaskFacts.

(** ** The pool under a schedule *)

Section PoolFacts.
Variable allTransactions : list loc.
Variable h : list Obj.
Variable base : nat.
Variable storages : list TransactionStorage.

Local Abbreviation pInv := (poolInv allTransactions h base storages).
Local Abbreviation left := (remaining allTransactions h).

Local Abbreviation advanced := (advanced allTransactions h).

Lemma resume_spec i pool w :
  pInv w pool ->
  exists pool' w',
    resume allTransactions i pool w = (Normal pool', w')
    /\ pInv w' pool'
    /\ advanced (fun j => if decide (j = i) then 1 else 0)%nat pool pool'.
Proof.
  intros (Hh & Hb & Hlen & Hall). unfold resume.
  destruct (pool !! i) as [t|] eqn:Hi.
  - destruct (Hall i t Hi) as (Hidx & Hst & Hinv).
    destruct (taskStep_spec allTransactions h base t w Hh Hb Hinv)
      as (t' & w' & E & Hidx' & Hst' & Hg & Hinv' & Hleft).
    exists (<[i := t']> pool), w'. unfold bind. rewrite E.
    split; [reflexivity|].
    pose proof Hg as (Hh' & _ & _ & _ & [more [Hv _]]).
    split; [split; [congruence|split; [|split]]|].
    + rewrite Hv, length_app. lia.
    + by rewrite length_insert.
    + intros j u Hj.
      destruct (decide (j = i)) as [->|Hne].
      * rewrite list_lookup_insert_eq in Hj
          by (by apply lookup_lt_Some in Hi).
        injection Hj as <-. repeat split; [congruence|congruence|exact Hinv'].
      * rewrite list_lookup_insert_ne in Hj by congruence.
        destruct (Hall j u Hj) as (Hju & Hsu & Hinvu).
        repeat split; auto.
        eapply taskInv_grew; eauto. congruence.
    + intros j u Hj.
      destruct (decide (j = i)) as [->|Hne].
      * exists t'. rewrite list_lookup_insert_eq
          by (by apply lookup_lt_Some in Hi).
        split; [reflexivity|]. rewrite Hi in Hj. injection Hj as <-. lia.
      * exists u. rewrite list_lookup_insert_ne by congruence.
        split; [exact Hj|lia].
  - exists pool, w. split; [reflexivity|].
    split; [exact (conj Hh (conj Hb (conj Hlen Hall)))|].
    intros j u Hj. exists u. split; [exact Hj|].
    destruct (decide (j = i)) as [->|]; [congruence|lia].
Qed.

Lemma schedule_spec schedule pool w :
  pInv w pool ->
  exists pool' w',
    forOf schedule (resume allTransactions) pool w = (Normal pool', w')
    /\ pInv w' pool'
    /\ advanced (count_occ Nat.eq_dec schedule) pool pool'.
Proof.
  revert pool w. induction schedule as [|i schedule IH]; intros pool w Hinv.
  - exists pool, w. split; [reflexivity|]. split; [exact Hinv|].
    intros j t Hj. exists t. split; [exact Hj|simpl; lia].
  - destruct (resume_spec i pool w Hinv) as (pool1 & w1 & E & Hinv1 & Hadv1).
    destruct (IH pool1 w1 Hinv1) as (pool2 & w2 & E2 & Hinv2 & Hadv2).
    exists pool2, w2. simpl. unfold bind. rewrite E.
    split; [exact E2|]. split; [exact Hinv2|].
    intros j t Hj.
    destruct (Hadv1 j t Hj) as (t1 & Hj1 & Hl1).
    destruct (Hadv2 j t1 Hj1) as (t2 & Hj2 & Hl2).
    exists t2. split; [exact Hj2|]. rewrite Hl2, Hl1. simpl.
    destruct (Nat.eq_dec i j) as [->|Hne].
    + destruct (decide (j = j)); [lia|congruence].
    + destruct (decide (j = i)); [congruence|lia].
Qed.

End PoolFacts.

Lemma tasks_lookup storages i s :
  storages !! i = Some s ->
  tasks storages !! i
  = Some {| index := i; storage := s; phase := Created; steps := [] |}.
Proof.
  intros Hs. unfold tasks. by rewrite list_lookup_imap, Hs.
Qed.

Lemma tasks_lookup_inv storages i t :
  tasks storages !! i = Some t ->
  exists s, storages !! i = Some s
            /\ t = {| index := i; storage := s; phase := Created;
                      steps := [] |}.
Proof.
  unfold tasks. rewrite list_lookup_imap.
  destruct (storages !! i) as [s|]; simpl; [|discriminate].
  intros [= <-]. eauto.
Qed.

(** The tasks as created satisfy the invariant in the world they start
    from. *)
Lemma tasks_poolInv allTransactions storages w :
  poolInv allTransactions (heap w) (length (invocations w)) storages w
    (tasks storages).
Proof.
  repeat split; auto.
  - unfold tasks. by rewrite length_imap.
  - by destruct (tasks_lookup_inv _ _ _ H) as (s & Hs & ->).
  - by destruct (tasks_lookup_inv _ _ _ H) as (s & Hs & ->).
  - destruct (tasks_lookup_inv _ _ _ H) as (s & Hs & ->).
    unfold taskInv, invocationsOf. simpl. by rewrite drop_all.
Qed.

Lemma remaining_zero allTransactions h t :
  remaining allTransactions h t = 0%nat -> finished t = true.
Proof. unfold remaining, finished. by destruct (phase t). Qed.

Lemma fair_lookup allTransactions h storages schedule i s :
  fair allTransactions h storages schedule = true ->
  storages !! i = Some s ->
  (turnsNeeded allTransactions h s <= count_occ Nat.eq_dec schedule i)%nat.
Proof.
  unfold fair. rewrite forallb_forall. intros Hf Hs.
  specialize (Hf (i, s)). simpl in Hf. apply Nat.leb_le, Hf.
  apply list_elem_of_In, list_elem_of_lookup. exists i.
  by rewrite list_lookup_imap, Hs.
Qed.

(** What the run of the tasks under a schedule amounts to. *)
Lemma fanOut_spec allTransactions storages schedule w :
  exists pool w',
    fanOut allTransactions storages schedule w = (Normal pool, w')
    /\ poolInv allTransactions (heap w) (length (invocations w)) storages
         w' pool
    /\ (fair allTransactions (heap w) storages schedule = true ->
        forallb finished pool = true).
Proof.
  destruct (schedule_spec allTransactions (heap w) (length (invocations w))
              storages schedule (tasks storages) w
              (tasks_poolInv allTransactions storages w))
    as (pool & w' & E & Hinv & Hadv).
  exists pool, w'. split; [exact E|]. split; [exact Hinv|].
  intros Hfair. apply forallb_forall. intros t Ht.
  apply list_elem_of_In, list_elem_of_lookup in Ht. destruct Ht as [i Hi].
  destruct Hinv as (_ & _ & Hlen & Hall).
  destruct (Hall i t Hi) as (_ & Hs & _).
  destruct (Hadv i _ (tasks_lookup _ _ _ Hs)) as (t' & Hi' & Hleft).
  rewrite Hi in Hi'. injection Hi' as <-.
  pose proof (fair_lookup _ _ _ _ _ _ Hfair Hs) as Hturns.
  eapply remaining_zero. rewrite Hleft.
  unfold remaining, turnsNeeded in *. simpl. lia.
Qed.

(** ** The invoice step *)

Lemma invoiceFrame_refl touched h : invoiceFrame touched h h.
Proof. split; [reflexivity|]. intros l o Hl. exists o. auto. Qed.

Lemma invoiceFrame_trans t1 t2 h1 h2 h3 :
  invoiceFrame t1 h1 h2 -> invoiceFrame t2 h2 h3 ->
  invoiceFrame (t1 ++ t2) h1 h3.
Proof.
  intros [L1 F1] [L2 F2]. split; [congruence|].
  intros l o Hl. destruct (F1 l o Hl) as (o1 & Hl1 & Hu1 & Hk1).
  destruct (F2 l o1 Hl1) as (o2 & Hl2 & Hu2 & Hk2).
  exists o2. split; [exact Hl2|]. split.
  - intros Hn. rewrite Hu2, Hu1; auto; intros Hin; apply Hn, in_or_app; auto.
  - intros k Hp Hd. rewrite Hk2, Hk1; auto.
Qed.

Lemma invoiceFrame_weaken t1 t2 h h' :
  (forall l, In l t1 -> In l t2) ->
  invoiceFrame t1 h h' -> invoiceFrame t2 h h'.
Proof.
  intros Hsub [L F]. split; [exact L|].
  intros l o Hl. destruct (F l o Hl) as (o' & Hl' & Hu & Hk).
  exists o'. repeat split; auto.
Qed.

Lemma withHeap_same w : withHeap (heap w) w = w.
Proof. by destruct w. Qed.

Lemma setProp_spec l k v w :
  k = "pdf_link" \/ k = "doc_number" ->
  exists h',
    setProp l k v w = (Normal tt, withHeap h' w)
    /\ invoiceFrame [l] (heap w) h'.
Proof.
  intros Hk. unfold setProp.
  destruct (heap w !! l) as [o|] eqn:Hl.
  - exists (<[l := <[k := v]> o]> (heap w)). split; [reflexivity|].
    split; [by rewrite length_insert|].
    intros l' o' Hl'. destruct (decide (l' = l)) as [->|Hne].
    + exists (<[k := v]> o). rewrite list_lookup_insert_eq
        by (by apply lookup_lt_Some in Hl).
      rewrite Hl in Hl'. injection Hl' as <-.
      split; [reflexivity|]. split.
      * intros Hn. exfalso. apply Hn. by left.
      * intros k' Hp Hd. rewrite lookup_insert_ne; [reflexivity|].
        destruct Hk; congruence.
    + exists o'. rewrite list_lookup_insert_ne by congruence. auto.
  - exists (heap w). split; [reflexivity|]. apply invoiceFrame_refl.
Qed.

Section InvoiceFacts.
Context `{InvoiceService}.

Lemma attachInvoice_spec l w :
  exists h',
    attachInvoice l tt w = (Normal tt, withHeap h' w)
    /\ invoiceFrame [l] (heap w) h'.
Proof.
  unfold attachInvoice, tryCatch, bind, createInvoiceForTransaction.
  destruct (heap w !! l) as [o|] eqn:Hl.
  - destruct (createDoc o) as [res|e].
    + destruct (truthy (pdf_link res)).
      * destruct (setProp_spec l "pdf_link" (pdf_link res) w) as (h1 & E1 & F1);
          [by left|]. rewrite E1.
        destruct (truthy (doc_number res)).
        -- destruct (setProp_spec l "doc_number" (doc_number res)
                       (withHeap h1 w)) as (h2 & E2 & F2); [by right|].
           rewrite E2. exists h2. split; [reflexivity|].
           eapply invoiceFrame_weaken;
             [|exact (invoiceFrame_trans _ _ _ _ _ F1 F2)].
           simpl. tauto.
        -- exists h1. split; [reflexivity|]. exact F1.
      * unfold ret.
        destruct (truthy (doc_number res)).
        -- destruct (setProp_spec l "doc_number" (doc_number res) w)
             as (h2 & E2 & F2); [by right|].
           rewrite E2. eauto.
        -- exists (heap w). rewrite withHeap_same.
           split; [reflexivity|]. apply invoiceFrame_refl.
    + exists (heap w). rewrite withHeap_same.
      split; [reflexivity|]. apply invoiceFrame_refl.
  - exists (heap w). rewrite withHeap_same.
    split; [reflexivity|]. apply invoiceFrame_refl.
Qed.

Lemma attachAll_spec txns w :
  exists h',
    forOf txns attachInvoice tt w = (Normal tt, withHeap h' w)
    /\ invoiceFrame txns (heap w) h'.
Proof.
  revert w. induction txns as [|l txns IH]; intros w.
  - exists (heap w). rewrite withHeap_same.
    split; [reflexivity|]. apply invoiceFrame_refl.
  - destruct (attachInvoice_spec l w) as (h1 & E1 & F1).
    destruct (IH (withHeap h1 w)) as (h2 & E2 & F2).
    exists h2. simpl. unfold bind. rewrite E1, E2.
    split; [reflexivity|].
    exact (invoiceFrame_trans [l] txns _ _ _ F1 F2).
Qed.

(** [createInvoicesForTransactions] never throws, returns the array it was
    given and only sets [pdf_link] and [doc_number] on its rows. *)
Lemma createInvoicesForTransactions_spec txns w :
  exists h',
    createInvoicesForTransactions txns w = (Normal txns, withHeap h' w)
    /\ invoiceFrame txns (heap w) h'.
Proof.
  destruct (attachAll_spec txns w) as (h' & E & F).
  exists h'. unfold createInvoicesForTransactions, bind. rewrite E.
  split; [reflexivity|exact F].
Qed.

Lemma createInvoices_spec config allTransactions w :
  exists h',
    createInvoices config allTransactions w = (Normal tt, withHeap h' w)
    /\ invoiceFrame (insuranceRows (heap w) allTransactions) (heap w) h'
    /\ (invoice config = false -> h' = heap w).
Proof.
  unfold createInvoices.
  destruct (invoice config).
  - unfold bind, filterInsuranceVendorTransactions.
    fold (insuranceRows (heap w) allTransactions).
    destruct (0 <? length (insuranceRows (heap w) allTransactions))%nat.
    + destruct (createInvoicesForTransactions_spec
                  (insuranceRows (heap w) allTransactions) w)
        as (h' & E & F).
      exists h'. unfold tryCatch, bind. rewrite E.
      split; [reflexivity|]. split; [exact F|discriminate].
    + exists (heap w). rewrite withHeap_same.
      split; [reflexivity|]. split; [apply invoiceFrame_refl|auto].
  - exists (heap w). rewrite withHeap_same.
    split; [reflexivity|]. split; [apply invoiceFrame_refl|auto].
Qed.

End InvoiceFacts.

(** ** The join *)

Lemma parallel_spec allTransactions storages schedule w :
  exists pool w',
    fanOut allTransactions storages schedule w = (Normal pool, w')
    /\ parallel allTransactions storages schedule w
       = (Normal (if forallb finished pool then Some tt else None), w')
    /\ poolInv allTransactions (heap w) (length (invocations w)) storages
         w' pool
    /\ (fair allTransactions (heap w) storages schedule = true ->
        forallb finished pool = true).
Proof.
  destruct (fanOut_spec allTransactions storages schedule w)
    as (pool & w' & E & Hinv & Hfair).
  exists pool, w'. split; [exact E|].
  split; [|split; assumption].
  unfold parallel, bind. rewrite E. reflexivity.
Qed.

Lemma pool_lookup allTransactions h base storages w pool i s :
  poolInv allTransactions h base storages w pool ->
  storages !! i = Some s ->
  exists t,
    pool !! i = Some t /\ index t = i /\ storage t = s
    /\ taskInv allTransactions h base w t.
Proof.
  intros (_ & _ & Hlen & Hall) Hs.
  destruct (lookup_lt_is_Some_2 pool i) as [t Ht].
  { rewrite Hlen. by apply lookup_lt_Some in Hs. }
  destruct (Hall i t Ht) as (Hi & Hst & Hinv).
  exists t. repeat split; auto. congruence.
Qed.

Lemma finished_lookup pool i t :
  forallb finished pool = true -> pool !! i = Some t -> phase t = Finished.
Proof.
  rewrite forallb_forall. intros Hall Ht.
  assert (finished t = true) as Hf.
  { apply Hall, list_elem_of_In, list_elem_of_lookup. eauto. }
  unfold finished in Hf. by destruct (phase t).
Qed.

(** Once every task has completed, every backend was invoked once, with the
    array the tasks close over, and has its terminal report. *)
Lemma finished_reported allTransactions h base storages w pool i s :
  poolInv allTransactions h base storages w pool ->
  forallb finished pool = true ->
  storages !! i = Some s ->
  reportedIn allTransactions h w s
  /\ invocationsOf base i w = [(i, allTransactions)].
Proof.
  intros Hinv Hfin Hs.
  destruct (pool_lookup _ _ _ _ _ _ _ _ Hinv Hs) as (t & Ht & Hi & Hst & Htask).
  pose proof (finished_lookup _ _ _ Hfin Ht) as Hph.
  unfold taskInv in Htask. rewrite Hph in Htask. subst i s.
  destruct Htask as (Hn & Hinvs & Hrep). split; [|exact Hinvs].
  unfold reportedIn.
  destruct (settled (runOf allTransactions h (storage t))) as [stats|e].
  - destruct Hrep as (_ & m & d & Ha & Hin). exists m, d, (steps t). auto.
  - apply Hrep.
Qed.

(** ** The orchestrator *)

Section RunFacts.
Context `{Deriver} `{InvoiceService}.
Variable config : Config.
Variable storages : list TransactionStorage.

Lemma saveResults_no_storages results schedule w :
  storages = [] ->
  saveResults config storages results schedule w
  = (Normal (Some tt), posted (Sent (length (chat w)) NoStoragesFound) w).
Proof. intros E. unfold saveResults. rewrite E. reflexivity. Qed.

Lemma saveResults_no_transactions results schedule w :
  storages <> [] -> canonical results w = [] ->
  saveResults config storages results schedule w
  = (Normal (Some tt),
     posted (Sent (length (chat w)) NoTransactionsFound)
            (normalized (rawItems results) w)).
Proof.
  intros Hs Hc. unfold saveResults.
  destruct storages as [|s rest]; [congruence|]. simpl.
  unfold bind. rewrite resultsToTransactions_spec.
  unfold canonical in Hc. rewrite Hc. reflexivity.
Qed.

Lemma saveResults_fan_out results schedule w :
  storages <> [] -> canonical results w <> [] ->
  saveResults config storages results schedule w
  = parallel (canonical results w) storages schedule
      (fanOutStart config results w).
Proof.
  intros Hs Hc. unfold saveResults.
  destruct storages as [|s rest] eqn:Es; [congruence|]. simpl.
  unfold bind at 1. rewrite resultsToTransactions_spec.
  fold (canonical results w).
  destruct (canonical results w) as [|l ls] eqn:Ec; [congruence|]. simpl.
  unfold bind at 1. unfold fanOutStart. rewrite Ec.
  destruct (createInvoices_spec config (l :: ls)
              (normalized (rawItems results) w)) as (h' & E & _).
  rewrite E. reflexivity.
Qed.

(** The heap in which the fan-out starts differs from the one the
    normaliser left only by what the invoice step may set. *)
Lemma fanOutStart_spec results w :
  exists h',
    fanOutStart config results w
    = withHeap h' (normalized (rawItems results) w)
    /\ invoiceFrame
         (insuranceRows (heap (normalized (rawItems results) w))
            (canonical results w))
         (heap (normalized (rawItems results) w)) h'
    /\ (invoice config = false ->
        h' = heap (normalized (rawItems results) w)).
Proof.
  destruct (createInvoices_spec config (canonical results w)
              (normalized (rawItems results) w)) as (h' & E & F & Hoff).
  exists h'. unfold fanOutStart. rewrite E. auto.
Qed.

(** [saveResults] never throws. *)
Lemma saveResults_normal results schedule w :
  exists r w', saveResults config storages results schedule w
               = (Normal r, w').
Proof.
  destruct (decide (storages = [])) as [Hs|Hs].
  - rewrite saveResults_no_storages by exact Hs. eauto.
  - destruct (decide (canonical results w = [])) as [Hc|Hc].
    + rewrite saveResults_no_transactions by assumption. eauto.
    + rewrite saveResults_fan_out by assumption.
      destruct (parallel_spec (canonical results w) storages schedule
                  (fanOutStart config results w))
        as (pool & w' & _ & E & _).
      rewrite E. eauto.
Qed.

End RunFacts.

(** ** The Google Sheets backend *)

Module GoogleSheetsFacts.
Import GoogleSheetsStorage.

Section Facts.
Variable config : Config.
Variable sheet : Spreadsheet.

Lemma isNew_spec existingHashes tx stats :
  isNew config existingHashes tx stats
  = (selected config existingHashes tx,
     if counted config existingHashes tx
     then countExisting stats else stats).
Proof.
  unfold isNew, selected, counted, keyPresent.
  destruct (moneyman config),
           (has existingHashes (prop tx "uniqueId")),
           (has existingHashes (prop tx "hash")); reflexivity.
Qed.

(** The filter keeps the selected transactions and counts the others
    that are counted, one each. *)
Lemma filterCounting_spec existingHashes txns stats :
  exists stats',
    filterCounting (isNew config existingHashes) txns stats
    = (List.filter (selected config existingHashes) txns, stats')
    /\ existing stats'
       = existing stats
         + Z.of_nat
             (length (List.filter (counted config existingHashes) txns))
    /\ statsName stats' = statsName stats
    /\ table stats' = table stats.
Proof.
  revert stats. induction txns as [|tx txns IH]; intros stats.
  - exists stats. simpl. repeat split; auto. lia.
  - simpl. rewrite isNew_spec.
    destruct (IH (if counted config existingHashes tx
                  then countExisting stats else stats))
      as (stats' & E & Hex & Hn & Ht).
    rewrite E. exists stats'. split; [reflexivity|].
    destruct (counted config existingHashes tx); simpl in *;
      repeat split; auto; lia.
Qed.

Lemma selected_new existingHashes tx :
  selected config existingHashes tx = true ->
  has existingHashes (prop tx "hash") = false
  /\ (moneyman config = true ->
      has existingHashes (prop tx "uniqueId") = false)
  /\ prop tx "status" <> Pending.
Proof.
  unfold selected, keyPresent. intros Hsel.
  apply andb_true_iff in Hsel. destruct Hsel as [Hkey Hst].
  apply negb_true_iff, orb_false_iff in Hkey. destruct Hkey as [Hu Hh].
  apply negb_true_iff, bool_decide_eq_false in Hst.
  repeat split; auto.
  intros Hm. rewrite Hm in Hu. exact Hu.
Qed.

Lemma counted_not_selected existingHashes tx :
  counted config existingHashes tx = true ->
  keyPresent config existingHashes tx = true
  /\ selected config existingHashes tx = false.
Proof.
  unfold counted, selected, keyPresent.
  destruct (moneyman config),
           (has existingHashes (prop tx "uniqueId")),
           (has existingHashes (prop tx "hash")); simpl; auto;
    discriminate.
Qed.

Lemma keyPresent_not_selected existingHashes tx :
  keyPresent config existingHashes tx = true ->
  selected config existingHashes tx = false.
Proof. unfold selected. by intros ->. Qed.

Lemma loadHashes_appended t :
  appended (snd (loadHashes sheet t)) = appended t.
Proof.
  unfold loadHashes.
  destruct (indexOf "hash" (headerValues sheet)) as [column|];
    [|reflexivity].
  unfold bind, assert, requestCells, onProgress, ret, throw.
  destruct (column <? 26)%nat; simpl; [|reflexivity].
  destruct (getCellsInRange sheet (reads t) _) as [[value|]|reason];
    reflexivity.
Qed.

(** The recovery after a failed save returns statistics, adds no row
    and leaves the count of existing transactions alone. *)
Lemma recover_spec newTxns stats t :
  exists stats' t',
    recover sheet newTxns stats t = (Normal stats', t')
    /\ appended t' = appended t
    /\ existing stats' = existing stats.
Proof.
  unfold recover, tryCatch, bind.
  pose proof (loadHashes_appended t) as Happ.
  destruct (loadHashes sheet t) as [[hashes|e] t1]; simpl in *.
  - eexists _, _. split; [reflexivity|]. auto.
  - eexists _, _. split; [reflexivity|]. auto.
Qed.

End Facts.

End GoogleSheetsFacts.

(** What the part of [saveTransactions] that follows the loading of the
    hashes does with the set it is given. *)
Lemma saveNew_spec
    (config : Config) (sheet : GoogleSheetsStorage.Spreadsheet)
    (existingHashes : gset string) (txns : list Obj)
    (t : GoogleSheetsStorage.Trace) :
  let newTxns :=
    List.filter (GoogleSheetsStorage.selected config existingHashes) txns in
  exists stats t',
    GoogleSheetsStorage.saveNew config sheet existingHashes txns t
    = (Normal stats, t')
    /\ GoogleSheetsStorage.appended t'
       = GoogleSheetsStorage.appended t
         ++ (if (0 <? length newTxns)%nat
             then [map (GoogleSheetsStorage.tableRow
                          (bool_decide
                             ("raw" ∈ GoogleSheetsStorage.headerValues sheet)))
                       newTxns]
             else [])
    /\ (forall tx,
          In tx newTxns ->
          In tx txns
          /\ GoogleSheetsStorage.has existingHashes (prop tx "hash") = false
          /\ (GoogleSheetsStorage.moneyman config = true ->
              GoogleSheetsStorage.has existingHashes (prop tx "uniqueId")
              = false)
          /\ prop tx "status" <> GoogleSheetsStorage.Pending)
    /\ (forall tx,
          GoogleSheetsStorage.keyPresent config existingHashes tx = true
          \/ prop tx "status" = GoogleSheetsStorage.Pending ->
          ~ In tx newTxns)
    /\ existing stats
       = Z.of_nat
           (length
              (List.filter
                 (GoogleSheetsStorage.counted config existingHashes) txns))
    /\ (forall tx,
          GoogleSheetsStorage.counted config existingHashes tx = true ->
          GoogleSheetsStorage.keyPresent config existingHashes tx = true).
Proof.
  intros newTxns.
  destruct (GoogleSheetsFacts.filterCounting_spec config existingHashes txns
              (GoogleSheetsStorage.createSaveStats "Google Sheets"
                 (GoogleSheetsStorage.worksheetName config)))
    as (stats1 & Efilter & Hex & _ & _).
  simpl in Hex.
  assert (forall tx,
            In tx newTxns ->
            In tx txns
            /\ GoogleSheetsStorage.has existingHashes (prop tx "hash") = false
            /\ (GoogleSheetsStorage.moneyman config = true ->
                GoogleSheetsStorage.has existingHashes (prop tx "uniqueId")
                = false)
            /\ prop tx "status" <> GoogleSheetsStorage.Pending) as Hnew.
  { intros tx Hin. apply filter_In in Hin. destruct Hin as [Hin Hsel].
    split; [exact Hin|]. by apply GoogleSheetsFacts.selected_new. }
  assert (forall tx,
            GoogleSheetsStorage.keyPresent config existingHashes tx = true
            \/ prop tx "status" = GoogleSheetsStorage.Pending ->
            ~ In tx newTxns) as Hnot.
  { intros tx Hwhy Hin. apply filter_In in Hin. destruct Hin as [_ Hsel].
    unfold GoogleSheetsStorage.selected in Hsel.
    apply andb_true_iff in Hsel. destruct Hsel as [Hkey Hst].
    destruct Hwhy as [Hp|Hp].
    - rewrite Hp in Hkey. discriminate.
    - apply negb_true_iff, bool_decide_eq_false in Hst. contradiction. }
  assert (forall tx,
            GoogleSheetsStorage.counted config existingHashes tx = true ->
            GoogleSheetsStorage.keyPresent config existingHashes tx = true)
    as Hcounted.
  { intros tx Hc. by apply GoogleSheetsFacts.counted_not_selected. }
  unfold GoogleSheetsStorage.saveNew. rewrite Efilter. fold newTxns.
  rewrite length_map.
  destruct (0 <? length newTxns)%nat eqn:Hlen.
  - unfold bind, GoogleSheetsStorage.requestAddRows,
      GoogleSheetsStorage.onProgress. simpl.
    destruct (GoogleSheetsStorage.addRows sheet _) as [[]|reason] eqn:Eadd.
    + destruct (negb (GoogleSheetsStorage.moneyman config));
        eexists _, _; (split; [reflexivity|]); simpl;
        repeat split; auto; apply Hnew; auto.
    + destruct (negb (GoogleSheetsStorage.moneyman config)); simpl;
        match goal with
        | |- context [GoogleSheetsStorage.recover ?s ?n ?st ?tr] =>
            destruct (GoogleSheetsFacts.recover_spec s n st tr)
              as (stats' & t' & E & Happ & Hex')
        end;
        rewrite E; exists stats', t'; (split; [reflexivity|]);
        rewrite Happ, Hex'; simpl; repeat split; auto; apply Hnew; auto.
  - exists stats1, t. split; [reflexivity|]. rewrite app_nil_r.
    repeat split; auto; apply Hnew; auto.
Qed.

(** ** The earlier revision *)

Section EarlierFacts.
Context `{Deriver} `{InvoiceService}.

Lemma earlier_pushItem_derivable it rows w :
  derivable it = true -> earlierPushItem it rows w = pushItem it rows w.
Proof.
  destruct it as [[c a] tx].
  unfold derivable, keysOf, earlierPushItem, pushItem, Earlier.pushTx, pushTx,
    tryCatch, buildRow, bind, lift.
  destruct (transactionHash tx c a) as [h|e]; [|discriminate].
  destruct (transactionUniqueId tx c a) as [u|e]; [|discriminate].
  reflexivity.
Qed.

Lemma earlier_pushItem_throws it e rows w :
  keysOf it = Throw e -> earlierPushItem it rows w = (Throw e, w).
Proof.
  destruct it as [[c a] tx].
  unfold keysOf, earlierPushItem, Earlier.pushTx, buildRow, bind, lift.
  destruct (transactionHash tx c a) as [h|e1]; [|by intros [= ->]].
  destruct (transactionUniqueId tx c a) as [u|e2]; [discriminate|].
  by intros [= ->].
Qed.

Lemma earlier_pushResult_items r rows w :
  Earlier.pushResult r rows w = forOf (itemsOfResult r) earlierPushItem rows w.
Proof.
  unfold Earlier.pushResult, itemsOfResult.
  destruct (success (result r)); [|reflexivity].
  rewrite forOf_flat_map. apply forOf_ext. intros acct a v.
  unfold Earlier.pushAccount, itemsOfAccount. by rewrite forOf_map.
Qed.

Lemma earlier_resultsToTransactions_items results w :
  Earlier.resultsToTransactions results w
  = forOf (rawItems results) earlierPushItem [] w.
Proof.
  unfold Earlier.resultsToTransactions, rawItems. rewrite forOf_flat_map.
  apply forOf_ext. intros. apply earlier_pushResult_items.
Qed.

Lemma earlier_pushItems_derivable items rows w :
  forallb derivable items = true ->
  forOf items earlierPushItem rows w = forOf items pushItem rows w.
Proof.
  revert rows w. induction items as [|it items IH]; intros rows w Hall;
    [reflexivity|].
  simpl in Hall. apply andb_true_iff in Hall. destruct Hall as [Hit Hall].
  simpl. unfold bind. rewrite earlier_pushItem_derivable by exact Hit.
  destruct (pushItem it rows w) as [[rows'|e] w']; auto.
Qed.

(** As long as every key can be derived the earlier normaliser does what
    the current one does. *)
Lemma earlier_resultsToTransactions_derivable results w :
  forallb derivable (rawItems results) = true ->
  Earlier.resultsToTransactions results w = resultsToTransactions results w.
Proof.
  intros Hall.
  rewrite earlier_resultsToTransactions_items, resultsToTransactions_spec.
  rewrite earlier_pushItems_derivable by exact Hall.
  by rewrite pushItems_spec.
Qed.

(** The earlier normaliser has no [try] around the derivation: the first
    transaction whose keys cannot be derived aborts the batch with the
    derivation's error, after the rows of the transactions before it were
    built. *)
Lemma earlier_resultsToTransactions_aborts results before after it e w :
  rawItems results = before ++ it :: after ->
  forallb derivable before = true ->
  keysOf it = Throw e ->
  Earlier.resultsToTransactions results w = (Throw e, normalized before w).
Proof.
  intros Hitems Hbefore Hthrow.
  rewrite earlier_resultsToTransactions_items, Hitems, forOf_app.
  rewrite earlier_pushItems_derivable by exact Hbefore.
  rewrite pushItems_spec. simpl. unfold bind.
  by rewrite (earlier_pushItem_throws _ _ _ _ Hthrow).
Qed.

(** And so does the earlier [saveResults]: it rejects. *)
Lemma earlier_saveResults_rejects storages results before after it e
    schedule w :
  storages <> [] ->
  rawItems results = before ++ it :: after ->
  forallb derivable before = true ->
  keysOf it = Throw e ->
  Earlier.saveResults storages results schedule w
  = (Throw e, normalized before w).
Proof.
  intros Hs Hitems Hbefore Hthrow. unfold Earlier.saveResults.
  destruct storages as [|s rest]; [congruence|]. simpl. unfold bind.
  by rewrite (earlier_resultsToTransactions_aborts _ _ _ _ _ _
                Hitems Hbefore Hthrow).
Qed.

End EarlierFacts.

(** In the earlier revision the five transactions of which one has no date
    make [saveResults] reject. *)
Lemma earlier_saveResults_rejects_undated :
  fst (@Earlier.saveResults sampleDeriver Samples.noService [Samples.echoing]
         Samples.fiveWithOneUndated [0; 0; 0; 0; 0]%nat emptyWorld)
  = Throw MalformedTransactionError.
Proof. vm_compute. reflexivity. Qed.

(** In the earlier revision only the insurance vendors' rows go on, and
    they get no further than the constructor of the invoice creator: of
    the two canonical rows the second alone passes the filter, and the run
    rejects before any backend is invoked. *)
Lemma earlier_saveResults_stops_at_the_invoice_creator :
  fst (@Earlier.resultsToTransactions sampleDeriver
         Samples.commissionAndCoffee Samples.ticking)
  = Normal [0; 1]%nat
  /\ fst (@Earlier.saveResults sampleDeriver Samples.issuing
            [Samples.echoing] Samples.commissionAndCoffee
            [0; 0; 0; 0; 0]%nat Samples.ticking)
     = Throw "TypeError"
  /\ invocations
       (snd (@Earlier.saveResults sampleDeriver Samples.issuing
               [Samples.echoing] Samples.commissionAndCoffee
               [0; 0; 0; 0; 0]%nat Samples.ticking))
     = [].
Proof. vm_compute. repeat split; reflexivity. Qed.

(** The current revision hands both rows to the backend. *)
Lemma saveResults_hands_every_row :
  invocations
    (snd (@saveResults sampleDeriver Samples.issuing Samples.withInvoices
            [Samples.echoing] Samples.commissionAndCoffee
            [0; 0; 0; 0; 0]%nat Samples.ticking))
  = [(0%nat, [0; 1]%nat)].
Proof. vm_compute. reflexivity. Qed.

(** * The claims about the normaliser *)

(** C2.  When deriving the hash or the unique id throws for one raw
    transaction, the normaliser still returns: the canonical output is made
    of the rows of the transactions before it followed by the rows of the
    transactions after it, so exactly that transaction is missing, and the
    error channel receives, in its place in the order of the input, exactly
    one report for it that carries the error and the raw payload.  The
    batch is never aborted. *)
Theorem malformed_transaction_dropped_and_reported `{Deriver}
    (results : list AccountScrapeResult) (before after : list Item)
    (companyId account : string) (tx : Obj) (e : Error) (w : World) :
  rawItems results = before ++ (companyId, account, tx) :: after ->
  keysOf (companyId, account, tx) = Throw e ->
  (exists allTransactions w',
     resultsToTransactions results w = (Normal allTransactions, w'))
  /\ canonicalRows results w = omap rowOf before ++ omap rowOf after
  /\ diagnostics results w
     = omap failureOf before
       ++ {| reported := e;
             context := FailedToProcess companyId account tx |}
       :: omap failureOf after.
Proof.
  intros Hitems Hthrow.
  destruct (failureOf_throw _ _ _ _ Hthrow) as [Hfail Hrow].
  split; [eexists _, _; apply resultsToTransactions_spec|].
  rewrite canonicalRows_spec, diagnostics_spec, Hitems, !omap_app.
  change (omap rowOf ((companyId, account, tx) :: after))
    with (match rowOf (companyId, account, tx) with
          | Some row => row :: omap rowOf after
          | None => omap rowOf after
          end).
  change (omap failureOf ((companyId, account, tx) :: after))
    with (match failureOf (companyId, account, tx) with
          | Some r => r :: omap failureOf after
          | None => omap failureOf after
          end).
  by rewrite Hfail, Hrow.
Qed.

(** Five raw transactions of which exactly one has no date: four canonical
    rows and one diagnostic. *)
Lemma malformed_transaction_dropped_and_reported_witness :
  let before :=
    [ ("hapoalim", "123", Samples.purchase "2024-01-01" 10 "coffee");
      ("hapoalim", "123", Samples.purchase "2024-01-02" 20 "bread") ] in
  let after :=
    [ ("hapoalim", "123", Samples.purchase "2024-01-04" 40 "books");
      ("hapoalim", "123", Samples.purchase "2024-01-05" 50 "rent") ] in
  let tx := Samples.undated 30 "fuel" in
  rawItems Samples.fiveWithOneUndated
  = before ++ ("hapoalim", "123", tx) :: after
  /\ @keysOf sampleDeriver ("hapoalim", "123", tx)
     = Throw MalformedTransactionError
  /\ length (@canonicalRows sampleDeriver Samples.fiveWithOneUndated
               emptyWorld) = 4%nat
  /\ length (@diagnostics sampleDeriver Samples.fiveWithOneUndated
               emptyWorld) = 1%nat
  /\ ((exists allTransactions w',
         @resultsToTransactions sampleDeriver Samples.fiveWithOneUndated
           emptyWorld = (Normal allTransactions, w'))
      /\ @canonicalRows sampleDeriver Samples.fiveWithOneUndated emptyWorld
         = omap (@rowOf sampleDeriver) before
           ++ omap (@rowOf sampleDeriver) after
      /\ @diagnostics sampleDeriver Samples.fiveWithOneUndated emptyWorld
         = omap (@failureOf sampleDeriver) before
           ++ {| reported := MalformedTransactionError;
                 context := FailedToProcess "hapoalim" "123" tx |}
           :: omap (@failureOf sampleDeriver) after).
Proof.
  intros before after tx.
  split; [vm_compute; reflexivity|]. split; [vm_compute; reflexivity|].
  split; [vm_compute; reflexivity|]. split; [vm_compute; reflexivity|].
  apply (@malformed_transaction_dropped_and_reported sampleDeriver
           Samples.fiveWithOneUndated before after "hapoalim" "123" tx
           MalformedTransactionError emptyWorld);
    vm_compute; reflexivity.
Defined.

(** C3, as stated, fails: a successful result whose only transaction has no
    date yields an empty canonical sequence, not that transaction augmented
    with keys. *)
Lemma canonical_rows_not_all_transactions :
  ~ Forall2 (@augments sampleDeriver)
      (rawItems Samples.oneUndated)
      (@canonicalRows sampleDeriver Samples.oneUndated emptyWorld).
Proof.
  intros Hall. apply Forall2_length in Hall. vm_compute in Hall. discriminate.
Qed.

(** C3, amended.  The canonical output is, in input order, the
    concatenation over the successful results of their account batches'
    transactions whose hash and unique id can be derived, each augmented
    with exactly the fields account, companyId, hash and uniqueId; the
    results whose success discriminant is false contribute neither
    transactions nor error reports: the normaliser does on the whole input
    what it does on the successful results alone. *)
Theorem canonical_rows_are_augmented_derivable_transactions `{Deriver}
    (results : list AccountScrapeResult) (w : World) :
  Forall2 augments
    (List.filter derivable (rawItems results))
    (canonicalRows results w)
  /\ resultsToTransactions results w
     = resultsToTransactions
         (List.filter (fun r => success (result r)) results) w.
Proof.
  split.
  - rewrite canonicalRows_spec. apply rows_of_derivable.
  - by rewrite !resultsToTransactions_spec, rawItems_successful.
Qed.

(** * The claims about the orchestrator *)

Lemma fanOut_task allTransactions storages schedule w pool w' i t :
  fanOut allTransactions storages schedule w = (Normal pool, w') ->
  pool !! i = Some t ->
  heap w' = heap w
  /\ index t = i
  /\ storages !! i = Some (storage t)
  /\ taskInv allTransactions (heap w) (length (invocations w)) w' t.
Proof.
  intros E Ht.
  destruct (fanOut_spec allTransactions storages schedule w)
    as (pool0 & w0 & E0 & (Hh & _ & _ & Hall) & _).
  rewrite E in E0. injection E0 as <- <-.
  destruct (Hall i t Ht) as (Hi & Hs & Hinv). auto.
Qed.

Lemma open_or_nil_last bound (steps : list Timer) :
  steps = [] \/ OpenTimeline bound steps -> steps <> [] ->
  exists init last, steps = init ++ [last] /\ endTime last = None.
Proof.
  intros [->|Ho] Hne; [congruence|]. destruct Ho. eauto.
Qed.

Lemma open_or_nil_orderly bound (steps : list Timer) :
  steps = [] \/ OpenTimeline bound steps ->
  onlyLastOpen steps /\ closedBeforeSuccessor steps.
Proof.
  intros [->|Ho].
  - split; intros i t; intros; by rewrite lookup_nil in *.
  - split; [eapply OpenTimeline_onlyLastOpen|eapply OpenTimeline_successor];
      eauto.
Qed.

(** C1.  Under every schedule that gives each task the turns it needs, the
    join resolves: every backend whose call resolved has had its status
    message replaced by its statistics, whose timeline names the steps it
    went through, and every backend whose call rejected has had its error
    reported under its own name, whatever the other backends did.  The
    join never resolves before that: under any schedule, a resolved join
    finds every backend's terminal report in place.  [saveResults] never
    throws, whatever the backends do, and when it gets as far as the
    fan-out it resolves with every backend's terminal report in place. *)
Theorem backend_failures_are_isolated `{Deriver} `{InvoiceService}
    (config : Config) (storages : list TransactionStorage)
    (allTransactions : list loc) (schedule : list nat) (w : World) :
  fair allTransactions (heap w) storages schedule = true ->
  (exists w',
     parallel allTransactions storages schedule w = (Normal (Some tt), w')
     /\ forall i s,
          storages !! i = Some s ->
          reportedIn allTransactions (heap w) w' s)
  /\ (forall anySchedule w',
        parallel allTransactions storages anySchedule w
        = (Normal (Some tt), w') ->
        forall i s,
          storages !! i = Some s ->
          reportedIn allTransactions (heap w) w' s)
  /\ (forall anySchedule,
        exists r w', parallel allTransactions storages anySchedule w
                     = (Normal r, w'))
  /\ (forall results anySchedule w0,
        exists r w',
          saveResults config storages results anySchedule w0
          = (Normal r, w'))
  /\ (forall results w0,
        storages <> [] ->
        canonical results w0 <> [] ->
        heap (fanOutStart config results w0) = heap w ->
        canonical results w0 = allTransactions ->
        exists w',
          saveResults config storages results schedule w0
          = (Normal (Some tt), w')
          /\ forall i s,
               storages !! i = Some s ->
               reportedIn allTransactions (heap w) w' s).
Proof.
  intros Hfair.
  assert (forall w1,
            heap w1 = heap w ->
            exists w',
              parallel allTransactions storages schedule w1
              = (Normal (Some tt), w')
              /\ forall i s,
                   storages !! i = Some s ->
                   reportedIn allTransactions (heap w) w' s) as Hjoin.
  { intros w1 Hheap.
    destruct (parallel_spec allTransactions storages schedule w1)
      as (pool & w' & _ & E & Hinv & Hfin).
    rewrite Hheap in *.
    specialize (Hfin Hfair). rewrite Hfin in E.
    exists w'. split; [exact E|]. intros i s Hs.
    eapply finished_reported; eauto. }
  split; [by apply Hjoin|].
  split; [|split; [|split]].
  - intros anySchedule w' E i s Hs.
    destruct (parallel_spec allTransactions storages anySchedule w)
      as (pool & w0 & _ & E0 & Hinv & _).
    rewrite E in E0.
    destruct (forallb finished pool) eqn:Hfin; [|discriminate].
    injection E0 as <-.
    eapply finished_reported; eauto.
  - intros anySchedule.
    destruct (parallel_spec allTransactions storages anySchedule w)
      as (pool & w0 & _ & E0 & _). eauto.
  - intros results anySchedule w0. apply saveResults_normal.
  - intros results w0 Hs Hc Hheap Hall.
    rewrite saveResults_fan_out by assumption. rewrite Hall.
    by apply Hjoin.
Qed.

(** Two backends, the first of which rejects after one step while the
    second resolves after two. *)
Lemma backend_failures_are_isolated_witness :
  fair [] (heap Samples.ticking) [Samples.failing; Samples.echoing]
       [0; 1; 0; 1; 0; 1; 0; 1; 1]%nat = true
  /\ ((exists w',
         parallel [] [Samples.failing; Samples.echoing]
           [0; 1; 0; 1; 0; 1; 0; 1; 1]%nat Samples.ticking
         = (Normal (Some tt), w')
         /\ forall i s,
              [Samples.failing; Samples.echoing] !! i = Some s ->
              reportedIn [] (heap Samples.ticking) w' s)
      /\ (forall anySchedule w',
            parallel [] [Samples.failing; Samples.echoing] anySchedule
              Samples.ticking = (Normal (Some tt), w') ->
            forall i s,
              [Samples.failing; Samples.echoing] !! i = Some s ->
              reportedIn [] (heap Samples.ticking) w' s)
      /\ (forall anySchedule,
            exists r w',
              parallel [] [Samples.failing; Samples.echoing] anySchedule
                Samples.ticking = (Normal r, w'))
      /\ (forall results anySchedule w0,
            exists r w',
              @saveResults sampleDeriver Samples.noService
                Samples.withoutInvoices [Samples.failing; Samples.echoing]
                results anySchedule w0 = (Normal r, w'))
      /\ (forall results w0,
            [Samples.failing; Samples.echoing] <> [] ->
            @canonical sampleDeriver results w0 <> [] ->
            heap (@fanOutStart sampleDeriver Samples.noService
                    Samples.withoutInvoices results w0)
            = heap Samples.ticking ->
            @canonical sampleDeriver results w0 = [] ->
            exists w',
              @saveResults sampleDeriver Samples.noService
                Samples.withoutInvoices [Samples.failing; Samples.echoing]
                results [0; 1; 0; 1; 0; 1; 0; 1; 1]%nat w0
              = (Normal (Some tt), w')
              /\ forall i s,
                   [Samples.failing; Samples.echoing] !! i = Some s ->
                   reportedIn [] (heap Samples.ticking) w' s)).
Proof.
  split; [reflexivity|].
  apply (@backend_failures_are_isolated sampleDeriver Samples.noService
           Samples.withoutInvoices [Samples.failing; Samples.echoing] []
           [0; 1; 0; 1; 0; 1; 0; 1; 1]%nat Samples.ticking).
  reflexivity.
Defined.

(** C6, as stated, fails: a backend that opens the step "fetch" and then
    rejects ends with that step's timer still open; only the success path
    closes the last step. *)
Lemma failed_save_leaves_last_step_open :
  fst (fanOut [] [Samples.failing] [0; 0; 0; 0]%nat Samples.ticking)
  = Normal
      [ {| index := 0; storage := Samples.failing; phase := Finished;
           steps := [ {| name := "fetch"; startTime := 2;
                         endTime := None |} ] |} ].
Proof. reflexivity. Qed.

(** C6, amended.  For every backend whose call rejects after having opened
    at least one progress step, the failure path reports the error through
    the error channel tagged with that backend's name and leaves the
    timeline as the rejection found it: it names the steps the backend
    opened, and the last of them stays open. *)
Theorem failed_save_is_reported_under_backend_name
    (allTransactions : list loc) (storages : list TransactionStorage)
    (schedule : list nat) (w w' : World) (pool : list Task)
    (i : nat) (t : Task) (e : Error) :
  fanOut allTransactions storages schedule w = (Normal pool, w') ->
  pool !! i = Some t ->
  phase t = Finished ->
  settled (runOf allTransactions (heap w) (storage t)) = Rejected e ->
  progress (runOf allTransactions (heap w) (storage t)) <> [] ->
  In {| reported := e;
        context := SaveTransactionsOf (constructorName (storage t)) |}
     (reports w')
  /\ map name (steps t) = progress (runOf allTransactions (heap w) (storage t))
  /\ exists init last, steps t = init ++ [last] /\ endTime last = None.
Proof.
  intros E Ht Hph Hset Hprog.
  destruct (fanOut_task _ _ _ _ _ _ _ _ E Ht) as (_ & _ & _ & Hinv).
  unfold taskInv in Hinv. rewrite Hph, Hset in Hinv.
  destruct Hinv as (Hn & _ & Hs & Hin).
  repeat split; auto.
  eapply open_or_nil_last; [exact Hs|].
  intros Hnil. rewrite Hnil in Hn. simpl in Hn. congruence.
Qed.

Lemma failed_save_is_reported_under_backend_name_witness :
  exists pool w' t,
    fanOut [] [Samples.failing] [0; 0; 0; 0]%nat Samples.ticking
    = (Normal pool, w')
    /\ pool !! 0%nat = Some t
    /\ phase t = Finished
    /\ settled (runOf [] (heap Samples.ticking) (storage t))
       = Rejected "connection refused"
    /\ progress (runOf [] (heap Samples.ticking) (storage t)) <> []
    /\ (In {| reported := "connection refused";
              context := SaveTransactionsOf (constructorName (storage t)) |}
           (reports w')
        /\ map name (steps t)
           = progress (runOf [] (heap Samples.ticking) (storage t))
        /\ exists init last, steps t = init ++ [last] /\ endTime last = None).
Proof.
  eexists _, _, _.
  split; [reflexivity|]. split; [reflexivity|]. split; [reflexivity|].
  split; [reflexivity|]. split; [discriminate|].
  eapply (failed_save_is_reported_under_backend_name [] [Samples.failing]
            [0; 0; 0; 0]%nat Samples.ticking _ _ 0%nat _ "connection refused");
    try reflexivity.
  discriminate.
Defined.

(** C7.  At every point of every schedule, the timeline of a task holds
    exactly one timer for each progress call its backend has made so far,
    named in the order of the calls; only the most recent step may be
    open, every step that has a successor was closed, within its own start
    and not after the successor started; and while the save is in progress
    the most recent step, if there is one, is open. *)
Theorem progress_timeline_follows_calls
    (allTransactions : list loc) (storages : list TransactionStorage)
    (schedule : list nat) (w w' : World) (pool : list Task)
    (i : nat) (t : Task) :
  fanOut allTransactions storages schedule w = (Normal pool, w') ->
  pool !! i = Some t ->
  map name (steps t) = callsMade allTransactions (heap w) t
  /\ length (steps t) = length (callsMade allTransactions (heap w) t)
  /\ onlyLastOpen (steps t)
  /\ closedBeforeSuccessor (steps t)
  /\ (forall message start todo outcome,
        phase t = Saving message start todo outcome ->
        steps t <> [] ->
        exists init last, steps t = init ++ [last] /\ endTime last = None).
Proof.
  intros E Ht.
  destruct (fanOut_task _ _ _ _ _ _ _ _ E Ht) as (_ & _ & _ & Hinv).
  assert (map name (steps t) = callsMade allTransactions (heap w) t
          /\ onlyLastOpen (steps t) /\ closedBeforeSuccessor (steps t)
          /\ (forall message start todo outcome,
                phase t = Saving message start todo outcome ->
                steps t <> [] ->
                exists init last,
                  steps t = init ++ [last] /\ endTime last = None))
    as (Hn & Ho & Hc & Hl).
  { unfold taskInv, callsMade in *.
    destruct (phase t) as [|m|m start todo o|].
    - destruct Hinv as [-> _]. repeat split; try discriminate;
        intros j u; intros; by rewrite lookup_nil in *.
    - destruct Hinv as [-> _]. repeat split; try discriminate;
        intros j u; intros; by rewrite lookup_nil in *.
    - destruct Hinv as (_ & _ & Hn & Hs & _).
      destruct (open_or_nil_orderly _ _ Hs) as [Ho Hc].
      repeat split; auto.
      + rewrite <- Hn, length_app, Nat.add_sub.
        by rewrite take_app_length.
      + intros. eapply open_or_nil_last; eauto.
    - destruct Hinv as (Hn & _ & Hrep).
      destruct (settled (runOf allTransactions (heap w) (storage t))).
      + destruct Hrep as [Hc _]. repeat split; auto; try discriminate.
        * eapply ClosedTimeline_onlyLastOpen; eauto.
        * eapply ClosedTimeline_successor; eauto.
      + destruct Hrep as [Hs _].
        destruct (open_or_nil_orderly _ _ Hs) as [Ho Hc].
        repeat split; auto; discriminate. }
  repeat split; auto. by rewrite <- Hn, length_map.
Qed.

(** A backend that has called [onProgress("fetch")] and then
    [onProgress("write")]: two timers in that order, the first closed
    before the second opened. *)
Lemma progress_timeline_follows_calls_witness :
  exists pool w' t,
    fanOut [] [Samples.echoing] [0; 0; 0; 0]%nat Samples.ticking
    = (Normal pool, w')
    /\ pool !! 0%nat = Some t
    /\ steps t = [ {| name := "fetch"; startTime := 2; endTime := Some 3%N |};
                   {| name := "write"; startTime := 4; endTime := None |} ]
    /\ (map name (steps t) = callsMade [] (heap Samples.ticking) t
        /\ length (steps t) = length (callsMade [] (heap Samples.ticking) t)
        /\ onlyLastOpen (steps t)
        /\ closedBeforeSuccessor (steps t)
        /\ (forall message start todo outcome,
              phase t = Saving message start todo outcome ->
              steps t <> [] ->
              exists init last,
                steps t = init ++ [last] /\ endTime last = None)).
Proof.
  eexists _, _, _.
  split; [reflexivity|]. split; [reflexivity|]. split; [reflexivity|].
  eapply (progress_timeline_follows_calls [] [Samples.echoing]
            [0; 0; 0; 0]%nat Samples.ticking _ _ 0%nat _); reflexivity.
Defined.

Section RunClaims.
Context `{Deriver} `{InvoiceService}.

Lemma canonical_length results w :
  length (canonical results w) = length (canonicalRows results w).
Proof.
  unfold canonical, pushed. by rewrite canonicalRows_spec, length_seq.
Qed.

Lemma canonical_nil results w :
  canonicalRows results w = [] <-> canonical results w = [].
Proof.
  pose proof (canonical_length results w) as Hl.
  split; intros E; rewrite E in Hl; simpl in Hl.
  - by destruct (canonical results w).
  - by destruct (canonicalRows results w).
Qed.

Lemma fanOutStart_invocations config results w :
  invocations (fanOutStart config results w) = invocations w.
Proof.
  destruct (fanOutStart_spec config results w) as (h' & -> & _).
  reflexivity.
Qed.

End RunClaims.

(** C4.  In every run with a non-empty canonical sequence and a non-empty
    active backend set, under a schedule that gives each task the turns it
    needs, [saveResults] resolves and each backend's [saveTransactions] has
    been invoked exactly once, with the very array the normaliser
    returned: the same array for every backend, denoting the whole
    canonical sequence, nothing having been filtered out in between. *)
Theorem every_backend_is_given_the_canonical_sequence
    `{Deriver} `{InvoiceService}
    (config : Config) (storages : list TransactionStorage)
    (results : list AccountScrapeResult) (schedule : list nat) (w : World)
    (allTransactions : list loc) (created : World) :
  resultsToTransactions results w = (Normal allTransactions, created) ->
  storages <> [] ->
  allTransactions <> [] ->
  fair allTransactions (heap (fanOutStart config results w))
       storages schedule = true ->
  exists w',
    saveResults config storages results schedule w = (Normal (Some tt), w')
    /\ deref (heap created) allTransactions = canonicalRows results w
    /\ length allTransactions = length (canonicalRows results w)
    /\ forall i s,
         storages !! i = Some s ->
         invocationsOf (length (invocations w)) i w'
         = [(i, allTransactions)].
Proof.
  intros Enorm Hs Hc Hfair.
  assert (canonicalRows results w = deref (heap created) allTransactions)
    as Hrows.
  { unfold canonicalRows. by rewrite Enorm. }
  rewrite resultsToTransactions_spec in Enorm. injection Enorm as <- <-.
  fold (canonical results w) in *.
  rewrite saveResults_fan_out by assumption.
  destruct (parallel_spec (canonical results w) storages schedule
              (fanOutStart config results w))
    as (pool & w' & _ & E & Hinv & Hfin).
  specialize (Hfin Hfair). rewrite Hfin in E.
  exists w'. split; [exact E|].
  split; [by rewrite Hrows|].
  split; [apply canonical_length|].
  intros i s Hi. rewrite fanOutStart_invocations in Hinv.
  eapply finished_reported; eauto.
Qed.

Lemma every_backend_is_given_the_canonical_sequence_witness :
  let normalised :=
    @resultsToTransactions sampleDeriver Samples.fiveWithOneUndated
      Samples.ticking in
  let storages := [Samples.failing; Samples.echoing] in
  let schedule := [0; 1; 0; 1; 0; 1; 0; 1; 1]%nat in
  normalised = (Normal [0; 1; 2; 3]%nat, snd normalised)
  /\ storages <> []
  /\ [0; 1; 2; 3]%nat <> []
  /\ fair [0; 1; 2; 3]%nat
       (heap (@fanOutStart sampleDeriver Samples.noService
                Samples.withoutInvoices Samples.fiveWithOneUndated
                Samples.ticking))
       storages schedule = true
  /\ exists w',
       @saveResults sampleDeriver Samples.noService Samples.withoutInvoices
         storages Samples.fiveWithOneUndated schedule Samples.ticking
       = (Normal (Some tt), w')
       /\ deref (heap (snd normalised)) [0; 1; 2; 3]%nat
          = @canonicalRows sampleDeriver Samples.fiveWithOneUndated
              Samples.ticking
       /\ length [0; 1; 2; 3]%nat
          = length (@canonicalRows sampleDeriver Samples.fiveWithOneUndated
                      Samples.ticking)
       /\ forall i s,
            storages !! i = Some s ->
            invocationsOf (length (invocations Samples.ticking)) i w'
            = [(i, [0; 1; 2; 3]%nat)].
Proof.
  intros normalised storages schedule.
  assert (fst normalised = Normal [0; 1; 2; 3]%nat) as Hfst.
  { vm_compute. reflexivity. }
  assert (normalised = (Normal [0; 1; 2; 3]%nat, snd normalised)) as Enorm.
  { transitivity (fst normalised, snd normalised);
      [apply surjective_pairing|by rewrite Hfst]. }
  assert (fair [0; 1; 2; 3]%nat
            (heap (@fanOutStart sampleDeriver Samples.noService
                     Samples.withoutInvoices Samples.fiveWithOneUndated
                     Samples.ticking))
            storages schedule = true) as Hfair.
  { vm_compute. reflexivity. }
  split; [exact Enorm|]. split; [discriminate|]. split; [discriminate|].
  split; [exact Hfair|].
  apply (@every_backend_is_given_the_canonical_sequence sampleDeriver
           Samples.noService Samples.withoutInvoices storages
           Samples.fiveWithOneUndated schedule Samples.ticking
           [0; 1; 2; 3]%nat (snd normalised)).
  - exact Enorm.
  - discriminate.
  - discriminate.
  - exact Hfair.
Defined.

(** C8.  When at least one backend is active (otherwise the normaliser is
    not run and the "no storages" notice is sent instead) and the canonical
    sequence is empty after normalisation, whether there were no raw
    results, only failed ones, or only transactions that were dropped,
    [saveResults] resolves at once, whatever the schedule: no backend has
    been invoked and exactly one notification, "No transactions found,
    skipping save", has been sent. *)
Theorem empty_canonical_sequence_short_circuits
    `{Deriver} `{InvoiceService}
    (config : Config) (storages : list TransactionStorage)
    (results : list AccountScrapeResult) (schedule : list nat) (w : World) :
  storages <> [] ->
  fst (resultsToTransactions results w) = Normal [] ->
  exists w',
    saveResults config storages results schedule w = (Normal (Some tt), w')
    /\ invocations w' = invocations w
    /\ chat w'
       = chat w
         ++ [Sent (length (chat w))
               (Plain "No transactions found, skipping save")].
Proof.
  intros Hs Hc. rewrite resultsToTransactions_spec in Hc. simpl in Hc.
  injection Hc as Hc.
  rewrite saveResults_no_transactions by assumption.
  eexists. split; [reflexivity|]. split; reflexivity.
Qed.

(** A failed scrape together with a batch whose only transaction is
    dropped. *)
Lemma empty_canonical_sequence_short_circuits_witness :
  let results := Samples.failedScrape "leumi" :: Samples.oneUndated in
  [Samples.echoing] <> []
  /\ fst (@resultsToTransactions sampleDeriver results emptyWorld) = Normal []
  /\ exists w',
       @saveResults sampleDeriver Samples.noService Samples.withoutInvoices
         [Samples.echoing] results [0; 0; 0; 0; 0]%nat emptyWorld
       = (Normal (Some tt), w')
       /\ invocations w' = invocations emptyWorld
       /\ chat w'
          = chat emptyWorld
            ++ [Sent (length (chat emptyWorld))
                  (Plain "No transactions found, skipping save")].
Proof.
  intros results.
  assert (fst (@resultsToTransactions sampleDeriver results emptyWorld)
          = Normal []) as Hnil.
  { vm_compute. reflexivity. }
  split; [discriminate|]. split; [exact Hnil|].
  apply (@empty_canonical_sequence_short_circuits sampleDeriver
           Samples.noService Samples.withoutInvoices [Samples.echoing]
           results [0; 0; 0; 0; 0]%nat emptyWorld).
  - discriminate.
  - exact Hnil.
Defined.




(** * The claim about the Google Sheets backend *)

(** C10, as stated, fails in its last clause: under a hash type other than
    "moneyman", a completed transaction whose unique id is in the sheet's
    set of hashes while its hash is not is added all the same. *)
Lemma row_added_although_unique_id_present :
  let tx := Samples.keyed "h2" "u2" "completed" in
  GoogleSheetsStorage.appended
    (snd (GoogleSheetsStorage.saveTransactions Samples.olderHashType
            Samples.sheetWithU2 [tx] GoogleSheetsStorage.emptyTrace))
  = [[ {| GoogleSheetsStorage.source := tx;
          GoogleSheetsStorage.withRaw := false |} ]]
  /\ GoogleSheetsStorage.has {["u2"]} (prop tx "uniqueId") = true.
Proof. vm_compute. split; reflexivity. Qed.

(** C10, amended.  Whatever set of hashes was loaded from the sheet, the
    rows [saveTransactions] asks the sheet to add are those of the
    transactions the filter selects, in order, in one request, and none
    when there is none.  A transaction whose unique id (under the
    "moneyman" hash type) or whose hash is in the set is never selected,
    and neither is a pending one; so every row added has its hash absent
    from the set, has its unique id absent from it under the "moneyman"
    hash type, and is not pending.  Each transaction adds at most one to
    [stats.existing], and only when one of its keys is in the set. *)
Theorem added_rows_were_absent_from_sheet
    (config : Config) (sheet : GoogleSheetsStorage.Spreadsheet)
    (txns : list Obj) :
  let run :=
    GoogleSheetsStorage.saveTransactions config sheet txns
      GoogleSheetsStorage.emptyTrace in
  (exists e, fst run = Throw e /\ GoogleSheetsStorage.appended (snd run) = [])
  \/ exists existingHashes before after stats,
       GoogleSheetsStorage.reads before = 0%nat
       /\ GoogleSheetsStorage.loadHashes sheet before
          = (Normal existingHashes, after)
       /\ fst run = Normal stats
       /\ let newTxns :=
            List.filter (GoogleSheetsStorage.selected config existingHashes)
              txns in
          GoogleSheetsStorage.appended (snd run)
          = (if (0 <? length newTxns)%nat
             then [map (GoogleSheetsStorage.tableRow
                          (bool_decide
                             ("raw" ∈ GoogleSheetsStorage.headerValues sheet)))
                       newTxns]
             else [])
          /\ (forall tx,
                In tx newTxns ->
                In tx txns
                /\ GoogleSheetsStorage.has existingHashes (prop tx "hash")
                   = false
                /\ (GoogleSheetsStorage.moneyman config = true ->
                    GoogleSheetsStorage.has existingHashes
                      (prop tx "uniqueId") = false)
                /\ prop tx "status" <> GoogleSheetsStorage.Pending)
          /\ (forall tx,
                GoogleSheetsStorage.keyPresent config existingHashes tx = true
                \/ prop tx "status" = GoogleSheetsStorage.Pending ->
                ~ In tx newTxns)
          /\ existing stats
             = Z.of_nat
                 (length
                    (List.filter
                       (GoogleSheetsStorage.counted config existingHashes)
                       txns))
          /\ (forall tx,
                GoogleSheetsStorage.counted config existingHashes tx = true ->
                GoogleSheetsStorage.keyPresent config existingHashes tx
                = true).
Proof.
  intros run. subst run.
  unfold GoogleSheetsStorage.saveTransactions, bind, lift,
    GoogleSheetsStorage.onProgress, GoogleSheetsStorage.assert. simpl.
  destruct (GoogleSheetsStorage.getDoc sheet) as [[]|e];
    [|left; eexists; split; reflexivity].
  destruct (GoogleSheetsStorage.sheetsByTitle sheet (GoogleSheetsStorage.worksheetName config));
    [|left; eexists; split; reflexivity].
  simpl.
  destruct (GoogleSheetsStorage.loadHeaderRow sheet) as [[]|reason];
    [|left; eexists; split; reflexivity].
  match goal with
  | |- context [GoogleSheetsStorage.loadHashes sheet ?tr] =>
      pose proof (GoogleSheetsFacts.loadHashes_appended sheet tr) as Happ;
      destruct (GoogleSheetsStorage.loadHashes sheet tr)
        as [[existingHashes|e] after] eqn:Eload; set (before := tr) in *
  end.
  - right. simpl in Happ.
    destruct (saveNew_spec config sheet existingHashes txns after)
      as (stats & t' & E & Hrows & Hnew & Hnot & Hex & Hcounted).
    exists existingHashes, before, after, stats.
    split; [reflexivity|]. split; [exact Eload|].
    rewrite E. split; [reflexivity|]. simpl.
    rewrite Hrows, Happ. simpl. repeat split; auto; apply Hnew; auto.
  - left. exists e. split; [reflexivity|]. exact Happ.
Qed.
(** ** More on the insurance-vendor filter *)

Lemma prefix_spec pat s :
  String.prefix pat s = true <-> exists post, s = pat +:+ post.
Proof.
  revert s. induction pat as [|c pat IH]; intros [|d s]; simpl.
  - split; [intros _; by exists ""|reflexivity].
  - split; [intros _; by exists (String d s)|reflexivity].
  - split; [discriminate|]. intros [post E]. discriminate.
  - destruct (Ascii.ascii_dec c d) as [->|Hne].
    + rewrite IH. split; intros [post E]; exists post.
      * by rewrite E.
      * by injection E.
    + split; [discriminate|]. intros [post E]. injection E as E1 E2.
      congruence.
Qed.

Lemma includes_spec pat s :
  includes pat s = true <-> exists pre post, s = pre +:+ pat +:+ post.
Proof.
  induction s as [|c s IH].
  - cbn [includes]. rewrite orb_false_r, prefix_spec. split.
    + intros [post E]. by exists "", post.
    + intros (pre & post & E). destruct pre; [by exists post|discriminate].
  - cbn [includes]. rewrite orb_true_iff, prefix_spec, IH. split.
    + intros [[post E]|(pre & post & E)].
      * by exists "", post.
      * exists (String c pre), post. simpl. by rewrite E.
    + intros (pre & post & E). destruct pre as [|d pre].
      * left. by exists post.
      * right. injection E as -> E. by exists pre, post.
Qed.

Lemma vendorRegexTest_spec d :
  vendorRegexTest d = true
  <-> exists vendor pre post, In vendor vendors /\ d = pre +:+ vendor +:+ post.
Proof.
  unfold vendorRegexTest. rewrite existsb_exists. split.
  - intros (v & Hin & Hinc). apply includes_spec in Hinc.
    destruct Hinc as (pre & post & E). by exists v, pre, post.
  - intros (v & pre & post & Hin & E). exists v. split; [exact Hin|].
    apply includes_spec. by exists pre, post.
Qed.

Lemma filter_sublist {A} (f : A -> bool) (xs : list A) :
  List.filter f xs `sublist_of` xs.
Proof.
  induction xs as [|x xs IH]; simpl; [constructor|].
  destruct (f x); by constructor.
Qed.

Lemma filter_sublist_impl {A} (f g : A -> bool) (xs : list A) :
  (forall x, f x = true -> g x = true) ->
  List.filter f xs `sublist_of` List.filter g xs.
Proof.
  intros Himpl. induction xs as [|x xs IH]; simpl; [constructor|].
  destruct (f x) eqn:Hf.
  - rewrite (Himpl x Hf). by constructor.
  - destruct (g x); [by constructor|exact IH].
Qed.

Lemma filter_compose {A} (f g : A -> bool) (xs : list A) :
  List.filter g (List.filter f xs) = List.filter (fun x => f x && g x) xs.
Proof.
  induction xs as [|x xs IH]; [reflexivity|]. simpl.
  destruct (f x); simpl; [|exact IH]. destruct (g x); by rewrite IH.
Qed.

(** X1.  [filterInsuranceVendorTransactions] changes nothing and returns, in
    their order, the references of its argument whose row has a positive
    [originalAmount] and a string [description] in which the name of one of
    the nine vendors occurs; it is the composition of the two [filter] calls
    of the source. *)
Theorem insurance_filter_keeps_positive_vendor_rows
    (transactions : list loc) (w : World) :
  exists kept,
    filterInsuranceVendorTransactions transactions w = (Normal kept, w)
    /\ kept `sublist_of` transactions
    /\ kept
       = List.filter
           (fun l => match heap w !! l with
                     | Some txn =>
                         match prop txn "description" with
                         | VStr d => vendorRegexTest d
                         | _ => false
                         end
                     | None => false
                     end)
           (List.filter
              (fun l => match heap w !! l with
                        | Some txn => positive (prop txn "originalAmount")
                        | None => false
                        end)
              transactions)
    /\ forall l,
         In l kept
         <-> In l transactions
             /\ exists txn z d vendor pre post,
                  heap w !! l = Some txn
                  /\ prop txn "originalAmount" = VNum z /\ 0 < z
                  /\ prop txn "description" = VStr d
                  /\ In vendor vendors
                  /\ d = pre +:+ vendor +:+ post.
Proof.
  eexists. split; [reflexivity|]. split; [apply filter_sublist|]. split.
  - rewrite filter_compose. apply filter_ext. intros l.
    by destruct (heap w !! l).
  - intros l. rewrite filter_In. apply and_iff_compat_l.
    destruct (heap w !! l) as [txn|]; [|split; [discriminate|]].
    + unfold isInsuranceVendorTransaction. rewrite andb_true_iff. split.
      * intros [Hpos Hdesc].
        destruct (prop txn "originalAmount") as [| |z] eqn:Ea;
          try discriminate.
        destruct (prop txn "description") as [|d|] eqn:Ed; try discriminate.
        apply vendorRegexTest_spec in Hdesc.
        destruct Hdesc as (v & pre & post & Hin & E).
        exists txn, z, d, v, pre, post. simpl in Hpos.
        apply Z.ltb_lt in Hpos. repeat split; auto.
      * intros (txn' & z & d & v & pre & post & [= <-] & Ea & Hz & Ed & Hin & E).
        rewrite Ea, Ed. split; [by apply Z.ltb_lt|].
        apply vendorRegexTest_spec. by exists v, pre, post.
    + intros (txn & z & d & v & pre & post & Hl & _). discriminate.
Qed.

(** ** More on the invoice step *)

Section MoreInvoiceFacts.
Context `{InvoiceService}.

Lemma alter_lookup_insert {A} (f : A -> A) (l : nat) (h : list A) (o : A) :
  h !! l = Some o -> alter f l h = <[l := f o]> h.
Proof.
  intros Hl. apply list_eq. intros i.
  destruct (decide (i = l)) as [->|Hne].
  - rewrite list_lookup_alter_eq, Hl.
    by rewrite list_lookup_insert_eq by (by apply lookup_lt_Some in Hl).
  - by rewrite list_lookup_alter_ne, list_lookup_insert_ne by congruence.
Qed.

Lemma alter_lookup_none {A} (f : A -> A) (l : nat) (h : list A) :
  h !! l = None -> alter f l h = h.
Proof.
  intros Hl. apply list_eq. intros i.
  destruct (decide (i = l)) as [->|Hne].
  - by rewrite list_lookup_alter_eq, Hl.
  - by rewrite list_lookup_alter_ne by congruence.
Qed.

(** One turn of the loop of [createInvoicesForTransactions]. *)
Lemma attachInvoice_alters l w :
  attachInvoice l tt w = (Normal tt, withHeap (alter invoiced l (heap w)) w).
Proof.
  unfold attachInvoice, tryCatch, bind, createInvoiceForTransaction.
  destruct (heap w !! l) as [o|] eqn:Hl.
  - rewrite (alter_lookup_insert _ _ _ _ Hl). unfold invoiced, attached.
    assert (l < length (heap w))%nat as Hlt by (by apply lookup_lt_Some in Hl).
    destruct (createDoc o) as [res|e].
    + unfold setProp, ret.
      destruct (truthy (pdf_link res)), (truthy (doc_number res));
        cbn [heap clock ticks chat reports invocations];
        rewrite ?Hl, ?list_lookup_insert_eq by exact Hlt;
        rewrite ?list_insert_insert_eq; try reflexivity.
      by rewrite list_insert_id, withHeap_same.
    + by rewrite list_insert_id, withHeap_same.
  - rewrite (alter_lookup_none _ _ _ Hl). by rewrite withHeap_same.
Qed.

Lemma attachAll_alters txns w :
  forOf txns attachInvoice tt w
  = (Normal tt,
     withHeap (foldl (fun h l => alter invoiced l h) (heap w) txns) w).
Proof.
  revert w. induction txns as [|l txns IH]; intros w; simpl.
  - by rewrite withHeap_same.
  - unfold bind. rewrite attachInvoice_alters, IH. reflexivity.
Qed.

Lemma foldl_alter_length {A} (f : A -> A) ls (h : list A) :
  length (foldl (fun h l => alter f l h) h ls) = length h.
Proof.
  revert h. induction ls as [|l ls IH]; intros h; simpl; [reflexivity|].
  by rewrite IH, length_alter.
Qed.

Lemma foldl_alter_lookup {A} (f : A -> A) ls (h : list A) l :
  NoDup ls ->
  foldl (fun h l => alter f l h) h ls !! l
  = if bool_decide (l ∈ ls) then f <$> h !! l else h !! l.
Proof.
  intros Hnd. revert h. induction Hnd as [|a ls Ha Hnd IH]; intros h; simpl.
  - reflexivity.
  - rewrite IH. destruct (decide (l = a)) as [->|Hne].
    + rewrite (bool_decide_eq_false_2 _ Ha).
      rewrite bool_decide_eq_true_2 by (by left).
      by rewrite list_lookup_alter_eq.
    + rewrite list_lookup_alter_ne by congruence.
      destruct (bool_decide (l ∈ ls)) eqn:E.
      * apply bool_decide_eq_true in E.
        by rewrite bool_decide_eq_true_2 by (by right).
      * apply bool_decide_eq_false in E.
        rewrite bool_decide_eq_false_2; [reflexivity|].
        intros Hin. apply elem_of_cons in Hin. destruct Hin; contradiction.
Qed.

End MoreInvoiceFacts.

(** X2.  [createInvoicesForTransactions] on distinct rows resolves with the
    array it was given, whatever the invoicing service answers: each row of
    the array got the [pdf_link] and the [doc_number] of the answer to its
    own request where the answer holds them, a row whose request failed and
    every other object are as before, and neither the chat nor the error
    channel hears of it. *)
Theorem invoices_are_written_back_row_by_row `{InvoiceService}
    (txns : list loc) (w : World) :
  NoDup txns ->
  exists h',
    createInvoicesForTransactions txns w = (Normal txns, withHeap h' w)
    /\ length h' = length (heap w)
    /\ forall l,
         h' !! l = if bool_decide (l ∈ txns)
                   then invoiced <$> heap w !! l
                   else heap w !! l.
Proof.
  intros Hnd.
  exists (foldl (fun h l => alter invoiced l h) (heap w) txns).
  unfold createInvoicesForTransactions, bind. rewrite attachAll_alters.
  split; [reflexivity|]. split; [apply foldl_alter_length|].
  intros l. by apply foldl_alter_lookup.
Qed.

(** The same on a sample input. *)
Lemma invoices_are_written_back_row_by_row_witness :
  NoDup [0%nat]
  /\ exists h',
       @createInvoicesForTransactions Samples.issuing [0%nat]
         Examples.oneCommission
       = (Normal [0%nat], withHeap h' Examples.oneCommission)
       /\ length h' = length (heap Examples.oneCommission)
       /\ forall l,
            h' !! l
            = if bool_decide (l ∈ [0%nat])
              then @invoiced Samples.issuing <$> heap Examples.oneCommission !! l
              else heap Examples.oneCommission !! l.
Proof.
  split; [apply NoDup_singleton|].
  apply (@invoices_are_written_back_row_by_row Samples.issuing).
  apply NoDup_singleton.
Defined.
(** ** More on the Google Sheets backend *)

Section MoreSheetsFacts.
Import GoogleSheetsStorage.
Variable config : Config.
Variable sheet : Spreadsheet.

Lemma indexOf_Some x xs c :
  indexOf x xs = Some c ->
  xs !! c = Some x /\ forall j, (j < c)%nat -> xs !! j <> Some x.
Proof.
  revert c. induction xs as [|y xs IH]; intros c; simpl; [discriminate|].
  destruct (String.eqb_spec x y) as [->|Hne].
  - intros [= <-]. split; [reflexivity|]. intros j Hj. lia.
  - destruct (indexOf x xs) as [c'|]; simpl; [|discriminate].
    intros [= <-]. destruct (IH c' eq_refl) as [Hc Hbefore].
    split; [exact Hc|]. intros [|j] Hj; simpl.
    + congruence.
    + apply Hbefore. lia.
Qed.

Lemma indexOf_None x xs : indexOf x xs = None -> x ∉ xs.
Proof.
  induction xs as [|y xs IH]; simpl; intros E; [apply not_elem_of_nil|].
  destruct (String.eqb_spec x y) as [->|Hne]; [discriminate|].
  destruct (indexOf x xs); [discriminate|].
  apply not_elem_of_cons. auto.
Qed.

Lemma indexOf_first x xs c :
  xs !! c = Some x -> (forall j, (j < c)%nat -> xs !! j <> Some x) ->
  indexOf x xs = Some c.
Proof.
  intros Hc Hbefore. destruct (indexOf x xs) as [c'|] eqn:E.
  - destruct (indexOf_Some _ _ _ E) as [Hc' Hbefore'].
    destruct (Nat.lt_trichotomy c c') as [Hlt|[->|Hgt]]; [|reflexivity|].
    + by destruct (Hbefore' c Hlt).
    + by destruct (Hbefore c' Hgt).
  - apply indexOf_None in E. destruct E.
    apply list_elem_of_lookup. eauto.
Qed.

Lemma loadHashes_reads t :
  (reads (snd (loadHashes sheet t)) <= S (reads t))%nat
  /\ (reads t <= reads (snd (loadHashes sheet t)))%nat
  /\ deprecations (snd (loadHashes sheet t)) = deprecations t
  /\ sentErrors (snd (loadHashes sheet t)) = sentErrors t.
Proof.
  unfold loadHashes.
  destruct (indexOf "hash" (headerValues sheet)) as [column|];
    [|simpl; auto].
  unfold bind, assert, requestCells, onProgress, ret, throw.
  destruct (column <? 26)%nat; simpl; [|auto].
  destruct (getCellsInRange sheet (reads t) _) as [[value|]|reason];
    simpl; auto.
Qed.

Lemma filterCounting_keeps existingHashes txns stats :
  let stats' := snd (filterCounting (isNew config existingHashes) txns stats) in
  added stats' = added stats
  /\ otherSkipped stats' = otherSkipped stats
  /\ highlightedAdded stats' = highlightedAdded stats.
Proof.
  revert stats. induction txns as [|tx txns IH]; intros stats; simpl; auto.
  rewrite GoogleSheetsFacts.isNew_spec.
  specialize (IH (if counted config existingHashes tx
                  then countExisting stats else stats)).
  destruct (filterCounting _ txns _) as [kept stats2]. simpl in *.
  destruct IH as (Ha & Ho & Hh). rewrite Ha, Ho, Hh.
  by destruct (counted config existingHashes tx).
Qed.

Lemma filter_length_le {A} (f : A -> bool) (xs : list A) :
  (length (List.filter f xs) <= length xs)%nat.
Proof.
  induction xs as [|x xs IH]; simpl; [lia|]. destruct (f x); simpl; lia.
Qed.

(** What the part of [saveTransactions] that follows the loading of the
    hashes leaves in the statistics and in the trace. *)
Lemma saveNew_account existingHashes txns t :
  let newTxns := List.filter (selected config existingHashes) txns in
  exists stats t',
    saveNew config sheet existingHashes txns t = (Normal stats, t')
    /\ statsName stats = "Google Sheets"
    /\ table stats = worksheetName config
    /\ highlightedAdded stats = newTxns
    /\ 0 <= otherSkipped stats <= Z.of_nat (length newTxns)
    /\ added stats + otherSkipped stats = Z.of_nat (length newTxns)
    /\ (addRows sheet
          (map (tableRow (bool_decide ("raw" ∈ headerValues sheet))) newTxns)
        = Normal tt -> otherSkipped stats = 0)
    /\ existing stats
       = Z.of_nat (length (List.filter (counted config existingHashes) txns))
    /\ deprecations t'
       = deprecations t
         ++ (if (0 <? length newTxns)%nat && negb (moneyman config)
             then ["hashFiledChange"] else [])
    /\ length (appended t')
       = (length (appended t) + if (0 <? length newTxns)%nat then 1 else 0)%nat
    /\ (reads t <= reads t' <= S (reads t))%nat
    /\ (reads t' <> reads t ->
        (0 <? length newTxns)%nat = true
        /\ exists reason,
             addRows sheet
               (map (tableRow (bool_decide ("raw" ∈ headerValues sheet)))
                    newTxns)
             = Throw reason).
Proof.
  intros newTxns.
  destruct (GoogleSheetsFacts.filterCounting_spec config existingHashes txns
              (createSaveStats "Google Sheets" (worksheetName config)))
    as (stats1 & Efilter & Hex & Hname & Htable).
  pose proof (filterCounting_keeps existingHashes txns
                (createSaveStats "Google Sheets" (worksheetName config)))
    as (Hadded & Hother & Hhigh).
  rewrite Efilter in Hadded, Hother, Hhigh.
  simpl in Hex, Hname, Htable, Hadded, Hother, Hhigh.
  unfold saveNew. rewrite Efilter. fold newTxns. rewrite length_map.
  destruct (0 <? length newTxns)%nat eqn:Hlen.
  - unfold bind, requestAddRows, onProgress. simpl.
    destruct (addRows sheet _) as [[]|reason] eqn:Eadd.
    + destruct (moneyman config); simpl;
        eexists _, _; (split; [reflexivity|]); simpl;
        rewrite ?length_app, ?Hhigh, ?Hother, ?app_nil_r; simpl;
        repeat split; auto; try lia.
    + assert (forall hashes,
                (length (List.filter
                           (fun tx => negb (has hashes (prop tx "hash"))
                                      && negb (has hashes (prop tx "uniqueId")))
                           newTxns) <= length newTxns)%nat) as Hle
        by (intros; apply filter_length_le).
      destruct (moneyman config); simpl;
        unfold recover, tryCatch, bind, sendError, onProgress; simpl;
        match goal with
        | |- context [loadHashes sheet ?tr] =>
            pose proof (loadHashes_reads tr) as (Hr1 & Hr2 & Hd & He);
            pose proof (GoogleSheetsFacts.loadHashes_appended sheet tr)
              as Happ;
            destruct (loadHashes sheet tr) as [[hashes|e] t2]
        end; simpl in *;
        eexists _, _; (split; [reflexivity|]); simpl;
        rewrite ?Hhigh, ?Hother, ?Hd, ?Happ, ?length_app, ?app_nil_r; simpl;
        try specialize (Hle hashes);
        (repeat split; auto; try lia; try congruence);
        by exists reason.
  - exists stats1, t. split; [reflexivity|].
    rewrite Hhigh, Hother, Hadded, app_nil_r. simpl.
    apply Nat.ltb_ge in Hlen.
    assert (newTxns = []) as Hnil by (destruct newTxns; [reflexivity|simpl in Hlen; lia]).
    rewrite Hnil. simpl. repeat split; auto; try lia.
Qed.

(** What becomes of the trace up to the loading of the hashes. *)
Lemma saveTransactions_opening txns t :
  (exists e t',
     saveTransactions config sheet txns t = (Throw e, t')
     /\ (getDoc sheet <> Normal tt
         \/ sheetsByTitle sheet (worksheetName config) = false
         \/ loadHeaderRow sheet <> Normal tt)
     /\ reads t' = reads t /\ appended t' = appended t
     /\ deprecations t' = deprecations t
     /\ (exists more, statuses t' = statuses t ++ "Getting doc" :: more)
     /\ (sentErrors t' = sentErrors t
         \/ exists reason,
              loadHeaderRow sheet = Throw reason
              /\ e = "Failed to load header row: " +:+ reason
              /\ sentErrors t'
                 = sentErrors t
                   ++ [{| reported := reason;
                          context :=
                            Literal "GoogleSheetsStorage::loadHeaderRow" |}]))
  \/ (exists t1,
        getDoc sheet = Normal tt
        /\ sheetsByTitle sheet (worksheetName config) = true
        /\ loadHeaderRow sheet = Normal tt
        /\ reads t1 = reads t /\ appended t1 = appended t
        /\ deprecations t1 = deprecations t
        /\ sentErrors t1 = sentErrors t
        /\ saveTransactions config sheet txns t
           = (existingHashes <~ loadHashes sheet ;;
              saveNew config sheet existingHashes txns) t1).
Proof.
  unfold saveTransactions, bind, lift, onProgress, assert.
  simpl.
  destruct (getDoc sheet) as [[]|e] eqn:Edoc.
  - destruct (sheetsByTitle sheet (worksheetName config)) eqn:Esheet.
    + simpl. destruct (loadHeaderRow sheet) as [[]|reason] eqn:Eheader.
      * right.
        exists {| statuses :=
                    ((statuses t ++ ["Getting doc"])
                     ++ ["Getting sheet " +:+ worksheetName config])
                    ++ ["Loading header row"];
                  sentErrors := sentErrors t; deprecations := deprecations t;
                  reads := reads t; appended := appended t |}.
        repeat split; reflexivity.
      * left. eexists _, _. split; [reflexivity|]. simpl.
        split; [right; right; discriminate|].
        repeat split; auto.
        -- eexists. rewrite <- !app_assoc. reflexivity.
        -- right. exists reason. auto.
    + left. eexists _, _. split; [reflexivity|]. simpl.
      split; [auto|]. repeat split; auto.
      eexists. rewrite <- !app_assoc. reflexivity.
  - left. eexists _, _. split; [reflexivity|]. simpl.
    split; [left; discriminate|]. repeat split; auto.
    eexists. reflexivity.
Qed.

(** X12.  When none of the first 26 headers of the sheet is "hash",
    [loadHashes] throws before it asks the sheet for anything: no cell is
    requested and no progress is announced.  The message tells a missing
    column from one beyond the letter Z. *)
Theorem hash_column_must_be_among_the_first_26 (t : Trace) :
  "hash" ∉ take 26 (headerValues sheet) ->
  loadHashes sheet t
  = (Throw (if bool_decide ("hash" ∈ headerValues sheet)
            then "Currently only supports single letter columns"
            else "Hash column not found"), t).
Proof.
  intros Hnot. unfold loadHashes.
  destruct (indexOf "hash" (headerValues sheet)) as [c|] eqn:E.
  - destruct (indexOf_Some _ _ _ E) as [Hc _].
    rewrite bool_decide_eq_true_2 by (apply list_elem_of_lookup; eauto).
    destruct (c <? 26)%nat eqn:Hlt; [|reflexivity].
    apply Nat.ltb_lt in Hlt. destruct Hnot.
    apply list_elem_of_lookup. exists c. by rewrite lookup_take_lt.
  - apply indexOf_None in E. by rewrite bool_decide_eq_false_2.
Qed.

(** X13.  Otherwise [loadHashes] asks once for the cells of the column under
    the first header named "hash", from row 2 downwards, the column being
    named by its capital letter.  A fulfilled request yields the set of the
    cells of the first column returned (the empty set when the answer is not
    an array or holds no column) after one progress call; a rejected one
    makes [loadHashes] throw after a second progress call. *)
Theorem hashes_are_read_from_the_first_hash_column (t : Trace) (c : nat) :
  headerValues sheet !! c = Some "hash" ->
  (forall j, (j < c)%nat -> headerValues sheet !! j <> Some "hash") ->
  (c < 26)%nat ->
  exists letter range,
    (65 <= Ascii.nat_of_ascii letter <= 90)%nat
    /\ Ascii.nat_of_ascii letter = (65 + c)%nat
    /\ range = String letter "2:" +:+ String letter ""
    /\ let told := "Loading hashes (" +:+ range +:+ ")" in
       let t' := snd (loadHashes sheet t) in
       reads t' = S (reads t)
       /\ appended t' = appended t
       /\ sentErrors t' = sentErrors t
       /\ match getCellsInRange sheet (reads t) range with
          | Normal cells =>
              exists hashes,
                fst (loadHashes sheet t) = Normal hashes
                /\ statuses t' = statuses t ++ [told]
                /\ forall k,
                     k ∈ hashes
                     <-> exists column others,
                           cells = Some (column :: others) /\ k ∈ column
          | Throw reason =>
              fst (loadHashes sheet t)
              = Throw ("Loading hashes failed: " +:+ reason)
              /\ statuses t'
                 = statuses t
                   ++ [told; "Loading hashes failed: " +:+ reason]
          end.
Proof.
  intros Hc Hfirst Hlt.
  exists (Ascii.ascii_of_nat (65 + c)). eexists.
  rewrite Ascii.nat_ascii_embedding by lia.
  split; [lia|]. split; [reflexivity|]. split; [reflexivity|].
  unfold loadHashes. rewrite (indexOf_first _ _ _ Hc Hfirst).
  apply Nat.ltb_lt in Hlt. rewrite Hlt. cbv beta iota zeta.
  generalize (Ascii.ascii_of_nat (65 + c)). intros letter.
  unfold bind, assert, requestCells, onProgress, ret, throw.
  destruct (getCellsInRange sheet (reads t) _)
    as [[[|column others]|]|reason]; simpl.
  - do 3 (split; [reflexivity|]).
    eexists; split; [reflexivity|]; split; [reflexivity|]. intros k.
    split; [set_solver|]. by intros (? & ? & ? & _).
  - do 3 (split; [reflexivity|]).
    eexists; split; [reflexivity|]; split; [reflexivity|]. intros k.
    rewrite elem_of_list_to_set. split.
    + intros Hk. by exists column, others.
    + by intros (? & ? & [= <- <-] & Hk).
  - do 3 (split; [reflexivity|]).
    eexists; split; [reflexivity|]; split; [reflexivity|]. intros k.
    split; [set_solver|]. by intros (? & ? & ? & _).
  - rewrite <- app_assoc. by repeat split.
Qed.

(** X14.  When the document cannot be loaded, the worksheet is missing or
    its header row fails to load, [saveTransactions] rejects without having
    read a cell, added a row or sent a deprecation notice.  A document that
    cannot be loaded rejects with its own error after "Getting doc" was
    announced; a missing worksheet rejects with "Sheet <name> not found"
    after the sheet was announced too; neither reports anything on the
    error channel.  A header row that fails to load is reported on the
    error channel exactly once, under "GoogleSheetsStorage::loadHeaderRow",
    then announced as failed, and the call rejects with "Failed to load
    header row: <reason>". *)
Theorem nothing_is_read_or_added_unless_the_header_row_loads
    (txns : list Obj) (t : Trace) :
  getDoc sheet <> Normal tt
  \/ sheetsByTitle sheet (worksheetName config) = false
  \/ loadHeaderRow sheet <> Normal tt ->
  exists e t',
    saveTransactions config sheet txns t = (Throw e, t')
    /\ reads t' = reads t /\ appended t' = appended t
    /\ deprecations t' = deprecations t
    /\ match getDoc sheet with
       | Throw reason =>
           e = reason
           /\ statuses t' = statuses t ++ ["Getting doc"]
           /\ sentErrors t' = sentErrors t
       | Normal _ =>
           if sheetsByTitle sheet (worksheetName config) then
             exists reason,
               loadHeaderRow sheet = Throw reason
               /\ e = "Failed to load header row: " +:+ reason
               /\ statuses t'
                  = statuses t
                    ++ ["Getting doc";
                        "Getting sheet " +:+ worksheetName config;
                        "Loading header row";
                        "Loading header row failed: " +:+ reason]
               /\ sentErrors t'
                  = sentErrors t
                    ++ [{| reported := reason;
                           context :=
                             Literal "GoogleSheetsStorage::loadHeaderRow" |}]
           else
             e = "Sheet " +:+ worksheetName config +:+ " not found"
             /\ statuses t'
                = statuses t
                  ++ ["Getting doc"; "Getting sheet " +:+ worksheetName config]
             /\ sentErrors t' = sentErrors t
       end.
Proof.
  intros Hwhy.
  unfold saveTransactions, bind, lift, onProgress, assert. simpl.
  destruct (getDoc sheet) as [[]|e] eqn:Edoc.
  - destruct (sheetsByTitle sheet (worksheetName config)) eqn:Esheet.
    + simpl. destruct (loadHeaderRow sheet) as [[]|reason] eqn:Eheader.
      * destruct Hwhy as [Hw|[Hw|Hw]]; congruence.
      * eexists _, _. split; [reflexivity|]. simpl.
        do 3 (split; [reflexivity|]). exists reason.
        split; [reflexivity|]. split; [reflexivity|].
        split; [|reflexivity]. by rewrite <- !app_assoc.
    + eexists _, _. split; [reflexivity|]. simpl.
      do 3 (split; [reflexivity|]). split; [reflexivity|].
      split; [|reflexivity]. by rewrite <- !app_assoc.
  - eexists _, _. split; [reflexivity|]. simpl. by repeat split.
Qed.

(** X15.  The statistics of a call that resolves account for the
    transactions it was given: the counts are not negative and add up to no
    more than their number, the highlighted transactions are those the
    filter kept, in their order, and each of them is counted either as
    added or, after a failed request, as skipped. *)
Theorem sheet_statistics_account_for_the_rows_given
    (txns : list Obj) (t t' : Trace) (stats : SaveStats) :
  saveTransactions config sheet txns t = (Normal stats, t') ->
  0 <= added stats /\ 0 <= existing stats /\ 0 <= otherSkipped stats
  /\ added stats + existing stats + otherSkipped stats
     <= Z.of_nat (length txns)
  /\ highlightedAdded stats `sublist_of` txns
  /\ added stats + otherSkipped stats
     = Z.of_nat (length (highlightedAdded stats))
  /\ (addRows sheet
        (map (tableRow (bool_decide ("raw" ∈ headerValues sheet)))
             (highlightedAdded stats))
      = Normal tt -> otherSkipped stats = 0)
  /\ statsName stats = "Google Sheets"
  /\ table stats = worksheetName config.
Proof.
  intros E.
  destruct (saveTransactions_opening txns t)
    as [(e & t0 & E0 & _)|(t1 & _ & _ & _ & Hr1 & Ha1 & _ & _ & E1)];
    [congruence|].
  rewrite E1 in E. unfold bind in E.
  destruct (loadHashes sheet t1) as [[hashes|e] t2] eqn:Eload;
    [|discriminate].
  destruct (saveNew_account hashes txns t2)
    as (stats' & t3 & E3 & Hname & Htable & Hhigh & Hother & Hsum & Hok
        & Hex & _).
  rewrite E3 in E. injection E as -> ->.
  pose proof (filter_sublist (selected config hashes) txns) as Hsub.
  assert (length (List.filter (selected config hashes) txns)
          + length (List.filter (counted config hashes) txns)
          <= length txns)%nat as Hdisjoint.
  { clear. induction txns as [|tx txns IH]; simpl; [lia|].
    pose proof (GoogleSheetsFacts.counted_not_selected config hashes tx).
    destruct (selected config hashes tx), (counted config hashes tx);
      simpl; try lia; by destruct H. }
  rewrite Hhigh. repeat split; auto; try lia.
Qed.

(** X16.  Whatever the sheet answers, one call of [saveTransactions] asks
    it at most once to add rows, and never to add none; the deprecation
    notice is sent exactly when rows are added under a hash type other than
    "moneyman"; and the hashes are requested at most twice, the second time
    only after the request to add rows was rejected. *)
Theorem sheet_is_asked_at_most_once_to_add_rows
    (txns : list Obj) (t : Trace) :
  let t' := snd (saveTransactions config sheet txns t) in
  exists batch,
    appended t' = appended t ++ batch
    /\ (length batch <= 1)%nat
    /\ Forall (fun rows => rows <> []) batch
    /\ deprecations t'
       = deprecations t
         ++ (if moneyman config then []
             else map (fun _ => "hashFiledChange") batch)
    /\ (reads t <= reads t' <= 2 + reads t)%nat
    /\ (reads t' = (2 + reads t)%nat ->
        exists rows reason,
          batch = [rows] /\ addRows sheet rows = Throw reason).
Proof.
  intros t'. subst t'.
  assert (forall xs : list string,
            xs ++ (if moneyman config then []
                   else map (fun _ => "hashFiledChange") (@nil (list TableRow)))
            = xs ++ []) as Hnone by (by destruct (moneyman config)).
  destruct (saveTransactions_opening txns t)
    as [(e & t0 & E0 & _ & Hr0 & Ha0 & Hd0 & _)
       |(t1 & _ & _ & _ & Hr1 & Ha1 & Hd1 & _ & E1)].
  - rewrite E0. simpl. exists []. rewrite Hnone, !app_nil_r, Hr0.
    repeat split; auto; try lia.
  - rewrite E1. unfold bind.
    pose proof (GoogleSheetsFacts.loadHashes_appended sheet t1) as Happ.
    pose proof (loadHashes_reads t1) as (Hle & Hge & Hdep & _).
    destruct (loadHashes sheet t1) as [[hashes|e] t2]; simpl in *.
    + destruct (saveNew_account hashes txns t2)
        as (stats & t3 & E3 & _ & _ & _ & _ & _ & _ & _ & Hdep3 & _
            & Hreads & Hfailed).
      destruct (saveNew_spec config sheet hashes txns t2)
        as (stats' & t3' & E3' & Hrows & _).
      rewrite E3 in E3'. injection E3' as <- <-. rewrite E3. simpl.
      set (newTxns := List.filter (selected config hashes) txns) in *.
      exists (if (0 <? length newTxns)%nat
              then [map (tableRow (bool_decide ("raw" ∈ headerValues sheet)))
                      newTxns]
              else []).
      rewrite Hrows, Happ, Ha1, Hdep3, Hdep, Hd1.
      split; [reflexivity|].
      split; [destruct (0 <? length newTxns)%nat; simpl; lia|].
      split.
      { destruct (0 <? length newTxns)%nat eqn:Hlen; constructor;
          [|constructor].
        apply Nat.ltb_lt in Hlen.
        destruct newTxns; simpl in *; [lia|discriminate]. }
      split.
      { by destruct (0 <? length newTxns)%nat, (moneyman config). }
      split; [lia|]. intros Hboth.
      destruct Hfailed as (Hlen & reason & Hthrow); [lia|].
      rewrite Hlen. eauto.
    + exists []. rewrite Hnone, Happ, Ha1, Hdep, Hd1, !app_nil_r.
      repeat split; auto; try lia.
Qed.

Lemma has_subseteq (H1 H2 : gset string) v :
  H1 ⊆ H2 -> has H1 v = true -> has H2 v = true.
Proof.
  intros Hsub. destruct v as [|k|z]; simpl; try discriminate.
  intros Hk. apply bool_decide_eq_true in Hk.
  apply bool_decide_eq_true. set_solver.
Qed.

(** X17.  The more hashes the sheet holds, the fewer transactions are new:
    the transactions the filter keeps against a set of hashes are among
    those it keeps against any smaller set, in the same order. *)
Theorem more_hashes_never_make_a_transaction_new
    (H1 H2 : gset string) (txns : list Obj) (stats : SaveStats) :
  H1 ⊆ H2 ->
  fst (filterCounting (isNew config H2) txns stats)
  `sublist_of` fst (filterCounting (isNew config H1) txns stats).
Proof.
  intros Hsub.
  destruct (GoogleSheetsFacts.filterCounting_spec config H1 txns stats)
    as (s1 & -> & _).
  destruct (GoogleSheetsFacts.filterCounting_spec config H2 txns stats)
    as (s2 & -> & _).
  simpl. apply filter_sublist_impl. intros tx.
  unfold selected, keyPresent. rewrite !andb_true_iff, !negb_true_iff.
  intros [Hkey Hpending]. split; [|exact Hpending].
  apply orb_false_iff in Hkey. destruct Hkey as [Hu Hh].
  apply orb_false_iff. split.
  - destruct (moneyman config); [|reflexivity]. simpl in *.
    destruct (has H1 (prop tx "uniqueId")) eqn:E; [|reflexivity].
    by rewrite (has_subseteq _ _ _ Hsub E) in Hu.
  - destruct (has H1 (prop tx "hash")) eqn:E; [|reflexivity].
    by rewrite (has_subseteq _ _ _ Hsub E) in Hh.
Qed.

End MoreSheetsFacts.

(** The same on a sample input. *)
Lemma hash_column_must_be_among_the_first_26_witness :
  ("hash" ∉ take 26
              (GoogleSheetsStorage.headerValues Examples.sheetWithoutHash))
  /\ GoogleSheetsStorage.loadHashes Examples.sheetWithoutHash
       GoogleSheetsStorage.emptyTrace
     = (Throw (if bool_decide
                    ("hash" ∈ GoogleSheetsStorage.headerValues
                                Examples.sheetWithoutHash)
               then "Currently only supports single letter columns"
               else "Hash column not found"),
        GoogleSheetsStorage.emptyTrace).
Proof.
  assert ("hash" ∉ take 26
                     (GoogleSheetsStorage.headerValues
                        Examples.sheetWithoutHash)) as Hnot.
  { cbn. intros Hin.
    repeat (apply elem_of_cons in Hin as [Hin|Hin]; [discriminate|]).
    by apply elem_of_nil in Hin. }
  split; [exact Hnot|].
  by apply hash_column_must_be_among_the_first_26.
Defined.

(** The same on a sample input. *)
Lemma hashes_are_read_from_the_first_hash_column_witness :
  GoogleSheetsStorage.headerValues Samples.sheetWithU2 !! 1%nat = Some "hash"
  /\ (forall j, (j < 1)%nat ->
      GoogleSheetsStorage.headerValues Samples.sheetWithU2 !! j
      <> Some "hash")
  /\ (1 < 26)%nat
  /\ exists letter range,
       (65 <= Ascii.nat_of_ascii letter <= 90)%nat
       /\ Ascii.nat_of_ascii letter = (65 + 1)%nat
       /\ range = String letter "2:" +:+ String letter ""
       /\ let told := "Loading hashes (" +:+ range +:+ ")" in
          let t' :=
            snd (GoogleSheetsStorage.loadHashes Samples.sheetWithU2
                   GoogleSheetsStorage.emptyTrace) in
          GoogleSheetsStorage.reads t'
          = S (GoogleSheetsStorage.reads GoogleSheetsStorage.emptyTrace)
          /\ GoogleSheetsStorage.appended t'
             = GoogleSheetsStorage.appended GoogleSheetsStorage.emptyTrace
          /\ GoogleSheetsStorage.sentErrors t'
             = GoogleSheetsStorage.sentErrors GoogleSheetsStorage.emptyTrace
          /\ match GoogleSheetsStorage.getCellsInRange Samples.sheetWithU2
                     (GoogleSheetsStorage.reads
                        GoogleSheetsStorage.emptyTrace) range with
             | Normal cells =>
                 exists hashes,
                   fst (GoogleSheetsStorage.loadHashes Samples.sheetWithU2
                          GoogleSheetsStorage.emptyTrace) = Normal hashes
                   /\ GoogleSheetsStorage.statuses t'
                      = GoogleSheetsStorage.statuses
                          GoogleSheetsStorage.emptyTrace ++ [told]
                   /\ forall k,
                        k ∈ hashes
                        <-> exists column others,
                              cells = Some (column :: others) /\ k ∈ column
             | Throw reason =>
                 fst (GoogleSheetsStorage.loadHashes Samples.sheetWithU2
                        GoogleSheetsStorage.emptyTrace)
                 = Throw ("Loading hashes failed: " +:+ reason)
                 /\ GoogleSheetsStorage.statuses t'
                    = GoogleSheetsStorage.statuses
                        GoogleSheetsStorage.emptyTrace
                      ++ [told; "Loading hashes failed: " +:+ reason]
             end.
Proof.
  assert (forall j, (j < 1)%nat ->
          GoogleSheetsStorage.headerValues Samples.sheetWithU2 !! j
          <> Some "hash") as Hfirst.
  { intros [|j] Hj; [discriminate|lia]. }
  split; [reflexivity|]. split; [exact Hfirst|]. split; [lia|].
  apply hashes_are_read_from_the_first_hash_column;
    [reflexivity|exact Hfirst|lia].
Defined.

(** The same on a sample input. *)
Lemma nothing_is_read_or_added_unless_the_header_row_loads_witness :
  (GoogleSheetsStorage.getDoc Examples.withoutHeaderRow <> Normal tt
   \/ GoogleSheetsStorage.sheetsByTitle Examples.withoutHeaderRow
        (GoogleSheetsStorage.worksheetName Samples.olderHashType) = false
   \/ GoogleSheetsStorage.loadHeaderRow Examples.withoutHeaderRow
      <> Normal tt)
  /\ exists e t',
       GoogleSheetsStorage.saveTransactions Samples.olderHashType
         Examples.withoutHeaderRow
         [Samples.keyed "h1" "u1" "completed"] GoogleSheetsStorage.emptyTrace
       = (Throw e, t')
       /\ GoogleSheetsStorage.reads t'
          = GoogleSheetsStorage.reads GoogleSheetsStorage.emptyTrace
       /\ GoogleSheetsStorage.appended t'
          = GoogleSheetsStorage.appended GoogleSheetsStorage.emptyTrace
       /\ GoogleSheetsStorage.deprecations t'
          = GoogleSheetsStorage.deprecations GoogleSheetsStorage.emptyTrace
       /\ match GoogleSheetsStorage.getDoc Examples.withoutHeaderRow with
          | Throw reason =>
              e = reason
              /\ GoogleSheetsStorage.statuses t'
                 = GoogleSheetsStorage.statuses GoogleSheetsStorage.emptyTrace
                   ++ ["Getting doc"]
              /\ GoogleSheetsStorage.sentErrors t'
                 = GoogleSheetsStorage.sentErrors
                     GoogleSheetsStorage.emptyTrace
          | Normal _ =>
              if GoogleSheetsStorage.sheetsByTitle Examples.withoutHeaderRow
                   (GoogleSheetsStorage.worksheetName Samples.olderHashType)
              then
                exists reason,
                  GoogleSheetsStorage.loadHeaderRow Examples.withoutHeaderRow
                  = Throw reason
                  /\ e = "Failed to load header row: " +:+ reason
                  /\ GoogleSheetsStorage.statuses t'
                     = GoogleSheetsStorage.statuses
                         GoogleSheetsStorage.emptyTrace
                       ++ ["Getting doc";
                           "Getting sheet "
                           +:+ GoogleSheetsStorage.worksheetName
                                 Samples.olderHashType;
                           "Loading header row";
                           "Loading header row failed: " +:+ reason]
                  /\ GoogleSheetsStorage.sentErrors t'
                     = GoogleSheetsStorage.sentErrors
                         GoogleSheetsStorage.emptyTrace
                       ++ [{| reported := reason;
                              context :=
                                Literal "GoogleSheetsStorage::loadHeaderRow"
                           |}]
              else
                e = "Sheet "
                    +:+ GoogleSheetsStorage.worksheetName
                          Samples.olderHashType
                    +:+ " not found"
                /\ GoogleSheetsStorage.statuses t'
                   = GoogleSheetsStorage.statuses
                       GoogleSheetsStorage.emptyTrace
                     ++ ["Getting doc";
                         "Getting sheet "
                         +:+ GoogleSheetsStorage.worksheetName
                               Samples.olderHashType]
                /\ GoogleSheetsStorage.sentErrors t'
                   = GoogleSheetsStorage.sentErrors
                       GoogleSheetsStorage.emptyTrace
          end.
Proof.
  split; [right; right; discriminate|].
  apply nothing_is_read_or_added_unless_the_header_row_loads.
  right. right. discriminate.
Defined.

(** The same on a sample input. *)
Lemma sheet_statistics_account_for_the_rows_given_witness :
  let txns := [Samples.keyed "h2" "u2" "completed";
               Samples.keyed "u2" "u3" "completed";
               Samples.keyed "h4" "u4" "pending"] in
  let call :=
    GoogleSheetsStorage.saveTransactions Samples.olderHashType
      Samples.sheetWithU2 txns GoogleSheetsStorage.emptyTrace in
  let stats :=
    match fst call with
    | Normal stats => stats
    | Throw _ => GoogleSheetsStorage.createSaveStats "" ""
    end in
  call = (Normal stats, snd call)
  /\ (added stats, existing stats, otherSkipped stats) = (1, 1, 0)
  /\ (0 <= added stats /\ 0 <= existing stats /\ 0 <= otherSkipped stats
      /\ added stats + existing stats + otherSkipped stats
         <= Z.of_nat (length txns)
      /\ highlightedAdded stats `sublist_of` txns
      /\ added stats + otherSkipped stats
         = Z.of_nat (length (highlightedAdded stats))
      /\ (GoogleSheetsStorage.addRows Samples.sheetWithU2
            (map (GoogleSheetsStorage.tableRow
                    (bool_decide
                       ("raw" ∈ GoogleSheetsStorage.headerValues
                                  Samples.sheetWithU2)))
                 (highlightedAdded stats))
          = Normal tt -> otherSkipped stats = 0)
      /\ statsName stats = "Google Sheets"
      /\ table stats
         = GoogleSheetsStorage.worksheetName Samples.olderHashType).
Proof.
  intros txns call stats.
  assert (call = (Normal stats, snd call)) as E by (vm_compute; reflexivity).
  split; [exact E|]. split; [vm_compute; reflexivity|].
  exact (sheet_statistics_account_for_the_rows_given Samples.olderHashType
           Samples.sheetWithU2 txns GoogleSheetsStorage.emptyTrace (snd call)
           stats E).
Defined.

(** The same on a sample input. *)
Lemma more_hashes_never_make_a_transaction_new_witness :
  let txns := [Samples.keyed "h1" "u1" "completed";
               Samples.keyed "h2" "u2" "completed"] in
  let stats := GoogleSheetsStorage.createSaveStats "Google Sheets" "" in
  (∅ : gset string) ⊆ {["h1"]}
  /\ fst (GoogleSheetsStorage.filterCounting
            (GoogleSheetsStorage.isNew Samples.olderHashType {["h1"]})
            txns stats)
     `sublist_of`
     fst (GoogleSheetsStorage.filterCounting
            (GoogleSheetsStorage.isNew Samples.olderHashType ∅) txns stats).
Proof.
  intros txns stats.
  assert ((∅ : gset string) ⊆ {["h1"]}) as Hsub by set_solver.
  split; [exact Hsub|].
  by apply more_hashes_never_make_a_transaction_new.
Defined.
(** ** More on the earlier revision *)

Section MoreEarlierFacts.
Context `{Deriver} `{InvoiceService}.

Lemma derivable_rowOf it : derivable it = true -> exists row, rowOf it = Some row.
Proof.
  destruct it as [[c a] tx]. unfold derivable, rowOf.
  destruct (keysOf (c, a, tx)) as [[h u]|e]; [eauto|discriminate].
Qed.

Lemma derivable_failureOf it : derivable it = true -> failureOf it = None.
Proof.
  destruct it as [[c a] tx]. unfold derivable, failureOf.
  by destruct (keysOf (c, a, tx)) as [[h u]|e].
Qed.

(** Raw transactions whose keys can all be derived leave one row each and
    no diagnostic. *)
Lemma normalized_derivable items w :
  forallb derivable items = true ->
  length (heap (normalized items w)) = (length (heap w) + length items)%nat
  /\ reports (normalized items w) = reports w.
Proof.
  intros Hall. unfold normalized. simpl. rewrite length_app.
  assert (length (omap rowOf items) = length items
          /\ omap failureOf items = []) as [-> ->].
  { induction items as [|it items IH]; [auto|].
    simpl in Hall. apply andb_true_iff in Hall. destruct Hall as [Hit Hall].
    destruct (IH Hall) as [IH1 IH2].
    destruct (derivable_rowOf it Hit) as [row Hrow].
    change (omap rowOf (it :: items))
      with (match rowOf it with
            | Some y => y :: omap rowOf items
            | None => omap rowOf items
            end).
    change (omap failureOf (it :: items))
      with (match failureOf it with
            | Some y => y :: omap failureOf items
            | None => omap failureOf items
            end).
    rewrite Hrow, (derivable_failureOf it Hit). simpl. auto. }
  by rewrite app_nil_r.
Qed.

(** X10.  The earlier revision has no [try] around the derivation of the
    keys: the first raw transaction whose hash or unique id cannot be
    derived makes [saveResults] reject with the derivation's error.  Rows
    were built for the transactions before it, but no message was sent, no
    error was reported and no backend was invoked. *)
Theorem earlier_revision_loses_the_run_to_one_malformed_transaction
    (storages : list TransactionStorage) (results : list AccountScrapeResult)
    (before after : list Item) (it : Item) (e : Error)
    (schedule : list nat) (w : World) :
  storages <> [] ->
  rawItems results = before ++ it :: after ->
  forallb derivable before = true ->
  keysOf it = Throw e ->
  exists w',
    Earlier.saveResults storages results schedule w = (Throw e, w')
    /\ length (heap w') = (length (heap w) + length before)%nat
    /\ chat w' = chat w
    /\ reports w' = reports w
    /\ invocations w' = invocations w.
Proof.
  intros Hs Hitems Hbefore Hthrow. exists (normalized before w).
  split; [by eapply earlier_saveResults_rejects|].
  destruct (normalized_derivable before w Hbefore) as [Hlen Hrep].
  auto.
Qed.


End MoreEarlierFacts.

(** The same on a sample input. *)
Lemma earlier_revision_loses_the_run_to_one_malformed_transaction_witness :
  let it := ("hapoalim", "123", Samples.undated 30 "fuel") in
  [Samples.echoing] <> []
  /\ rawItems Samples.oneUndated = [] ++ it :: []
  /\ forallb (@derivable sampleDeriver) [] = true
  /\ @keysOf sampleDeriver it = Throw MalformedTransactionError
  /\ exists w',
       @Earlier.saveResults sampleDeriver Samples.noService
         [Samples.echoing] Samples.oneUndated [0; 0; 0; 0; 0]%nat emptyWorld
       = (Throw MalformedTransactionError, w')
       /\ length (heap w') = (length (heap emptyWorld) + 0)%nat
       /\ chat w' = chat emptyWorld
       /\ reports w' = reports emptyWorld
       /\ invocations w' = invocations emptyWorld.
Proof.
  intros it.
  assert (@keysOf sampleDeriver it = Throw MalformedTransactionError) as Hk
    by (vm_compute; reflexivity).
  split; [discriminate|]. split; [reflexivity|]. split; [reflexivity|].
  split; [exact Hk|].
  apply (@earlier_revision_loses_the_run_to_one_malformed_transaction
           sampleDeriver Samples.noService [Samples.echoing]
           Samples.oneUndated [] [] it);
    [discriminate|reflexivity|reflexivity|exact Hk].
Defined.

(** ** The ledger of the fan-out *)

Lemma about_app m xs ys : about m (xs ++ ys) = about m xs ++ about m ys.
Proof. unfold about. apply List.filter_app. Qed.

Lemma about_other m evs :
  Forall (fun ev => handleOf ev <> m) evs -> about m evs = [].
Proof.
  induction 1 as [|ev evs Hev _ IH]; [reflexivity|].
  unfold about in *. simpl. rewrite IH.
  by destruct (Nat.eqb_spec (handleOf ev) m).
Qed.

Lemma omap_cons_option_list {A B} (f : A -> option B) x xs :
  omap f (x :: xs) = option_list (f x) ++ omap f xs.
Proof. simpl. by destruct (f x). Qed.

(** Replacing one element changes what a pool has caused by what the
    element has caused more. *)
Lemma omap_insert_more {A B} (f : A -> option B) (xs : list A) i x y more :
  xs !! i = Some x ->
  option_list (f y) = option_list (f x) ++ more ->
  omap f (<[i := y]> xs) ≡ₚ omap f xs ++ more.
Proof.
  revert i. induction xs as [|z xs IH]; intros [|i] Hi Hmore;
    try discriminate.
  - injection Hi as ->.
    change (<[0%nat := y]> (x :: xs)) with (y :: xs).
    rewrite !omap_cons_option_list, Hmore, <- !app_assoc.
    f_equiv. apply Permutation_app_comm.
  - simpl in Hi. specialize (IH i Hi Hmore).
    change (<[S i := y]> (z :: xs)) with (z :: <[i := y]> xs).
    by rewrite !omap_cons_option_list, IH, app_assoc.
Qed.

Section LedgerFacts.
Variable allTransactions : list loc.
Variable h : list Obj.
Variable base : nat.

Local Abbreviation tInv := (taskInv allTransactions h base).
Local Abbreviation tdInv := (threadInv allTransactions h).

(** A thread is not touched by what is posted about other messages. *)
Lemma threadInv_frame n0 w w' t om evs :
  (n0 <= length (chat w))%nat ->
  chat w' = chat w ++ evs ->
  Forall (fun ev => Some (handleOf ev) <> om) evs ->
  tdInv n0 w t om -> tdInv n0 w' t om.
Proof.
  intros Hn0 Hchat Hevs. destruct om as [m|]; [|done].
  intros (Hm & Hph & Hh & Hth). unfold threadInv.
  rewrite Hchat, drop_app_le, about_app, length_app by exact Hn0.
  rewrite (about_other m evs), app_nil_r.
  - repeat split; auto; lia.
  - eapply Forall_impl; [exact Hevs|]. intros ev Hev. simpl in Hev. congruence.
Qed.

(** One turn of a task, on the three channels. *)
Lemma taskStep_ledger n0 t w om :
  heap w = h -> tInv w t -> (n0 <= length (chat w))%nat ->
  tdInv n0 w t om ->
  about (length (chat w)) (drop n0 (chat w)) = [] ->
  exists t' w' evs rs cs,
    taskStep allTransactions t w = (Normal t', w')
    /\ chat w' = chat w ++ evs
    /\ reports w' = reports w ++ rs
    /\ invocations w' = invocations w ++ cs
    /\ option_list (reportOf allTransactions h t')
       = option_list (reportOf allTransactions h t) ++ rs
    /\ option_list (callOf allTransactions t')
       = option_list (callOf allTransactions t) ++ cs
    /\ Forall (fun ev => handleOf ev = default (length (chat w)) om) evs
    /\ tdInv n0 w' t' (Some (default (length (chat w)) om)).
Proof.
  intros Hh Hinv Hn0 Hth Hfresh. destruct t as [i s ph st].
  unfold taskInv, announced in Hinv. simpl in Hinv.
  destruct ph as [|m|m start todo o|].
  - (* Created *)
    destruct om as [m|]; [by destruct Hth as (_ & Hph & _)|].
    eexists _, _, [_], [], []. split; [reflexivity|]. simpl.
    rewrite !app_nil_r. do 3 (split; [reflexivity|]).
    split; [reflexivity|]. split; [reflexivity|].
    split; [by repeat constructor|].
    unfold threadInv. simpl. rewrite length_app. simpl.
    split; [lia|]. split; [discriminate|].
    split; [by intros m' [= <-]|].
    rewrite drop_app_le, about_app, Hfresh by exact Hn0.
    exists [], []. unfold about. simpl. rewrite Nat.eqb_refl.
    by repeat split.
  - (* Announced *)
    destruct om as [m'|]; [|discriminate Hth].
    destruct Hth as (Hm & _ & Hhandle & Hthread).
    specialize (Hhandle m eq_refl). subst m'.
    destruct Hinv as (-> & Hi & Ha).
    eexists _, _, [], [], [_]. split; [reflexivity|]. simpl.
    rewrite !app_nil_r. do 3 (split; [reflexivity|]).
    split; [reflexivity|]. split; [reflexivity|].
    split; [constructor|].
    unfold threadInv. simpl.
    split; [exact Hm|]. split; [discriminate|].
    split; [by intros m' [= <-]|]. exact Hthread.
  - (* Saving *)
    destruct om as [m'|]; [|discriminate Hth].
    destruct Hth as (Hm & _ & Hhandle & Hthread).
    specialize (Hhandle m eq_refl). subst m'.
    destruct Hinv as (Ha & -> & Hn & Hs & Hi). subst h.
    unfold served, closedOf in Hthread. simpl in Hthread.
    destruct Hthread as (timelines & final & Eev & Hnames & ->).
    rewrite app_nil_r in Eev.
    destruct todo as [|step todo].
    + rewrite app_nil_r in Hn.
      destruct (settled (runOf allTransactions (heap w) s)) as [stats|e]
        eqn:Hset.
      * destruct (endLast_spec st (tick w)) as (st' & w1 & E & Hc & Hn' & Hw).
        { destruct Hs as [->|Ho]; [by left|right].
          eapply OpenTimeline_mono; [exact Ho|apply clock_tick]. }
        eexists _, _, [_], [], []. split.
        { unfold taskStep, segment, tryCatch, bind. simpl. rewrite ?Hset.
          simpl. unfold ret, now. rewrite E. reflexivity. }
        assert (chat w1 = chat w /\ reports w1 = reports w
                /\ invocations w1 = invocations w) as (Hc1 & Hr1 & Hi1)
          by (by destruct Hw as [->| ->]).
        simpl. rewrite Hc1, Hr1, Hi1, !app_nil_r.
        do 3 (split; [reflexivity|]).
        split; [unfold reportOf, rejectionOf; simpl; by rewrite Hset|].
        split; [reflexivity|].
        split; [by repeat constructor|].
        unfold threadInv. simpl. rewrite length_app. simpl.
        split; [lia|]. split; [discriminate|]. split; [discriminate|].
        rewrite drop_app_le, about_app, Eev by exact Hn0.
        unfold served, closedOf, resolves. simpl. rewrite Hset.
        assert (length st' = length st) as ->
          by (by rewrite <- (length_map name st'), Hn', length_map).
        rewrite Nat.eqb_refl.
        eexists timelines, [_]. split; [reflexivity|].
        split; [exact Hnames|].
        eexists _, _, _. split; [exact Hset|]. split; [reflexivity|].
        by rewrite Hn'.
      * eexists _, _, [], [_], []. split.
        { unfold taskStep, segment, tryCatch, bind. simpl. rewrite ?Hset.
          reflexivity. }
        simpl. rewrite !app_nil_r. do 3 (split; [reflexivity|]).
        split; [unfold reportOf, rejectionOf; simpl; by rewrite Hset|].
        split; [reflexivity|].
        split; [constructor|].
        unfold threadInv. simpl.
        split; [exact Hm|]. split; [discriminate|]. split; [discriminate|].
        rewrite Eev. unfold served, closedOf, resolves. simpl. rewrite Hset.
        exists timelines, []. rewrite app_nil_r. by repeat split.
    + destruct (onProgress_spec (constructorName s) m step st w Hs)
        as (st' & w1 & E & Hw & Ho & Hn').
      eexists _, _, [_], [], []. split.
      { unfold taskStep, segment, tryCatch, bind. simpl.
        rewrite E. reflexivity. }
      assert (chat w1 = chat w /\ reports w1 = reports w
              /\ invocations w1 = invocations w) as (Hc1 & Hr1 & Hi1)
        by (by destruct Hw as [->| ->]).
      simpl. rewrite Hc1, Hr1, Hi1, !app_nil_r.
      do 3 (split; [reflexivity|]).
      split; [reflexivity|]. split; [reflexivity|].
      split; [by repeat constructor|].
      unfold threadInv. simpl. rewrite length_app. simpl.
      split; [lia|]. split; [discriminate|].
      split; [by intros m' [= <-]|].
      rewrite drop_app_le, about_app, Eev by exact Hn0.
      unfold served, closedOf. simpl.
      assert (length st' = S (length st)) as ->.
      { rewrite <- (length_map name st'), Hn', length_app, length_map.
        simpl. lia. }
      rewrite Nat.eqb_refl.
      exists (timelines ++ [st']), []. rewrite app_nil_r, map_app.
      split; [reflexivity|].
      split; [|reflexivity].
      rewrite map_app, seq_S, map_app, Hnames. simpl. f_equal. f_equal.
      rewrite Hn', <- Hn.
      replace (S (length st)) with (length (map name st ++ [step]))
        by (rewrite length_app, length_map; simpl; lia).
      change (step :: todo) with ([step] ++ todo).
      by rewrite app_assoc, take_app_length.
  - (* Finished *)
    destruct om as [m|]; [|discriminate Hth].
    eexists _, _, [], [], []. split; [reflexivity|]. simpl.
    rewrite !app_nil_r. do 3 (split; [reflexivity|]).
    split; [reflexivity|]. split; [reflexivity|].
    split; [constructor|]. exact Hth.
Qed.

End LedgerFacts.

Lemma tasks_created storages :
  Forall (fun t => phase t = Created) (tasks storages).
Proof.
  apply Forall_lookup. intros i t Ht.
  by destruct (tasks_lookup_inv _ _ _ Ht) as (s & _ & ->).
Qed.

Section LedgerPoolFacts.
Variable allTransactions : list loc.
Variable storages : list TransactionStorage.
Variable w0 : World.

Local Abbreviation pInv :=
  (poolInv allTransactions (heap w0) (length (invocations w0)) storages).
Local Abbreviation books := (ledger allTransactions (heap w0) w0).

(** Every handle in the books is that of a message sent since the start. *)
Lemma ledger_handle_bound w pool handles k m :
  books w pool handles -> handles !! k = Some (Some m) ->
  (length (chat w0) <= m < length (chat w))%nat.
Proof.
  intros (_ & _ & _ & Hlen & Hth & _) Hk.
  destruct (lookup_lt_is_Some_2 pool k) as [t Ht].
  { rewrite <- Hlen. by apply lookup_lt_Some in Hk. }
  by destruct (Hth k t (Some m) Ht Hk) as (Hm & _).
Qed.

Lemma resume_ledger i pool w handles :
  pInv w pool -> books w pool handles ->
  exists pool' w' handles',
    resume allTransactions i pool w = (Normal pool', w')
    /\ pInv w' pool' /\ books w' pool' handles'.
Proof.
  intros Hinv Hbooks.
  destruct (resume_spec allTransactions (heap w0) (length (invocations w0))
              storages i pool w Hinv) as (pool' & w' & E & Hinv' & _).
  exists pool', w'.
  unfold resume in E |- *. destruct (pool !! i) as [t|] eqn:Hi.
  2: { injection E as <- <-. exists handles.
       split; [reflexivity|]. by split. }
  pose proof Hbooks
    as (Hc & Hr & Hv & Hlen & Hth & Hdist & Hmem & Hreps & Hcalls).
  destruct Hinv as (Hh & Hb & Hlenp & Hall).
  destruct (Hall i t Hi) as (_ & _ & Ht).
  destruct (lookup_lt_is_Some_2 handles i) as [om Hom].
  { rewrite Hlen. by apply lookup_lt_Some in Hi. }
  pose proof (prefix_length _ _ Hc) as Hn0.
  assert (about (length (chat w)) (drop (length (chat w0)) (chat w)) = [])
    as Hfresh.
  { apply about_other. eapply Forall_impl; [exact Hmem|].
    intros ev Hev. simpl in Hev.
    apply list_elem_of_lookup in Hev. destruct Hev as [k Hk].
    pose proof (ledger_handle_bound _ _ _ _ _ Hbooks Hk). lia. }
  destruct (taskStep_ledger allTransactions (heap w0)
              (length (invocations w0)) (length (chat w0)) t w om Hh Ht Hn0
              (Hth i t om Hi Hom) Hfresh)
    as (t' & w1 & evs & rs & cs & E1 & Ec & Er & Ev & Hrep & Hcall & Hevs
        & Hth').
  unfold bind in E. rewrite E1 in E. injection E as <- <-.
  set (m := default (length (chat w)) om) in *.
  exists (<[i := Some m]> handles).
  split; [unfold bind; by rewrite E1|]. split; [exact Hinv'|].
  assert (i < length pool)%nat as Hip by (by apply lookup_lt_Some in Hi).
  assert (i < length handles)%nat as Hih by lia.
  assert (forall k mk, k <> i -> handles !! k = Some (Some mk) -> mk <> m)
    as Hother.
  { intros k mk Hne Hk ->. subst m. destruct om as [m0|]; simpl in Hk.
    - apply Hne. by apply (Hdist k i m0).
    - pose proof (ledger_handle_bound _ _ _ _ _ Hbooks Hk). lia. }
  split; [rewrite Ec; by apply prefix_app_r|].
  split; [rewrite Er; by apply prefix_app_r|].
  split; [rewrite Ev; by apply prefix_app_r|].
  split; [by rewrite !length_insert|].
  split; [|split; [|split; [|split]]].
  - intros j tj omj Hj Hoj.
    destruct (decide (j = i)) as [->|Hne].
    + rewrite list_lookup_insert_eq in Hj by exact Hip.
      rewrite list_lookup_insert_eq in Hoj by exact Hih.
      injection Hj as <-. injection Hoj as <-. exact Hth'.
    + rewrite list_lookup_insert_ne in Hj by congruence.
      rewrite list_lookup_insert_ne in Hoj by congruence.
      eapply threadInv_frame; [exact Hn0|exact Ec| |by apply (Hth j)].
      eapply Forall_impl; [exact Hevs|]. intros ev Hev. simpl in Hev.
      destruct omj as [mj|]; [|discriminate].
      intros [= Heq]. apply (Hother j mj Hne Hoj). congruence.
  - intros a b ma Ha Hb'.
    destruct (decide (a = i)) as [->|Hna], (decide (b = i)) as [->|Hnb];
      [reflexivity| | |].
    + rewrite list_lookup_insert_eq in Ha by exact Hih.
      rewrite list_lookup_insert_ne in Hb' by congruence.
      injection Ha as <-. by destruct (Hother b m Hnb Hb').
    + rewrite list_lookup_insert_eq in Hb' by exact Hih.
      rewrite list_lookup_insert_ne in Ha by congruence.
      injection Hb' as <-. by destruct (Hother a m Hna Ha).
    + rewrite list_lookup_insert_ne in Ha, Hb' by congruence.
      by apply (Hdist a b ma).
  - rewrite Ec, drop_app_le by exact Hn0. apply Forall_app. split.
    + eapply Forall_impl; [exact Hmem|]. intros ev Hev. simpl in Hev.
      apply list_elem_of_lookup in Hev. destruct Hev as [k Hk].
      apply list_elem_of_lookup.
      destruct (decide (k = i)) as [->|Hne].
      * exists i. rewrite list_lookup_insert_eq by exact Hih.
        rewrite Hom in Hk. injection Hk as Hk. unfold m.
        by rewrite Hk.
      * exists k. by rewrite list_lookup_insert_ne by congruence.
    + eapply Forall_impl; [exact Hevs|]. intros ev Hev. simpl in Hev.
      apply list_elem_of_lookup. exists i.
      rewrite list_lookup_insert_eq by exact Hih. by rewrite Hev.
  - rewrite Er, drop_app_le by (by apply prefix_length).
    rewrite Hreps. symmetry. by apply omap_insert_more with (x := t).
  - rewrite Ev, drop_app_le by (by apply prefix_length).
    rewrite Hcalls. symmetry. by apply omap_insert_more with (x := t).
Qed.

Lemma schedule_ledger schedule pool w handles :
  pInv w pool -> books w pool handles ->
  exists pool' w' handles',
    forOf schedule (resume allTransactions) pool w = (Normal pool', w')
    /\ pInv w' pool' /\ books w' pool' handles'.
Proof.
  revert pool w handles.
  induction schedule as [|i schedule IH]; intros pool w handles Hinv Hbooks.
  - exists pool, w, handles. split; [reflexivity|]. by split.
  - destruct (resume_ledger i pool w handles Hinv Hbooks)
      as (pool1 & w1 & handles1 & E & Hinv1 & Hbooks1).
    destruct (IH pool1 w1 handles1 Hinv1 Hbooks1)
      as (pool2 & w2 & handles2 & E2 & Hinv2 & Hbooks2).
    exists pool2, w2, handles2. simpl. unfold bind. rewrite E.
    split; [exact E2|]. by split.
Qed.

End LedgerPoolFacts.

Lemma omap_all_None {A B} (f : A -> option B) xs :
  Forall (fun x => f x = None) xs -> omap f xs = [].
Proof.
  induction 1 as [|x xs Hx _ IH]; [reflexivity|].
  by rewrite omap_cons_option_list, Hx, IH.
Qed.

(** The books when the tasks were created: nothing was caused yet. *)
Lemma tasks_ledger allTransactions storages w :
  ledger allTransactions (heap w) w w (tasks storages)
    (replicate (length storages) None).
Proof.
  pose proof (tasks_created storages) as Hc.
  assert (length (tasks storages) = length storages) as Hlen
    by (unfold tasks; by rewrite length_imap).
  do 3 (split; [reflexivity|]).
  split; [by rewrite length_replicate|].
  split; [|split; [|split; [|split]]].
  - intros i t om Ht Hom. apply lookup_replicate in Hom as [-> _].
    rewrite Forall_lookup in Hc. exact (Hc i t Ht).
  - intros i j m Hi. by apply lookup_replicate in Hi as [? _].
  - by rewrite drop_all.
  - rewrite drop_all, omap_all_None; [reflexivity|].
    eapply Forall_impl; [exact Hc|]. intros t Ht. simpl.
    unfold reportOf. by rewrite Ht.
  - rewrite drop_all, omap_all_None; [reflexivity|].
    eapply Forall_impl; [exact Hc|]. intros t Ht. simpl.
    unfold callOf. by rewrite Ht.
Qed.

(** The books after the tasks ran under a schedule. *)
Lemma fanOut_ledger allTransactions storages schedule w :
  exists pool w' handles,
    fanOut allTransactions storages schedule w = (Normal pool, w')
    /\ poolInv allTransactions (heap w) (length (invocations w)) storages
         w' pool
    /\ ledger allTransactions (heap w) w w' pool handles.
Proof.
  unfold fanOut.
  apply (schedule_ledger allTransactions storages w schedule (tasks storages)
           w (replicate (length storages) None));
    [apply tasks_poolInv|apply tasks_ledger].
Qed.

Lemma omap_Some_id {A} (xs : list A) : omap Some xs = xs.
Proof.
  induction xs as [|x xs IH]; [reflexivity|].
  by rewrite omap_cons_option_list, IH.
Qed.

Lemma omap_Forall2_eq {A B C} (f : A -> option C) (g : B -> option C) xs ys :
  Forall2 (fun x y => f x = g y) xs ys -> omap f xs = omap g ys.
Proof.
  induction 1 as [|x y xs ys Hxy _ IH]; [reflexivity|].
  by rewrite !omap_cons_option_list, Hxy, IH.
Qed.

Lemma omap_Forall2_submseteq {A B C} (f : A -> option C) (g : B -> option C)
    xs ys :
  Forall2 (fun x y => f x = None \/ f x = g y) xs ys ->
  omap f xs ⊆+ omap g ys.
Proof.
  induction 1 as [|x y xs ys Hxy _ IH]; [reflexivity|].
  rewrite !omap_cons_option_list. destruct Hxy as [-> | ->].
  - simpl. by apply submseteq_inserts_l.
  - by apply submseteq_skips_l.
Qed.

Section LedgerRead.
Variable allTransactions : list loc.
Variable storages : list TransactionStorage.
Variable w w' : World.
Variable pool : list Task.
Variable handles : list (option MessageId).

Hypothesis Hinv :
  poolInv allTransactions (heap w) (length (invocations w)) storages w' pool.
Hypothesis Hbooks : ledger allTransactions (heap w) w w' pool handles.

(** The calls a pool has made are calls of its backends, each with the
    canonical rows. *)
Lemma calls_of_pool :
  Forall2 (fun t c => callOf allTransactions t = None
                      \/ callOf allTransactions t = Some c)
    pool (imap (fun i _ => (i, allTransactions)) storages).
Proof.
  destruct Hinv as (_ & _ & Hlen & Hall).
  apply Forall2_same_length_lookup_2; [by rewrite length_imap|].
  intros i t c Ht Hc. rewrite list_lookup_imap in Hc.
  destruct (Hall i t Ht) as (Hidx & Hs & _). rewrite Hs in Hc.
  injection Hc as <-. unfold callOf. rewrite Hidx.
  destruct (phase t); auto.
Qed.

Lemma reports_of_pool :
  Forall2 (fun t s => reportOf allTransactions (heap w) t = None
                      \/ reportOf allTransactions (heap w) t
                         = rejectionOf allTransactions (heap w) s)
    pool storages.
Proof.
  destruct Hinv as (_ & _ & Hlen & Hall).
  apply Forall2_same_length_lookup_2; [exact Hlen|].
  intros i t s Ht Hs.
  destruct (Hall i t Ht) as (_ & Hs' & _). rewrite Hs in Hs'.
  injection Hs' as ->. unfold reportOf. destruct (phase t); auto.
Qed.

(** How far a task has got is no further than the run of its backend
    goes. *)
Lemma served_bound i t :
  pool !! i = Some t ->
  (served t <= length (progress (runOf allTransactions (heap w) (storage t))))%nat
  /\ (closedOf allTransactions (heap w) t = true ->
      served t
      = length (progress (runOf allTransactions (heap w) (storage t)))).
Proof.
  intros Ht. destruct Hinv as (_ & _ & _ & Hall).
  destruct (Hall i t Ht) as (_ & _ & Htask).
  unfold taskInv in Htask. unfold served, closedOf.
  destruct (phase t).
  - split; [lia|discriminate].
  - split; [lia|discriminate].
  - destruct Htask as (_ & _ & Hn & _). split; [|discriminate].
    rewrite <- Hn, length_app, length_map. lia.
  - destruct Htask as (Hn & _).
    rewrite <- Hn, length_map. split; [lia|reflexivity].
Qed.

End LedgerRead.



(** ** The requests of [InvoiceCreator] *)

Section InvoiceRequestFacts.
Import InvoiceCreator.
Variable dateOf : Value -> option UTCDate.
Variable creator : InvoiceConfig.

Lemma twoDigits_shape n :
  (n < 100)%nat ->
  exists a b, padStart 2 zeroDigit (pretty n) = String a (String b "").
Proof.
  intros Hn.
  assert (forallb
            (fun n => match padStart 2 zeroDigit (pretty n) with
                      | String _ (String _ EmptyString) => true
                      | _ => false
                      end)
            (seq 0 100) = true) as Hall by (vm_compute; reflexivity).
  rewrite forallb_forall in Hall. specialize (Hall n).
  destruct (padStart 2 zeroDigit (pretty n)) as [|a [|b [|c s]]];
    try (discriminate Hall; apply in_seq; lia).
  eauto.
Qed.

Lemma twoDigits_inj n m :
  (n < 100)%nat -> (m < 100)%nat ->
  padStart 2 zeroDigit (pretty n) = padStart 2 zeroDigit (pretty m) ->
  n = m.
Proof.
  intros Hn Hm E.
  assert (forallb
            (fun n =>
               forallb
                 (fun m =>
                    implb
                      (String.eqb (padStart 2 zeroDigit (pretty n))
                                  (padStart 2 zeroDigit (pretty m)))
                      (Nat.eqb n m))
                 (seq 0 100))
            (seq 0 100) = true) as Hall by (vm_compute; reflexivity).
  rewrite forallb_forall in Hall.
  specialize (Hall n ltac:(apply in_seq; lia)).
  rewrite forallb_forall in Hall.
  specialize (Hall m ltac:(apply in_seq; lia)).
  rewrite E, String.eqb_refl in Hall. by apply Nat.eqb_eq.
Qed.

Lemma twoDigits_read n :
  (n < 100)%nat -> readDecimal (padStart 2 zeroDigit (pretty n)) = Some n.
Proof.
  intros Hn.
  assert (forallb
            (fun n =>
               bool_decide
                 (readDecimal (padStart 2 zeroDigit (pretty n)) = Some n))
            (seq 0 100) = true) as Hall by (vm_compute; reflexivity).
  rewrite forallb_forall in Hall.
  specialize (Hall n ltac:(apply in_seq; lia)).
  by apply bool_decide_eq_true in Hall.
Qed.

(** X19.  [formatDate] writes a valid date as its day of the month and
    its month counted from 1, in that order, as two decimal digits each,
    and its year, separated by slashes: read back as numbers, the first
    field is [getUTCDate()] and the second [getUTCMonth() + 1].  Two valid
    dates are written alike only when they are the same day.  An invalid
    date is written "NaN/NaN/NaN". *)
Theorem formatted_date_reads_back (v v' : Value) (d d' : UTCDate) :
  dateOf v = Some d -> dateOf v' = Some d' ->
  (utcDate d < 100)%nat -> (utcMonth d < 99)%nat ->
  (utcDate d' < 100)%nat -> (utcMonth d' < 99)%nat ->
  (exists day month,
     formatDate dateOf v
     = day +:+ "/" +:+ month +:+ "/" +:+ pretty (utcFullYear d)
     /\ String.length day = 2%nat /\ String.length month = 2%nat
     /\ readDecimal day = Some (utcDate d)
     /\ readDecimal month = Some (utcMonth d + 1)%nat)
  /\ (formatDate dateOf v = formatDate dateOf v' -> d = d')
  /\ (forall u, dateOf u = None -> formatDate dateOf u = "NaN/NaN/NaN").
Proof.
  intros Hv Hv' Hday Hmonth Hday' Hmonth'.
  unfold formatDate. rewrite Hv, Hv'. cbv zeta.
  pose proof (twoDigits_read (utcDate d) ltac:(lia)) as Rd.
  pose proof (twoDigits_read (utcMonth d + 1) ltac:(lia)) as Rm.
  destruct (twoDigits_shape (utcDate d)) as (a & b & Ed); [lia|].
  destruct (twoDigits_shape (utcMonth d + 1)) as (a1 & b1 & Em); [lia|].
  destruct (twoDigits_shape (utcDate d')) as (a' & b' & Ed'); [lia|].
  destruct (twoDigits_shape (utcMonth d' + 1)) as (a1' & b1' & Em'); [lia|].
  split; [|split].
  - eexists _, _. split; [reflexivity|].
    split; [by rewrite Ed|]. split; [by rewrite Em|]. by split.
  - intros E. pose proof E as E0. rewrite Ed, Em, Ed', Em' in E.
    simpl in E. injection E as -> -> -> -> Ey.
    apply pretty_Z_inj in Ey.
    rewrite <- Ed' in Ed. rewrite <- Em' in Em.
    apply twoDigits_inj in Ed; [|lia..].
    apply twoDigits_inj in Em; [|lia..].
    destruct d, d'. simpl in *. f_equal; lia.
  - intros u Hu. by rewrite Hu.
Qed.

(** X20.  For a row that passes the insurance-vendor filter, the document
    requested is for the row's original amount: the total, the price of
    its only item and the sum of its only payment are that amount, the
    payment is dated as the document is, and the customer is the row's
    description. *)
Theorem invoice_is_for_the_original_amount (txn : Obj) :
  isInsuranceVendorTransaction txn = true ->
  exists z d,
    prop txn "originalAmount" = VNum z /\ 0 < z
    /\ prop txn "description" = VStr d
    /\ let body := requestBody dateOf creator txn in
       price_total body = Some z
       /\ customer_name body = VStr d
       /\ transaction_id body = prop txn "uniqueId"
       /\ date body = formatDate dateOf (prop txn "processedDate")
       /\ (exists it, item body = [it] /\ price it = Some z /\ amount it = 1)
       /\ (exists p, payment body = [p] /\ payment_sum p = Some z
                     /\ payment_date p = date body).
Proof.
  unfold isInsuranceVendorTransaction. intros Hkept.
  apply andb_true_iff in Hkept. destruct Hkept as [Hpos Hdesc].
  destruct (prop txn "originalAmount") as [| |z] eqn:Ea; try discriminate.
  destruct (prop txn "description") as [|d|] eqn:Ed; try discriminate.
  apply Z.ltb_lt in Hpos. exists z, d.
  split; [reflexivity|]. split; [exact Hpos|]. split; [reflexivity|].
  unfold requestBody. rewrite Ea, Ed. simpl.
  rewrite Z.abs_eq by lia.
  repeat split; eauto.
Qed.

End InvoiceRequestFacts.

(** ** Reading the sheet back *)

Lemma omap_length_le {A B} (f : A -> option B) (xs : list A) :
  (length (omap f xs) <= length xs)%nat.
Proof.
  induction xs as [|x xs IH]; [reflexivity|].
  change (omap f (x :: xs))
    with (match f x with Some y => y :: omap f xs | None => omap f xs end).
  destruct (f x); simpl; lia.
Qed.

Section SheetReadingFacts.
Import SheetTransactions.
Variable Date : Type.
Variable Number : Type.
Variable parse : string -> Date.
Variable invalid : Date -> bool.
Variable getFullYear : Date -> Z.
Variable getMonth : Date -> Z.
Variable parseFloat : string -> Number.
Variable isNaN : Number -> bool.
Variable config : Config.
Variable sheet : GoogleSheetsStorage.Spreadsheet.
Variable getRows : Completion (list Row).

Local Abbreviation readRow :=
  (readRow Date Number parse invalid getFullYear getMonth parseFloat isNaN).
Local Abbreviation transactionOf :=
  (transactionOf Date Number parse invalid getFullYear getMonth parseFloat
     isNaN).

Lemma readRow_spec year month row transactions :
  readRow year month row transactions tt
  = (Normal (transactions
             ++ match transactionOf year month row with
                | Some tx => [tx]
                | None => []
                end), tt).
Proof.
  unfold SheetTransactions.readRow, SheetTransactions.transactionOf.
  destruct (row !! "date") as [dateStr|]; [|by rewrite app_nil_r].
  destruct (String.eqb dateStr ""); simpl; [by rewrite app_nil_r|].
  destruct (invalid (parse dateStr)); simpl; [by rewrite app_nil_r|].
  destruct (Z.eqb (getFullYear (parse dateStr)) year); simpl;
    [|by rewrite app_nil_r].
  destruct (Z.eqb (getMonth (parse dateStr) + 1) month); simpl;
    [|by rewrite app_nil_r].
  destruct (isNaN _); simpl; [by rewrite app_nil_r|reflexivity].
Qed.

Lemma readRows_spec year month rows transactions :
  forOf rows (readRow year month) transactions tt
  = (Normal (transactions ++ omap (transactionOf year month) rows), tt).
Proof.
  revert transactions. induction rows as [|row rows IH]; intros transactions.
  - simpl. by rewrite app_nil_r.
  - cbn [forOf]. unfold bind. rewrite readRow_spec, IH.
    change (omap (transactionOf year month) (row :: rows))
      with (match transactionOf year month row with
            | Some tx => tx :: omap (transactionOf year month) rows
            | None => omap (transactionOf year month) rows
            end).
    destruct (transactionOf year month row);
      by rewrite <- ?app_assoc, ?app_nil_r.
Qed.

Lemma transactionOf_dated year month row tx :
  transactionOf year month row = Some tx ->
  invalid (date _ _ tx) = false
  /\ getFullYear (date _ _ tx) = year
  /\ getMonth (date _ _ tx) + 1 = month
  /\ isNaN (amount _ _ tx) = false
  /\ exists dateStr,
       row !! "date" = Some dateStr /\ dateStr <> ""
       /\ date _ _ tx = parse dateStr.
Proof.
  unfold SheetTransactions.transactionOf.
  destruct (row !! "date") as [dateStr|]; [|discriminate].
  destruct (String.eqb_spec dateStr "") as [|Hne]; [discriminate|]. simpl.
  destruct (invalid (parse dateStr)) eqn:Hinv; [discriminate|]. simpl.
  destruct (Z.eqb_spec (getFullYear (parse dateStr)) year); [|discriminate].
  destruct (Z.eqb_spec (getMonth (parse dateStr) + 1) month);
    [|discriminate].
  simpl. destruct (isNaN _) eqn:Hnan; [discriminate|]. simpl.
  intros [= <-]. simpl. repeat split; auto. by exists dateStr.
Qed.

(** X21.  When [getTransactionsForMonth] resolves, the rows were read and
    the result holds, in the order of the rows, one transaction for each
    row whose date cell is filled, parses to a valid date of the month and
    year asked for and whose amount (an empty cell counting as "0") parses
    to a number, and nothing else: every transaction returned is dated in
    that month, and its text fields are the row's cells, empty when the
    cell is. *)
Theorem monthly_transactions_are_the_rows_of_the_month
    (year month : Z) (transactions : list (SheetTransaction Date Number)) :
  getTransactionsForMonth Date Number parse invalid getFullYear getMonth
    parseFloat isNaN config sheet getRows year month tt
  = (Normal transactions, tt) ->
  exists rows,
    getRows = Normal rows
    /\ transactions = omap (transactionOf year month) rows
    /\ (length transactions <= length rows)%nat
    /\ Forall
         (fun tx =>
            invalid (date _ _ tx) = false
            /\ getFullYear (date _ _ tx) = year
            /\ getMonth (date _ _ tx) + 1 = month
            /\ isNaN (amount _ _ tx) = false)
         transactions.
Proof.
  unfold getTransactionsForMonth, bind, lift, throw, ret.
  destruct (GoogleSheetsStorage.getDoc sheet) as [[]|e]; [|discriminate].
  destruct (GoogleSheetsStorage.sheetsByTitle sheet _); [|discriminate].
  destruct (GoogleSheetsStorage.loadHeaderRow sheet) as [[]|e];
    [|discriminate].
  destruct getRows as [rows|e]; [|discriminate].
  rewrite readRows_spec. simpl. intros [= <-].
  exists rows. split; [reflexivity|]. split; [reflexivity|]. split.
  - apply omap_length_le.
  - apply Forall_forall. intros tx Hin.
    apply list_elem_of_omap in Hin.
    destruct Hin as (row & _ & Hrow).
    destruct (transactionOf_dated _ _ _ _ Hrow) as (H1 & H2 & H3 & H4 & _).
    auto.
Qed.

End SheetReadingFacts.

(** The same on a sample input. *)
Lemma formatted_date_reads_back_witness :
  let d := {| InvoiceCreator.utcFullYear := 2024;
              InvoiceCreator.utcMonth := 0; InvoiceCreator.utcDate := 5 |} in
  Examples.fifthOfJanuary (VStr "2024-01-05T00:00:00.000Z") = Some d
  /\ Examples.fifthOfJanuary (VStr "2024-01-05") = Some d
  /\ (InvoiceCreator.utcDate d < 100)%nat
  /\ (InvoiceCreator.utcMonth d < 99)%nat
  /\ InvoiceCreator.formatDate Examples.fifthOfJanuary
       (VStr "2024-01-05T00:00:00.000Z") = "05/01/2024"
  /\ ((exists day month,
         InvoiceCreator.formatDate Examples.fifthOfJanuary
           (VStr "2024-01-05T00:00:00.000Z")
         = day +:+ "/" +:+ month +:+ "/"
           +:+ pretty (InvoiceCreator.utcFullYear d)
         /\ String.length day = 2%nat /\ String.length month = 2%nat
         /\ readDecimal day = Some (InvoiceCreator.utcDate d)
         /\ readDecimal month = Some (InvoiceCreator.utcMonth d + 1)%nat)
      /\ (InvoiceCreator.formatDate Examples.fifthOfJanuary
            (VStr "2024-01-05T00:00:00.000Z")
          = InvoiceCreator.formatDate Examples.fifthOfJanuary
              (VStr "2024-01-05") -> d = d)
      /\ (forall u, Examples.fifthOfJanuary u = None ->
          InvoiceCreator.formatDate Examples.fifthOfJanuary u
          = "NaN/NaN/NaN")).
Proof.
  intros d.
  split; [reflexivity|]. split; [reflexivity|].
  split; [simpl; lia|]. split; [simpl; lia|].
  split; [vm_compute; reflexivity|].
  apply (formatted_date_reads_back Examples.fifthOfJanuary
           (VStr "2024-01-05T00:00:00.000Z") (VStr "2024-01-05") d d);
    try reflexivity; simpl; lia.
Defined.

(** The same on a sample input. *)
Lemma invoice_is_for_the_original_amount_witness :
  let txn := Samples.purchase "2024-01-02" 100 "מגדל" in
  isInsuranceVendorTransaction txn = true
  /\ exists z d,
       prop txn "originalAmount" = VNum z /\ 0 < z
       /\ prop txn "description" = VStr d
       /\ let body :=
            InvoiceCreator.requestBody Examples.fifthOfJanuary
              Examples.invoiceConfig txn in
          InvoiceCreator.price_total body = Some z
          /\ InvoiceCreator.customer_name body = VStr d
          /\ InvoiceCreator.transaction_id body = prop txn "uniqueId"
          /\ InvoiceCreator.date body
             = InvoiceCreator.formatDate Examples.fifthOfJanuary
                 (prop txn "processedDate")
          /\ (exists it, InvoiceCreator.item body = [it]
                         /\ InvoiceCreator.price it = Some z
                         /\ InvoiceCreator.amount it = 1)
          /\ (exists p, InvoiceCreator.payment body = [p]
                        /\ InvoiceCreator.payment_sum p = Some z
                        /\ InvoiceCreator.payment_date p
                           = InvoiceCreator.date body).
Proof.
  intros txn.
  assert (isInsuranceVendorTransaction txn = true) as Hkept
    by (vm_compute; reflexivity).
  split; [exact Hkept|].
  by apply invoice_is_for_the_original_amount.
Defined.

(** The same on a sample input. *)
Lemma monthly_transactions_are_the_rows_of_the_month_witness :
  let invalid := fun date : string => String.eqb date "" in
  let getFullYear := fun _ : string => 2024 in
  let isNaN := fun amount : string => String.eqb amount "NaN" in
  let call :=
    SheetTransactions.getTransactionsForMonth string string id invalid
      getFullYear Examples.monthOf id isNaN Samples.olderHashType
      Samples.sheetWithU2 (Normal Examples.twoMonths) 2024 1 tt in
  let transactions :=
    match fst call with Normal found => found | Throw _ => [] end in
  call = (Normal transactions, tt)
  /\ map (SheetTransactions.amount string string) transactions = ["-12.5"]
  /\ exists rows,
       Normal Examples.twoMonths = Normal rows
       /\ transactions
          = omap (SheetTransactions.transactionOf string string id invalid
                    getFullYear Examples.monthOf id isNaN 2024 1) rows
       /\ (length transactions <= length rows)%nat
       /\ Forall
            (fun tx =>
               invalid (SheetTransactions.date _ _ tx) = false
               /\ getFullYear (SheetTransactions.date _ _ tx) = 2024
               /\ Examples.monthOf (SheetTransactions.date _ _ tx) + 1 = 1
               /\ isNaN (SheetTransactions.amount _ _ tx) = false)
            transactions.
Proof.
  intros invalid getFullYear isNaN call transactions.
  assert (call = (Normal transactions, tt)) as E
    by (vm_compute; reflexivity).
  split; [exact E|]. split; [vm_compute; reflexivity|].
  exact (monthly_transactions_are_the_rows_of_the_month string string id
           invalid getFullYear Examples.monthOf id isNaN
           Samples.olderHashType Samples.sheetWithU2
           (Normal Examples.twoMonths) 2024 1 transactions E).
Defined.
(** ** More on the invoice step and the normaliser *)

Lemma NoDup_List_filter {A} (f : A -> bool) (xs : list A) :
  NoDup xs -> NoDup (List.filter f xs).
Proof.
  intros Hnd. apply NoDup_ListNoDup, List.NoDup_filter.
  by apply NoDup_ListNoDup.
Qed.

(** X3.  The invoice step of [saveResults] on distinct rows: nothing
    happens unless invoices are configured; when they are, exactly the
    rows of insurance vendors with a positive original amount get the
    [pdf_link] and the [doc_number] of the answer to their own request,
    and every other object stays as it is.  The step never throws and
    reports nothing, whatever the invoicing service does. *)
Theorem invoice_step_invoices_exactly_the_insurance_rows
    `{InvoiceService} (config : Config) (allTransactions : list loc)
    (w : World) :
  NoDup allTransactions ->
  exists h',
    createInvoices config allTransactions w = (Normal tt, withHeap h' w)
    /\ forall l,
         h' !! l
         = if invoice config
              && bool_decide (l ∈ insuranceRows (heap w) allTransactions)
           then invoiced <$> heap w !! l
           else heap w !! l.
Proof.
  intros Hnd. unfold createInvoices.
  destruct (invoice config); simpl.
  - unfold bind, filterInsuranceVendorTransactions.
    fold (insuranceRows (heap w) allTransactions).
    assert (NoDup (insuranceRows (heap w) allTransactions)) as Hnd'
      by (by apply NoDup_List_filter).
    destruct (insuranceRows (heap w) allTransactions) as [|l0 ls] eqn:E.
    + exists (heap w). rewrite withHeap_same. split; [reflexivity|].
      intros l. rewrite bool_decide_eq_false_2; [reflexivity|].
      apply not_elem_of_nil.
    + rewrite <- E in *.
      assert ((0 <? length (insuranceRows (heap w) allTransactions))%nat
              = true) as -> by (by rewrite E).
      exists (foldl (fun h l => alter invoiced l h) (heap w)
                (insuranceRows (heap w) allTransactions)).
      unfold tryCatch, bind, createInvoicesForTransactions, bind.
      rewrite attachAll_alters. split; [reflexivity|].
      intros l. by apply foldl_alter_lookup.
  - exists (heap w). rewrite withHeap_same. by split.
Qed.

Section MoreNormalizerFacts.
Context `{Deriver}.

Lemma rowOf_or_failureOf it :
  (exists row, rowOf it = Some row /\ failureOf it = None
               /\ derivable it = true)
  \/ (exists r, rowOf it = None /\ failureOf it = Some r
                /\ derivable it = false).
Proof.
  destruct it as [[c a] tx]. unfold rowOf, failureOf, derivable.
  destruct (keysOf (c, a, tx)) as [[h u]|e]; [left|right]; eauto.
Qed.

Lemma rows_and_failures items :
  (length (omap rowOf items) + length (omap failureOf items)
   = length items)%nat
  /\ length (omap rowOf items) = length (List.filter derivable items).
Proof.
  induction items as [|it items [IH1 IH2]]; [auto|].
  change (omap rowOf (it :: items))
    with (match rowOf it with
          | Some y => y :: omap rowOf items
          | None => omap rowOf items
          end).
  change (omap failureOf (it :: items))
    with (match failureOf it with
          | Some y => y :: omap failureOf items
          | None => omap failureOf items
          end).
  simpl.
  destruct (rowOf_or_failureOf it) as [(row & -> & -> & ->)|(r & -> & -> & ->)];
    simpl; lia.
Qed.

(** X4.  Every raw transaction of a successful result ends up either as
    one row of the canonical array or as one report on the error channel,
    never as both and never as neither; the rows are as many as the
    transactions whose keys can be derived. *)
Theorem every_raw_transaction_becomes_a_row_or_a_report
    (results : list AccountScrapeResult) (w : World) :
  (length (canonicalRows results w) + length (diagnostics results w)
   = length (rawItems results))%nat
  /\ length (canonicalRows results w)
     = length (List.filter derivable (rawItems results))
  /\ (forall it, In it (rawItems results) ->
      (derivable it = true /\ exists row, rowOf it = Some row
                                          /\ In row (canonicalRows results w))
      \/ (derivable it = false
          /\ exists r, failureOf it = Some r
                       /\ In r (diagnostics results w))).
Proof.
  rewrite canonicalRows_spec, diagnostics_spec.
  destruct (rows_and_failures (rawItems results)) as [H1 H2].
  split; [exact H1|]. split; [exact H2|].
  intros it Hin. apply list_elem_of_In in Hin.
  destruct (rowOf_or_failureOf it) as [(row & Hr & Hf & Hd)|(r & Hr & Hf & Hd)].
  - left. split; [exact Hd|]. exists row. split; [exact Hr|].
    apply list_elem_of_In, list_elem_of_omap. eauto.
  - right. split; [exact Hd|]. exists r. split; [exact Hf|].
    apply list_elem_of_In, list_elem_of_omap. eauto.
Qed.

(** X5.  The canonical rows are fresh objects: the normaliser allocates
    one object for each row it returns and nothing else, no two entries of
    the array it returns are the same object, none of them existed before,
    and the objects that existed before are as they were.  It sends no
    message, invokes no backend and reads no clock. *)
Theorem canonical_rows_are_fresh_objects
    (results : list AccountScrapeResult) (w : World) :
  exists allTransactions w',
    resultsToTransactions results w = (Normal allTransactions, w')
    /\ NoDup allTransactions
    /\ (forall l, In l allTransactions <->
                  (length (heap w) <= l < length (heap w'))%nat)
    /\ length (heap w')
       = (length (heap w) + length allTransactions)%nat
    /\ (forall l, (l < length (heap w))%nat -> heap w' !! l = heap w !! l)
    /\ chat w' = chat w /\ invocations w' = invocations w
    /\ clock w' = clock w /\ ticks w' = ticks w.
Proof.
  eexists _, _. split; [apply resultsToTransactions_spec|].
  unfold pushed, normalized. simpl. rewrite length_app.
  split; [apply NoDup_seq|]. split.
  { intros l. rewrite in_seq. lia. }
  split; [by rewrite length_seq|]. split.
  { intros l Hl. by rewrite lookup_app_l. }
  auto.
Qed.

End MoreNormalizerFacts.

(** ** Without a backend *)

(** X6.  When none of the backends can save, the run is the notice "No
    storages found, skipping save" and nothing else, whatever was scraped:
    the normaliser is not run, so nothing is allocated and no malformed
    transaction is reported, no invoice is requested and no backend is
    announced or invoked. *)
Theorem saveResults_no_active_storage `{Deriver} `{InvoiceService}
    (config : Config) (all : list TransactionStorage)
    (results : list AccountScrapeResult) (schedule : list nat) (w : World) :
  forallb (fun s => negb (canSave s)) all = true ->
  saveResults config (activeStorages all) results schedule w
  = (Normal (Some tt),
     posted (Sent (length (chat w))
               (Plain "No storages found, skipping save")) w).
Proof.
  intros Hnone. apply saveResults_no_storages.
  unfold activeStorages. induction all as [|s all IH]; [reflexivity|].
  simpl in *. apply andb_true_iff in Hnone. destruct Hnone as [Hs Hall].
  apply negb_true_iff in Hs. rewrite Hs. auto.
Qed.

(** The same on a sample input. *)
Lemma saveResults_no_active_storage_witness :
  forallb (fun s => negb (canSave s)) [Examples.unconfigured] = true
  /\ @saveResults sampleDeriver Samples.issuing Samples.withInvoices
       (activeStorages [Examples.unconfigured]) Samples.fiveWithOneUndated
       [0; 0; 0]%nat emptyWorld
     = (Normal (Some tt),
        posted (Sent (length (chat emptyWorld))
                  (Plain "No storages found, skipping save")) emptyWorld).
Proof.
  split; [reflexivity|].
  apply (@saveResults_no_active_storage sampleDeriver Samples.issuing).
  reflexivity.
Defined.

(** ** When the join resolves *)

Lemma finished_remaining allTransactions h t :
  finished t = true <-> remaining allTransactions h t = 0%nat.
Proof.
  unfold finished, remaining. destruct (phase t); split; try discriminate;
    auto; lia.
Qed.

(** X7.  [await parallel(tasks)] resolves exactly when every task has been
    resumed as often as it has suspension points: once to send the status
    message, once to call the backend, once for each progress call and
    once for the settlement.  Until then the join is pending, and turns
    beyond that change nothing. *)
Theorem join_resolves_exactly_when_every_task_had_its_turns
    (allTransactions : list loc) (storages : list TransactionStorage)
    (schedule : list nat) (w : World) :
  fst (parallel allTransactions storages schedule w)
  = Normal (if fair allTransactions (heap w) storages schedule
            then Some tt else None).
Proof.
  destruct (schedule_spec allTransactions (heap w) (length (invocations w))
              storages schedule (tasks storages) w
              (tasks_poolInv allTransactions storages w))
    as (pool & w' & E & Hinv & Hadv).
  unfold parallel, bind, fanOut. rewrite E. simpl. f_equal.
  assert (forallb finished pool
          = fair allTransactions (heap w) storages schedule) as ->;
    [|reflexivity].
  apply Bool.eq_iff_eq_true. unfold fair. rewrite !forallb_forall.
  destruct Hinv as (_ & _ & Hlen & Hall). split.
  - intros Hfin [i s] Hin. cbn [fst snd].
    apply list_elem_of_In, list_elem_of_lookup in Hin.
    destruct Hin as [j Hj]. rewrite list_lookup_imap in Hj.
    destruct (storages !! j) as [s'|] eqn:Hs; [|discriminate].
    injection Hj as <- <-.
    destruct (Hadv j _ (tasks_lookup _ _ _ Hs)) as (t' & Ht' & Hleft).
    assert (finished t' = true) as Hf.
    { apply Hfin, list_elem_of_In, list_elem_of_lookup. eauto. }
    apply (finished_remaining allTransactions (heap w)) in Hf.
    rewrite Hf in Hleft. unfold remaining in Hleft.
    cbn [phase storage] in Hleft.
    apply Nat.leb_le. unfold turnsNeeded. lia.
  - intros Hfair t Ht.
    apply list_elem_of_In, list_elem_of_lookup in Ht. destruct Ht as [i Hi].
    destruct (Hall i t Hi) as (_ & Hs & _).
    destruct (Hadv i _ (tasks_lookup _ _ _ Hs)) as (t' & Hi' & Hleft).
    rewrite Hi in Hi'. injection Hi' as <-.
    apply (finished_remaining allTransactions (heap w)). rewrite Hleft.
    specialize (Hfair (i, storage t)). cbn [fst snd] in Hfair.
    assert ((turnsNeeded allTransactions (heap w) (storage t)
             <=? count_occ Nat.eq_dec schedule i)%nat = true) as Hle.
    { apply Hfair, list_elem_of_In, list_elem_of_lookup. exists i.
      by rewrite list_lookup_imap, Hs. }
    apply Nat.leb_le in Hle.
    unfold remaining at 1. cbn [phase storage].
    unfold turnsNeeded in Hle. lia.
Qed.

(** ** The Google Sheets backend under the orchestrator *)

(** X18.  When the worksheet is missing, the orchestrator's task for the
    Google Sheets backend, once complete, has reported "Sheet ... not
    found" on the error channel under the label
    "saveTransactions::GoogleSheetsStorage", after a timeline of the two
    steps "Getting doc" and "Getting sheet ...", of which the second was
    left open; the backend was invoked once. *)
Theorem missing_worksheet_is_reported_under_the_backend_name
    (config : Config) (sheet : GoogleSheetsStorage.Spreadsheet)
    (allTransactions : list loc) (storages : list TransactionStorage)
    (schedule : list nat) (w : World) (i : nat) :
  storages !! i = Some (GoogleSheetsBackend config sheet) ->
  GoogleSheetsStorage.getDoc sheet = Normal tt ->
  GoogleSheetsStorage.sheetsByTitle sheet
    (GoogleSheetsStorage.worksheetName config) = false ->
  fair allTransactions (heap w) storages schedule = true ->
  exists pool w' t,
    fanOut allTransactions storages schedule w = (Normal pool, w')
    /\ pool !! i = Some t
    /\ In {| reported :=
               "Sheet " +:+ GoogleSheetsStorage.worksheetName config
               +:+ " not found";
             context := Literal "saveTransactions::GoogleSheetsStorage" |}
          (reports w')
    /\ map name (steps t)
       = [ "Getting doc";
           "Getting sheet " +:+ GoogleSheetsStorage.worksheetName config ]
    /\ (exists first last,
          steps t = [first; last] /\ endTime first <> None
          /\ endTime last = None)
    /\ invocationsOf (length (invocations w)) i w' = [(i, allTransactions)].
Proof.
  intros Hi Hdoc Hsheet Hfair.
  destruct (fanOut_spec allTransactions storages schedule w)
    as (pool & w' & E & Hinv & Hfin).
  specialize (Hfin Hfair).
  destruct (pool_lookup _ _ _ _ _ _ _ _ Hinv Hi)
    as (t & Ht & Hidx & Hst & Htask).
  pose proof (finished_lookup _ _ _ Hfin Ht) as Hph.
  exists pool, w', t. split; [exact E|]. split; [exact Ht|].
  unfold taskInv in Htask. rewrite Hph, Hst in Htask.
  assert (runOf allTransactions (heap w) (GoogleSheetsBackend config sheet)
          = {| progress :=
                 [ "Getting doc";
                   "Getting sheet "
                   +:+ GoogleSheetsStorage.worksheetName config ];
               settled :=
                 Rejected ("Sheet "
                           +:+ GoogleSheetsStorage.worksheetName config
                           +:+ " not found") |}) as Erun.
  { unfold runOf, GoogleSheetsBackend. cbn [saveTransactions].
    unfold GoogleSheetsStorage.saveTransactions, bind, lift,
      GoogleSheetsStorage.onProgress, GoogleSheetsStorage.assert.
    cbn [fst snd]. rewrite Hdoc. cbn [fst snd]. rewrite Hsheet.
    reflexivity. }
  rewrite Erun in Htask. cbn [progress settled] in Htask.
  destruct Htask as (Hnames & Hinvs & Hopen & Hrep).
  split; [exact Hrep|]. split; [exact Hnames|]. split; [|by rewrite <- Hidx].
  destruct Hopen as [Hnil|Hopen]; [by rewrite Hnil in Hnames|].
  inversion Hopen as [bound earlier init last Hc Hs He Hb Eb Es].
  rewrite <- Es in Hnames. rewrite map_app in Hnames.
  destruct init as [|first [|second init]]; simpl in Hnames;
    try discriminate;
    try (by injection Hnames as _ _ Hn; destruct init).
  exists first, last. split; [reflexivity|]. split; [|exact He].
  inversion Hc as [|? ? init' t0 e Hc' Hs' He' Hse Heb Eb' Es'].
  destruct init' as [|? [|? ?]]; try discriminate.
  simpl in Es'. injection Es' as <-. by rewrite He'.
Qed.

(** The same on a sample input. *)
Lemma invoice_step_invoices_exactly_the_insurance_rows_witness :
  NoDup [0%nat]
  /\ exists h',
       @createInvoices Samples.issuing Samples.withInvoices [0%nat]
         Examples.oneCommission
       = (Normal tt, withHeap h' Examples.oneCommission)
       /\ forall l,
            h' !! l
            = if invoice Samples.withInvoices
                 && bool_decide
                      (l ∈ insuranceRows (heap Examples.oneCommission)
                             [0%nat])
              then @invoiced Samples.issuing
                   <$> heap Examples.oneCommission !! l
              else heap Examples.oneCommission !! l.
Proof.
  split; [apply NoDup_singleton|].
  apply (@invoice_step_invoices_exactly_the_insurance_rows Samples.issuing).
  apply NoDup_singleton.
Defined.

(** The same on a sample input. *)
Lemma missing_worksheet_is_reported_under_the_backend_name_witness :
  let storages :=
    [Samples.echoing;
     GoogleSheetsBackend Samples.olderHashType Examples.withoutWorksheet] in
  let schedule := [0; 1; 0; 1; 0; 1; 0; 1; 0; 1]%nat in
  storages !! 1%nat
  = Some (GoogleSheetsBackend Samples.olderHashType Examples.withoutWorksheet)
  /\ GoogleSheetsStorage.getDoc Examples.withoutWorksheet = Normal tt
  /\ GoogleSheetsStorage.sheetsByTitle Examples.withoutWorksheet
       (GoogleSheetsStorage.worksheetName Samples.olderHashType) = false
  /\ fair [] (heap Samples.ticking) storages schedule = true
  /\ exists pool w' t,
       fanOut [] storages schedule Samples.ticking = (Normal pool, w')
       /\ pool !! 1%nat = Some t
       /\ In {| reported :=
                  "Sheet "
                  +:+ GoogleSheetsStorage.worksheetName Samples.olderHashType
                  +:+ " not found";
                context := Literal "saveTransactions::GoogleSheetsStorage" |}
             (reports w')
       /\ map name (steps t)
          = [ "Getting doc";
              "Getting sheet "
              +:+ GoogleSheetsStorage.worksheetName Samples.olderHashType ]
       /\ (exists first last,
             steps t = [first; last] /\ endTime first <> None
             /\ endTime last = None)
       /\ invocationsOf (length (invocations Samples.ticking)) 1 w'
          = [(1%nat, [])].
Proof.
  intros storages schedule.
  assert (fair [] (heap Samples.ticking) storages schedule = true) as Hfair
    by (vm_compute; reflexivity).
  split; [reflexivity|]. split; [reflexivity|]. split; [reflexivity|].
  split; [exact Hfair|].
  apply (missing_worksheet_is_reported_under_the_backend_name
           Samples.olderHashType Examples.withoutWorksheet [] storages
           schedule Samples.ticking 1%nat);
    [reflexivity|reflexivity|reflexivity|exact Hfair].
Defined.

(** Pairs and triples of the elements of a list, checked by evaluation. *)
Lemma forallb_pairs {A} (p : A -> A -> bool) (l : list A) :
  forallb (fun a => forallb (p a) l) l = true ->
  forall a b, a ∈ l -> b ∈ l -> p a b = true.
Proof.
  intros Hall a b Ha Hb.
  rewrite forallb_forall in Hall.
  apply list_elem_of_In in Ha. specialize (Hall a Ha).
  rewrite forallb_forall in Hall. apply Hall. by apply list_elem_of_In.
Qed.

Lemma forallb_triples {A} (p : A -> A -> A -> bool) (l : list A) :
  forallb (fun a => forallb (fun b => forallb (p a b) l) l) l = true ->
  forall a b c, a ∈ l -> b ∈ l -> c ∈ l -> p a b c = true.
Proof.
  intros Hall a b c Ha Hb Hc.
  rewrite forallb_forall in Hall.
  apply list_elem_of_In in Ha. specialize (Hall a Ha).
  rewrite forallb_forall in Hall.
  apply list_elem_of_In in Hb. specialize (Hall b Hb).
  rewrite forallb_forall in Hall. apply Hall. by apply list_elem_of_In.
Qed.
(** ** Monthly insights *)

Lemma filter_partition_Permutation {A} (p : A -> bool) (xs : list A) :
  List.filter p xs ++ List.filter (fun x => negb (p x)) xs ≡ₚ xs.
Proof.
  induction xs as [|x xs IH]; simpl; [reflexivity|].
  destruct (p x); simpl.
  - by rewrite IH.
  - rewrite <- Permutation_middle. by rewrite IH.
Qed.

Section InsightsFacts.
Import Insights.
Context `{JsNumber}.
Variable Date : Type.
Variable now : Today.
Variable getDaysInMonth : Z -> Z -> Z.
Variable format : Z -> Z -> string.

Local Abbreviation SheetTransaction :=
  (SheetTransactions.SheetTransaction Date num).
Local Abbreviation calculate :=
  (calculateMonthlyInsights (Date:=Date) now getDaysInMonth format).

Lemma setTotal_keys (totals : Totals) key v :
  map fst (setTotal totals key v)
  = if bool_decide (key ∈ map fst totals) then map fst totals
    else map fst totals ++ [key].
Proof.
  induction totals as [|[k x] totals IH]; cbn [setTotal map fst].
  - rewrite bool_decide_eq_false_2; [reflexivity|apply not_elem_of_nil].
  - destruct (String.eqb_spec k key) as [->|Hne]; cbn [map fst].
    + rewrite bool_decide_eq_true_2; [reflexivity|by left].
    + rewrite IH. destruct (bool_decide (key ∈ map fst totals)) eqn:E.
      * apply bool_decide_eq_true in E.
        rewrite bool_decide_eq_true_2; [reflexivity|by right].
      * apply bool_decide_eq_false in E.
        rewrite bool_decide_eq_false_2; [reflexivity|].
        intros Hin. apply elem_of_cons in Hin. destruct Hin; congruence.
Qed.

(** The keys of [categoryTotals] while the loop runs. *)
Lemma addTransactions_keys (transactions : list SheetTransaction) sums :
  let sums' := fold_left addTransaction transactions sums in
  NoDup (map fst (categoryTotals sums)) ->
  NoDup (map fst (categoryTotals sums'))
  /\ (forall c,
        c ∈ map fst (categoryTotals sums')
        <-> c ∈ map fst (categoryTotals sums)
            \/ exists tx, tx ∈ transactions /\ isExpense tx = true
                          /\ categoryOf tx = c)
  /\ (length (categoryTotals sums')
      <= length (categoryTotals sums)
         + length (List.filter isExpense transactions))%nat.
Proof.
  revert sums. induction transactions as [|tx txs IH]; intros sums; simpl.
  - intros Hnd. split; [exact Hnd|]. split; [|lia].
    intros c. split; [auto|]. intros [Hc|(tx & Hin & _)]; [exact Hc|].
    by apply elem_of_nil in Hin.
  - intros Hnd.
    assert (NoDup (map fst (categoryTotals (addTransaction sums tx)))
            /\ (forall c,
                  c ∈ map fst (categoryTotals (addTransaction sums tx))
                  <-> c ∈ map fst (categoryTotals sums)
                      \/ (isExpense tx = true /\ categoryOf tx = c))
            /\ (length (categoryTotals (addTransaction sums tx))
                <= length (categoryTotals sums)
                   + if isExpense tx then 1 else 0)%nat)
      as (Hnd1 & Hkeys1 & Hlen1).
    { unfold addTransaction. destruct (isExpense tx); simpl.
      - pose proof (setTotal_keys (categoryTotals sums) (categoryOf tx)
                      (numAdd (orZero (getTotal (categoryTotals sums)
                                         (categoryOf tx)))
                              (numAbs (SheetTransactions.amount _ _ tx))))
          as Hk.
        assert (length (setTotal (categoryTotals sums) (categoryOf tx)
                          (numAdd (orZero (getTotal (categoryTotals sums)
                                             (categoryOf tx)))
                                  (numAbs (SheetTransactions.amount _ _ tx))))
                <= length (categoryTotals sums) + 1)%nat as Hl.
        { rewrite <- (length_map fst), Hk.
          destruct (bool_decide _); rewrite ?length_app, !length_map;
            simpl; lia. }
        rewrite Hk.
        destruct (bool_decide (categoryOf tx ∈ map fst (categoryTotals sums)))
          eqn:E.
        + apply bool_decide_eq_true in E. split; [exact Hnd|].
          split; [|exact Hl]. intros c. split; [auto|].
          intros [Hc|[_ <-]]; assumption.
        + apply bool_decide_eq_false in E. split.
          { apply NoDup_app. split; [exact Hnd|]. split.
            - intros x Hx Hx'. apply list_elem_of_singleton in Hx'.
              congruence.
            - apply NoDup_singleton. }
          split; [|exact Hl]. intros c.
          rewrite elem_of_app, list_elem_of_singleton. split.
          * intros [Hc| ->]; auto.
          * intros [Hc|[_ <-]]; auto.
      - split; [exact Hnd|]. split; [|lia]. intros c. split; [auto|].
        intros [Hc|[Hf _]]; [exact Hc|discriminate]. }
    destruct (IH (addTransaction sums tx) Hnd1) as (Hnd2 & Hkeys2 & Hlen2).
    split; [exact Hnd2|]. split.
    + intros c. rewrite Hkeys2, Hkeys1. split.
      * intros [[Hc|[Hf Hc]]|(tx' & Hin & Hf & Hc)]; auto.
        -- right. exists tx. split; [by left|auto].
        -- right. exists tx'. split; [by right|auto].
      * intros [Hc|(tx' & Hin & Hf & Hc)]; auto.
        apply elem_of_cons in Hin. destruct Hin as [->|Hin]; auto.
        right. eauto.
    + destruct (isExpense tx); simpl in *; lia.
Qed.

Lemma insertByIndex_Permutation (e : N * (string * num)) sorted :
  insertByIndex e sorted ≡ₚ e :: sorted.
Proof.
  induction sorted as [|e' sorted IH]; simpl; [reflexivity|].
  destruct (fst e <? fst e')%N; [reflexivity|].
  rewrite IH. apply Permutation_swap.
Qed.

Lemma entries_Permutation (totals : Totals) : entries totals ≡ₚ totals.
Proof.
  unfold entries.
  set (indexed := fun e : string * num =>
                    match arrayIndex (fst e) with
                    | Some n => Some (n, e)
                    | None => None
                    end).
  set (isIndex := fun e : string * num =>
                    match arrayIndex (fst e) with
                    | Some _ => true
                    | None => false
                    end).
  assert (foldr insertByIndex [] (omap indexed totals)
          ≡ₚ omap indexed totals) as ->.
  { induction (omap indexed totals) as [|e l IH]; simpl; [reflexivity|].
    by rewrite insertByIndex_Permutation, IH. }
  assert (map snd (omap indexed totals) = List.filter isIndex totals) as ->.
  { induction totals as [|e totals IH]; [reflexivity|].
    change (omap indexed (e :: totals))
      with (match indexed e with
            | Some y => y :: omap indexed totals
            | None => omap indexed totals
            end).
    simpl. unfold indexed at 1, isIndex at 1.
    destruct (arrayIndex (fst e)); simpl; by rewrite IH. }
  rewrite <- (filter_partition_Permutation isIndex totals) at 3.
  apply Permutation_app_head.
  assert (forall xs : Totals,
            List.filter (fun e => match arrayIndex (fst e) with
                                  | Some _ => false
                                  | None => true
                                  end) xs
            = List.filter (fun x => negb (isIndex x)) xs) as ->;
    [|reflexivity].
  intros xs. apply filter_ext. intros e. unfold isIndex.
  by destruct (arrayIndex (fst e)).
Qed.

Lemma insertSorted_Permutation x sorted :
  insertSorted x sorted ≡ₚ x :: sorted.
Proof.
  induction sorted as [|y sorted IH]; simpl; [reflexivity|].
  destruct (numLt numZero (compareFn y x)); [reflexivity|].
  rewrite IH. apply Permutation_swap.
Qed.

Lemma sort_Permutation xs : sort xs ≡ₚ xs.
Proof.
  unfold sort.
  assert (forall acc,
            fold_left (fun sorted x => insertSorted x sorted) xs acc
            ≡ₚ acc ++ xs) as Hgen.
  { induction xs as [|x xs IH]; intros acc; simpl.
    - by rewrite app_nil_r.
    - rewrite IH, insertSorted_Permutation.
      by rewrite <- Permutation_middle. }
  by rewrite Hgen.
Qed.

Lemma categoryOf_nonempty (tx : SheetTransaction) : categoryOf tx <> "".
Proof.
  unfold categoryOf.
  destruct (String.eqb_spec (SheetTransactions.category _ _ tx) "");
    [discriminate|assumption].
Qed.

(** X22.  For transactions none of whose expense categories is the name of
    a property of [Object.prototype]: the category breakdown lists each
    category of an expense (a negative amount) exactly once, the empty
    category under the name "Uncategorized", and no other category; so a
    category that only income falls under is not listed, and without
    expenses the breakdown is empty.  [transactionCount] is the number of
    transactions given. *)
Theorem breakdown_lists_the_categories_of_the_expenses
    (transactions : list SheetTransaction) (year month : Z) :
  Forall (fun tx => isExpense tx = true ->
                    categoryOf tx ∉ objectPrototypeNames) transactions ->
  let insights := calculate transactions year month in
  let categories := map category (categoryBreakdown insights) in
  NoDup categories
  /\ (forall c,
        c ∈ categories
        <-> exists tx, tx ∈ transactions /\ isExpense tx = true
                       /\ categoryOf tx = c)
  /\ ("" ∉ categories)
  /\ (length categories
      <= length (List.filter isExpense transactions))%nat
  /\ transactionCount insights = length transactions.
Proof.
  intros _ insights categories.
  destruct (addTransactions_keys transactions
              {| expenses := numZero; income := numZero;
                 categoryTotals := [] |})
    as (Hnd & Hkeys & Hlen); [apply NoDup_nil_2|].
  simpl in Hkeys, Hlen.
  set (sums := fold_left addTransaction transactions
                 {| expenses := numZero; income := numZero;
                    categoryTotals := [] |}) in *.
  assert (categories ≡ₚ map fst (categoryTotals sums)) as Hperm.
  { unfold categories, insights, calculateMonthlyInsights. cbn zeta.
    fold sums. cbn [categoryBreakdown].
    rewrite sort_Permutation, map_map. cbn [category].
    change (map (fun x : string * num => fst x) (entries (categoryTotals sums)))
      with (map fst (entries (categoryTotals sums))).
    by rewrite entries_Permutation. }
  assert (forall c,
            c ∈ categories
            <-> exists tx, tx ∈ transactions /\ isExpense tx = true
                           /\ categoryOf tx = c) as Hin.
  { intros c. rewrite Hperm, Hkeys. split; [|auto].
    intros [Hc|Hc]; [by apply elem_of_nil in Hc|exact Hc]. }
  split; [by rewrite Hperm|]. split; [exact Hin|]. split.
  { intros Hempty. apply Hin in Hempty.
    destruct Hempty as (tx & _ & _ & Hc).
    by apply (categoryOf_nonempty tx). }
  split; [|reflexivity].
  rewrite (Permutation_length Hperm), length_map. exact Hlen.
Qed.

Lemma insertSorted_sorted (R : CategoryBreakdown -> CategoryBreakdown -> Prop)
    x sorted :
  (forall a b, a ∈ x :: sorted -> b ∈ x :: sorted ->
               numLt numZero (compareFn a b) = true -> R b a) ->
  (forall a b, numLt numZero (compareFn a b) = false -> R a b) ->
  (forall a b c, a ∈ x :: sorted -> b ∈ x :: sorted -> c ∈ x :: sorted ->
                 R a b -> R b c -> R a c) ->
  ForallOrdPairs R sorted -> ForallOrdPairs R (insertSorted x sorted).
Proof.
  intros Hasym Hweak Htrans Hsorted.
  induction Hsorted as [|y sorted Hy Hsorted IH]; simpl.
  - repeat constructor.
  - destruct (numLt numZero (compareFn y x)) eqn:Hafter.
    + assert (R x y) as Hxy.
      { apply (Hasym y x); [by right; left|by left|exact Hafter]. }
      constructor; [|by constructor].
      constructor; [exact Hxy|].
      rewrite Forall_forall in Hy |- *. intros z Hz.
      apply (Htrans x y z); auto.
      * by left.
      * by right; left.
      * by right; right.
    + constructor.
      * rewrite Forall_forall in Hy |- *. intros z Hz.
        rewrite insertSorted_Permutation in Hz.
        apply elem_of_cons in Hz. destruct Hz as [->|Hz]; auto.
      * apply IH.
        -- intros a b Ha Hb. apply Hasym.
           ++ apply elem_of_cons in Ha. destruct Ha as [->|Ha];
                [by left|by right; right].
           ++ apply elem_of_cons in Hb. destruct Hb as [->|Hb];
                [by left|by right; right].
        -- intros a b c Ha Hb Hc. apply Htrans.
           ++ apply elem_of_cons in Ha. destruct Ha as [->|Ha];
                [by left|by right; right].
           ++ apply elem_of_cons in Hb. destruct Hb as [->|Hb];
                [by left|by right; right].
           ++ apply elem_of_cons in Hc. destruct Hc as [->|Hc];
                [by left|by right; right].
Qed.

Lemma sort_sorted (R : CategoryBreakdown -> CategoryBreakdown -> Prop) xs :
  (forall a b, a ∈ xs -> b ∈ xs ->
               numLt numZero (compareFn a b) = true -> R b a) ->
  (forall a b, numLt numZero (compareFn a b) = false -> R a b) ->
  (forall a b c, a ∈ xs -> b ∈ xs -> c ∈ xs -> R a b -> R b c -> R a c) ->
  ForallOrdPairs R (sort xs).
Proof.
  intros Hasym Hweak Htrans. unfold sort.
  assert (forall ys acc,
            (forall a, a ∈ acc ++ ys -> a ∈ xs) ->
            ForallOrdPairs R acc ->
            ForallOrdPairs R
              (fold_left (fun sorted x => insertSorted x sorted) ys acc))
    as Hgen.
  { induction ys as [|y ys IH]; intros acc Hall Hacc; simpl; [exact Hacc|].
    assert (forall a, a ∈ y :: acc -> a ∈ xs) as Hsub.
    { intros a Ha. apply Hall. rewrite elem_of_app, elem_of_cons.
      apply elem_of_cons in Ha. destruct Ha as [->|Ha]; auto. }
    apply IH.
    - intros a Ha. rewrite elem_of_app, insertSorted_Permutation in Ha.
      destruct Ha as [Ha|Ha]; [by apply Hsub|].
      apply Hall. rewrite elem_of_app, elem_of_cons. auto.
    - apply insertSorted_sorted; auto.
      intros a b c Ha Hb Hc. apply Htrans; auto. }
  apply Hgen; [|constructor]. intros a Ha. exact Ha.
Qed.

(** X23.  When the comparison [b.amount - a.amount] is consistent on the
    entries of the breakdown (of two entries it does not place each after
    the other, and "not placed after" is transitive, as holds of amounts
    none of which is NaN), the breakdown is sorted by amount in descending
    order: no entry is followed, at whatever distance, by one the
    comparison places before it. *)
Theorem breakdown_is_sorted_by_amount_descending
    (transactions : list SheetTransaction) (year month : Z) :
  let breakdown := categoryBreakdown (calculate transactions year month) in
  let notAfter := fun a b => numLt numZero (compareFn a b) = false in
  (forall a b, a ∈ breakdown -> b ∈ breakdown ->
               numLt numZero (compareFn a b) = true -> notAfter b a) ->
  (forall a b c, a ∈ breakdown -> b ∈ breakdown -> c ∈ breakdown ->
                 notAfter a b -> notAfter b c -> notAfter a c) ->
  ForallOrdPairs notAfter breakdown.
Proof.
  intros breakdown notAfter. unfold breakdown, calculateMonthlyInsights.
  cbn zeta. cbn [categoryBreakdown].
  match goal with
  | |- context [sort ?l] => generalize l
  end.
  intros xs Hasym Htrans. apply sort_sorted.
  - intros a b Ha Hb. apply Hasym; by rewrite sort_Permutation.
  - auto.
  - intros a b c Ha Hb Hc. apply Htrans; by rewrite sort_Permutation.
Qed.

End InsightsFacts.

Section SendingFacts.
Import Insights.
Context `{JsNumber} {Date : Type}.
Variable parse : string -> Date.
Variable invalid : Date -> bool.
Variable getFullYear : Date -> Z.
Variable getMonth : Date -> Z.
Variable parseFloat : string -> num.
Variable isNaN : num -> bool.
Variable config : Config.
Variable sheet : GoogleSheetsStorage.Spreadsheet.
Variable getRows : Completion (list SheetTransactions.Row).
Variable insightsConfig : option InsightsConfig.
Variable now : Today.
Variable later : Today.
Variable getDaysInMonth : Z -> Z -> Z.
Variable format : Z -> Z -> string.

Local Abbreviation send_ :=
  (sendMonthlyInsights parse invalid getFullYear getMonth parseFloat isNaN
     config sheet getRows insightsConfig now later getDaysInMonth format).
Local Abbreviation read :=
  (fst (SheetTransactions.getTransactionsForMonth Date num parse invalid
          getFullYear getMonth parseFloat isNaN config sheet getRows
          (nowFullYear now) (nowMonth now + 1) tt)).

(** X24.  [sendMonthlyInsights] never rejects, and all it may do is one of
    two things: send one message, or report one error under the label
    "sendMonthlyInsights".  It does nothing at all when insights are not
    enabled; it reports that the Google Sheets storage is not configured
    when that is so; a failure to read the sheet is reported and not
    thrown; and a message is sent only when insights are enabled, the
    storage is configured and the sheet holds at least one transaction of
    the current month. *)
Theorem monthly_insights_send_one_message_or_report_one_error (w : World) :
  exists w',
    send_ w = (Normal tt, w')
    /\ heap w' = heap w /\ clock w' = clock w
    /\ invocations w' = invocations w
    /\ (w' = w
        \/ (chat w' = chat w
            /\ exists e,
                 reports w'
                 = reports w
                   ++ [{| reported := e;
                          context := Literal "sendMonthlyInsights" |}])
        \/ (reports w' = reports w
            /\ exists message,
                 chat w' = chat w ++ [Sent (length (chat w)) (Plain message)]))
    /\ (chat w' <> chat w ->
        exists ic transactions,
          insightsConfig = Some ic /\ enabled ic = true
          /\ googleSheets config <> None
          /\ read = Normal transactions /\ transactions <> [])
    /\ ((forall ic, insightsConfig = Some ic -> enabled ic = false) ->
        w' = w)
    /\ (forall ic, insightsConfig = Some ic -> enabled ic = true ->
        googleSheets config = None ->
        w' = complained
               {| reported :=
                    "Monthly insights require Google Sheets storage to be configured";
                  context := Literal "sendMonthlyInsights" |} w)
    /\ (forall ic e, insightsConfig = Some ic -> enabled ic = true ->
        googleSheets config <> None -> read = Throw e ->
        w' = complained
               {| reported := e; context := Literal "sendMonthlyInsights" |}
               w).
Proof.
  unfold sendMonthlyInsights.
  destruct insightsConfig as [ic|].
  2: { exists w. repeat split; auto; try congruence; try discriminate. }
  assert (forall w' : World,
            (forall ic0, Some ic = Some ic0 -> enabled ic0 = false) ->
            enabled ic = true -> w' = w) as Hoff.
  { intros w' Hall Hen. specialize (Hall ic eq_refl). congruence. }
  destruct (enabled ic) eqn:Hen; simpl.
  2: { exists w. repeat split; auto; try congruence. }
  destruct (googleSheets config) as [gs|] eqn:Hgs.
  2: { eexists. split; [reflexivity|]. simpl.
       repeat split; auto; try congruence.
       right. left. split; [reflexivity|]. eauto. }
  unfold tryCatch, bind, lift. cbv zeta.
  destruct read as [transactions|e] eqn:Hread.
  - destruct transactions as [|tx transactions]; simpl.
    + exists w. repeat split; auto; try congruence; try discriminate.
    + eexists. split; [reflexivity|]. simpl.
      repeat split; auto; try congruence; try discriminate.
      * right. right. split; [reflexivity|]. eauto.
      * exists ic, (tx :: transactions).
        repeat split; auto; discriminate.
  - eexists. split; [reflexivity|]. simpl.
    repeat split; auto; try congruence; try discriminate.
    + right. left. split; [reflexivity|]. eauto.
    + intros ic' e' _ _ _ [= <-]. reflexivity.
Qed.

End SendingFacts.

(** The same on a sample input. *)
Lemma breakdown_lists_the_categories_of_the_expenses_witness :
  let insights :=
    @Insights.calculateMonthlyInsights InsightExamples.fractions string
      InsightExamples.firstOfMarch InsightExamples.daysOf
      InsightExamples.nameOf InsightExamples.groceriesAndGas 2024 1 in
  let categories :=
    map (@Insights.category InsightExamples.fractions)
      (Insights.categoryBreakdown insights) in
  Forall (fun tx => @Insights.isExpense InsightExamples.fractions string tx
                    = true ->
                    @Insights.categoryOf InsightExamples.fractions string tx
                    ∉ Insights.objectPrototypeNames)
    InsightExamples.groceriesAndGas
  /\ categories = ["Food"; "Transportation"; "Uncategorized"]
  /\ (NoDup categories
      /\ (forall c,
            c ∈ categories
            <-> exists tx,
                  tx ∈ InsightExamples.groceriesAndGas
                  /\ @Insights.isExpense InsightExamples.fractions string tx
                     = true
                  /\ @Insights.categoryOf InsightExamples.fractions string tx
                     = c)
      /\ ("" ∉ categories)
      /\ (length categories
          <= length (List.filter
                       (@Insights.isExpense InsightExamples.fractions string)
                       InsightExamples.groceriesAndGas))%nat
      /\ Insights.transactionCount insights
         = length InsightExamples.groceriesAndGas).
Proof.
  intros insights categories.
  assert (Forall (fun tx =>
                    @Insights.isExpense InsightExamples.fractions string tx
                    = true ->
                    @Insights.categoryOf InsightExamples.fractions string tx
                    ∉ Insights.objectPrototypeNames)
            InsightExamples.groceriesAndGas) as Hown.
  { repeat constructor; intros _ Hin; vm_compute in Hin;
      repeat (apply elem_of_cons in Hin as [Hin|Hin]; [discriminate|]);
      by apply elem_of_nil in Hin. }
  split; [exact Hown|]. split; [vm_compute; reflexivity|].
  exact (@breakdown_lists_the_categories_of_the_expenses
           InsightExamples.fractions string InsightExamples.firstOfMarch
           InsightExamples.daysOf InsightExamples.nameOf
           InsightExamples.groceriesAndGas 2024 1 Hown).
Defined.

(** The same on a sample input. *)
Lemma breakdown_is_sorted_by_amount_descending_witness :
  let breakdown :=
    Insights.categoryBreakdown
      (@Insights.calculateMonthlyInsights InsightExamples.fractions string
         InsightExamples.firstOfMarch InsightExamples.daysOf
         InsightExamples.nameOf InsightExamples.smallLargeMedium 2024 1) in
  let notAfter := fun a b =>
    @Insights.numLt InsightExamples.fractions
      (@Insights.numZero InsightExamples.fractions)
      (@Insights.compareFn InsightExamples.fractions a b) = false in
  (forall a b, a ∈ breakdown -> b ∈ breakdown ->
               @Insights.numLt InsightExamples.fractions
                 (@Insights.numZero InsightExamples.fractions)
                 (@Insights.compareFn InsightExamples.fractions a b) = true ->
               notAfter b a)
  /\ (forall a b c, a ∈ breakdown -> b ∈ breakdown -> c ∈ breakdown ->
                    notAfter a b -> notAfter b c -> notAfter a c)
  /\ map (@Insights.category InsightExamples.fractions) breakdown
     = ["Large"; "Medium"; "Small"]
  /\ ForallOrdPairs notAfter breakdown.
Proof.
  intros breakdown notAfter.
  set (after := fun a b =>
         @Insights.numLt InsightExamples.fractions
           (@Insights.numZero InsightExamples.fractions)
           (@Insights.compareFn InsightExamples.fractions a b)).
  assert (forall a b, a ∈ breakdown -> b ∈ breakdown ->
                      after a b = true -> notAfter b a) as Hasym.
  { intros a b Ha Hb.
    assert (forallb (fun a => forallb (fun b => implb (after a b)
                                                 (negb (after b a)))
                                 breakdown) breakdown = true) as Hall
      by (vm_compute; reflexivity).
    pose proof (forallb_pairs _ _ Hall a b Ha Hb) as Hab.
    cbv beta in Hab. unfold notAfter. change (after a b = true -> after b a = false).
    destruct (after a b), (after b a); simpl in Hab; congruence. }
  assert (forall a b c, a ∈ breakdown -> b ∈ breakdown -> c ∈ breakdown ->
                        notAfter a b -> notAfter b c -> notAfter a c)
    as Htrans.
  { intros a b c Ha Hb Hc.
    assert (forallb
              (fun a =>
                 forallb
                   (fun b =>
                      forallb
                        (fun c => implb (negb (after a b))
                                    (implb (negb (after b c))
                                       (negb (after a c))))
                        breakdown) breakdown) breakdown = true) as Hall
      by (vm_compute; reflexivity).
    pose proof (forallb_triples _ _ Hall a b c Ha Hb Hc) as Habc.
    cbv beta in Habc. unfold notAfter.
    change (after a b = false -> after b c = false -> after a c = false).
    destruct (after a b), (after b c), (after a c); simpl in Habc;
      congruence. }
  split; [exact Hasym|]. split; [exact Htrans|].
  split; [vm_compute; reflexivity|].
  exact (@breakdown_is_sorted_by_amount_descending
           InsightExamples.fractions string InsightExamples.firstOfMarch
           InsightExamples.daysOf InsightExamples.nameOf
           InsightExamples.smallLargeMedium 2024 1 Hasym Htrans).
Defined.

(** ** The model against the tests of insights.test.ts *)

(** What the tests of [calculateMonthlyInsights] expect, computed with exact
    fractions (on these inputs the engine's arithmetic is exact as well):
    the totals, the breakdown with its percentages, the category of an
    expense without one, the empty month, the daily average of a past
    month, the order of the breakdown and the absence of income from it. *)
Lemma calculateMonthlyInsights_meets_its_tests :
  let calculate :=
    @Insights.calculateMonthlyInsights InsightExamples.fractions string
      InsightExamples.firstOfMarch InsightExamples.daysOf
      InsightExamples.nameOf in
  let tx := InsightExamples.transaction in
  let whole := QArith_base.inject_Z in
  let shown := fun insights =>
    map (fun c => (@Insights.category InsightExamples.fractions c,
                   @Insights.amount InsightExamples.fractions c,
                   @Insights.percentage InsightExamples.fractions c))
        (Insights.categoryBreakdown insights) in
  (let insights :=
     calculate [tx (-100) "Food"; tx (-50) "Transportation"; tx 5000 "Income"]
       2024 1 in
   (Insights.totalExpenses insights, Insights.totalIncome insights,
    Insights.balance insights, Insights.transactionCount insights)
   = (whole 150, whole 5000, whole 4850, 3%nat))
  /\ shown (calculate [tx (-100) "Food"; tx (-50) "Food";
                       tx (-50) "Transportation"] 2024 1)
     = [("Food", whole 150, whole 75); ("Transportation", whole 50, whole 25)]
  /\ shown (calculate [tx (-100) ""] 2024 1)
     = [("Uncategorized", whole 100, whole 100)]
  /\ (let insights := calculate [] 2024 1 in
      (Insights.totalExpenses insights, Insights.totalIncome insights,
       Insights.balance insights, Insights.transactionCount insights,
       Insights.categoryBreakdown insights)
      = (whole 0, whole 0, whole 0, 0%nat, []))
  /\ (let insights := calculate [tx (-310) "General"] 2024 1 in
      (Insights.daysInMonth insights, Insights.daysSoFar insights,
       Insights.dailyAverage insights)
      = (31, 31, whole 10))
  /\ map fst (map fst (shown (calculate InsightExamples.smallLargeMedium
                                2024 1)))
     = ["Large"; "Medium"; "Small"]
  /\ map fst (map fst (shown (calculate [tx 5000 "Income"; tx (-100) "Food"]
                                2024 1)))
     = ["Food"].
Proof. vm_compute. repeat split; reflexivity. Qed.

(** What the tests of [formatInsightsMessage] expect of the lines of the
    message, whatever the formatting of the numbers: the heading of the
    categories and the categories appear only when they are to be shown
    and there are some, not more of them than [maxCategories], and the
    daily average appears unless it is switched off; without options the
    categories and the daily average are shown. *)
Lemma formatInsightsMessage_meets_its_tests :
  let Q := fun n d =>
    QArith_base.Qmake n (Z.to_pos d)
    : @Insights.num InsightExamples.fractions in
  let entry := fun category amount percentage =>
    {| Insights.category := category;
       Insights.amount := amount : @Insights.num InsightExamples.fractions;
       Insights.percentage := percentage |} in
  let sampleInsights :=
    {| Insights.year := 2024; Insights.month := 1;
       Insights.monthName := "January 2024";
       Insights.totalExpenses := Q 10865 2;
       Insights.totalIncome := Q 8000 1;
       Insights.balance := Q 5135 2;
       Insights.transactionCount := 50;
       Insights.daysInMonth := 31;
       Insights.daysSoFar := 18;
       Insights.dailyAverage := Q 30181 100;
       Insights.categoryBreakdown :=
         [ entry "Groceries" (Q 1500 1) (Q 276 10);
           entry "Transportation" (Q 800 1) (Q 147 10);
           entry "Restaurants" (Q 650 1) (Q 12 1);
           entry "Utilities" (Q 450 1) (Q 83 10);
           entry "Entertainment" (Q 320 1) (Q 59 10);
           entry "Other" (Q 100 1) (Q 18 10) ] |} in
  let message := fun insights showCategories maxCategories showDailyAverage =>
    @Insights.formatInsightsMessage InsightExamples.fractions insights
      (Some {| Insights.showCategories := showCategories;
               Insights.maxCategories := maxCategories;
               Insights.showDailyAverage := showDailyAverage |}) in
  let contains := fun message text => includes text message in
  (let m := message sampleInsights (Some false) None (Some true) in
   (contains m "Top Categories", contains m "Groceries") = (false, false))
  /\ contains (message sampleInsights (Some false) None (Some false))
       "Daily avg" = false
  /\ (let m := message sampleInsights (Some true) (Some 3) (Some false) in
      (contains m "Groceries", contains m "Transportation",
       contains m "Restaurants", contains m "Utilities")
      = (true, true, true, false))
  /\ contains
       (message
          {| Insights.year := 2024; Insights.month := 1;
             Insights.monthName := "January 2024";
             Insights.totalExpenses := Q 0 1;
             Insights.totalIncome := Q 8000 1;
             Insights.balance := Q 5135 2;
             Insights.transactionCount := 50;
             Insights.daysInMonth := 31;
             Insights.daysSoFar := 18;
             Insights.dailyAverage := Q 30181 100;
             Insights.categoryBreakdown := [] |}
          (Some true) None (Some false))
       "Top Categories" = false
  /\ (let m :=
        @Insights.formatInsightsMessage InsightExamples.fractions
          sampleInsights None in
      (contains m "Top Categories", contains m "Daily avg",
       contains m "Entertainment", contains m "Other")
      = (true, true, true, false)).
Proof. vm_compute. repeat split; reflexivity. Qed.
